(** * KlaviyoService: a shallow embedding of the metered client and the
      dashboard aggregation of [klaviyoService.js]

    The development follows the class [KlaviyoService]: the values that
    travel through it are JSON documents decoded by axios, so the embedding
    starts with a small model of JavaScript values (truthiness, [?.],
    [||], [parseFloat], string coercion), then a state-and-exception monad
    for the [async] methods (the clock, [this.lastRequestTime], the
    requests put on the wire and the timers awaited), then the methods in
    source order, then the theorems.

    Conventions of the model, stated once:
    - numbers are exact rationals ([Q]); rounding of IEEE doubles, overflow
      and the literal [Infinity] are outside the model, so a statement
      about a sum is made for whole numbers below 2^53 ([whole_numbers]),
      on which the additions of the code are exact;
    - strings are sequences of 8-bit characters; [toLowerCase] and the
      regular expression classes [\d] and [\s] act on their ASCII part,
      so a statement that depends on case or on white space is made for
      ASCII texts ([plain]);
    - an object is the list of its properties; a property is read at its
      first binding; the keys written by the code are never names that
      [Object.prototype] already defines ([inherited_name]);
    - a timer fires exactly when it is due; [setTimeout] honours delays
      from 1 ms to 2^31 - 1 ms ([timer_range]);
    - [Promise.allSettled] over an array literal is run in array order, one
      task to completion after the other (the interleaving of the rate
      limiter alone is modelled separately, in [Module Concurrent]); what
      is stated of a build therefore never depends on the order or the
      times of its requests. *)

From Stdlib Require Import ZArith QArith Lia List String Ascii.
From stdpp Require Import base tactics option list strings pretty gmap fin_maps.

#[local] Set Warnings "-register-all".

Local Open Scope string_scope.
Local Open Scope list_scope.
Local Open Scope Z_scope.

(** ** JavaScript values *)

Inductive Value : Type :=
| VUndefined
| VNull
| VBool (b : bool)
| VNum (q : Q)
| VStr (s : string)
| VArr (items : list Value)
| VObj (fields : list (string * Value)).

Definition VInt (z : Z) : Value := VNum (inject_Z z).

(** ToBoolean. *)
Definition truthy (v : Value) : bool :=
  match v with
  | VUndefined | VNull => false
  | VBool b => b
  | VNum q => negb (Qeq_bool q 0)
  | VStr s => negb (String.eqb s EmptyString)
  | VArr _ | VObj _ => true
  end.

Definition nullish (v : Value) : bool :=
  match v with VUndefined | VNull => true | _ => false end.

(** [a || b] *)
Definition js_or (a b : Value) : Value := if truthy a then a else b.

Fixpoint assoc (k : string) (fs : list (string * Value)) : Value :=
  match fs with
  | [] => VUndefined
  | (k', v) :: rest => if String.eqb k k' then v else assoc k rest
  end.

(** [v.k] for a [v] that is neither [null] nor [undefined]: own properties
    of objects, [length] of arrays and strings, [undefined] otherwise. *)
Definition getProp (v : Value) (k : string) : Value :=
  match v with
  | VObj fs => assoc k fs
  | VArr l => if String.eqb k "length" then VInt (Z.of_nat (length l)) else VUndefined
  | VStr s => if String.eqb k "length" then VInt (Z.of_nat (String.length s)) else VUndefined
  | _ => VUndefined
  end.

(** [v?.k] *)
Definition opt (v : Value) (k : string) : Value :=
  if nullish v then VUndefined else getProp v k.

(** [v?.[0]] *)
Definition opt0 (v : Value) : Value :=
  match v with
  | VArr (x :: _) => x
  | VStr (String c _) => VStr (String c EmptyString)
  | VObj fs => assoc "0" fs
  | _ => VUndefined
  end.

Definition isArray (v : Value) : bool :=
  match v with VArr _ => true | _ => false end.

(** ** Characters and strings *)

(** The one-character string holding a double quote. *)
Definition dquote : string := String (ascii_of_nat 34) EmptyString.

Definition is_digit (c : ascii) : bool :=
  let n := Z.of_nat (nat_of_ascii c) in (48 <=? n) && (n <=? 57).

Definition digit_val (c : ascii) : Z := Z.of_nat (nat_of_ascii c) - 48.

(** The ASCII part of [\s]: TAB, LF, VT, FF, CR, SP. (The class of
    JavaScript also holds characters outside ASCII, such as U+00A0; see
    [plain].) *)
Definition is_space (c : ascii) : bool :=
  let n := Z.of_nat (nat_of_ascii c) in ((9 <=? n) && (n <=? 13)) || (n =? 32).

Definition lower_ascii (c : ascii) : ascii :=
  let n := nat_of_ascii c in
  if ((65 <=? n)%nat && (n <=? 90)%nat)%bool then ascii_of_nat (n + 32) else c.

(** [s.toLowerCase()], on ASCII: the letters A to Z are folded, every
    other character is left as it is (see [plain]). *)
Fixpoint toLowerCase (s : string) : string :=
  match s with
  | EmptyString => EmptyString
  | String c r => String (lower_ascii c) (toLowerCase r)
  end.

(** A text of ASCII characters only. On such texts the case folding and
    the character classes above are those of JavaScript. *)
Fixpoint plain (s : string) : bool :=
  match s with
  | EmptyString => true
  | String c r => (Z.of_nat (nat_of_ascii c) <? 128) && plain r
  end.

(** [s.startsWith(p)] *)
Fixpoint startsWith (p s : string) : bool :=
  match p, s with
  | EmptyString, _ => true
  | String a p', String b s' => Ascii.eqb a b && startsWith p' s'
  | String _ _, EmptyString => false
  end.

(** [s.includes(p)] *)
Fixpoint includes (p s : string) : bool :=
  startsWith p s ||
  match s with
  | EmptyString => false
  | String _ s' => includes p s'
  end.

(** [s.substring(n)] *)
Fixpoint substring_from (n : nat) (s : string) : string :=
  match n, s with
  | O, _ => s
  | S n', String _ s' => substring_from n' s'
  | S _, EmptyString => EmptyString
  end.

Fixpoint skip_spaces (s : string) : string :=
  match s with
  | String c r => if is_space c then skip_spaces r else s
  | EmptyString => EmptyString
  end.

(** The longest run of decimal digits at the head of [s], as the number it
    denotes and its length, and what follows it. *)
Fixpoint take_digits (acc : Z) (len : nat) (s : string) : Z * nat * string :=
  match s with
  | String c r => if is_digit c then take_digits (10 * acc + digit_val c) (S len) r
                  else (acc, len, s)
  | EmptyString => (acc, len, s)
  end.

(** ** Numbers *)

Fixpoint pow10 (n : nat) : positive :=
  match n with O => 1%positive | S k => (10 * pow10 k)%positive end.

(** [m * 10^e] for a signed decimal exponent. *)
Definition scale10 (m : Q) (e : Z) : Q :=
  match e with
  | Z0 => m
  | Zpos p => (m * inject_Z (Zpos (pow10 (Pos.to_nat p))))%Q
  | Zneg p => (m * (1 # pow10 (Pos.to_nat p)))%Q
  end.

(** The exponent part of a StrDecimalLiteral, when one is well formed at
    the head of [s]; otherwise the exponent is 0 (the part is not read). *)
Definition take_exponent (s : string) : Z :=
  match s with
  | String c r =>
      if (Ascii.eqb c "e" || Ascii.eqb c "E")%bool then
        let '(neg, r') :=
          match r with
          | String "-" r' => (true, r')
          | String "+" r' => (false, r')
          | _ => (false, r)
          end in
        let '(e, len, _) := take_digits 0 O r' in
        match len with
        | O => 0
        | S _ => if neg then - e else e
        end
      else 0
  | EmptyString => 0
  end.

(** The unsigned part of a StrDecimalLiteral: digits, an optional fraction,
    an optional exponent. [None] is [NaN]. *)
Definition parse_unsigned (s : string) : option Q :=
  let '(ip, ilen, r) := take_digits 0 O s in
  match r with
  | String "." r' =>
      let '(fp, flen, r'') := take_digits 0 O r' in
      match ilen, flen with
      | O, O => None
      | _, _ =>
          Some (scale10 ((ip * Zpos (pow10 flen) + fp) # pow10 flen) (take_exponent r''))
      end
  | _ =>
      match ilen with
      | O => None
      | S _ => Some (scale10 (inject_Z ip) (take_exponent r))
      end
  end.

(** [parseFloat] on a string: leading white space, a sign, the longest
    prefix that is a decimal literal. *)
Definition parseFloat_string (s : string) : option Q :=
  match skip_spaces s with
  | String "-" r => option_map Qopp (parse_unsigned r)
  | String "+" r => parse_unsigned r
  | r => parse_unsigned r
  end.

(** [parseFloat(v)]: the argument is first converted to a string. A number
    reads back as itself; an array prints as its elements joined by commas,
    so only its first element is read; [null], booleans and objects print
    as text that is no number. *)
Fixpoint parseFloat (v : Value) : option Q :=
  match v with
  | VNum q => Some q
  | VStr s => parseFloat_string s
  | VArr (x :: _) => parseFloat x
  | _ => None
  end.

(** [isNaN(num) ? 0 : num] *)
Definition nan_to_zero (n : option Q) : Q :=
  match n with Some q => q | None => 0%Q end.

Definition hex_val (c : ascii) : option Z :=
  let n := Z.of_nat (nat_of_ascii c) in
  if (48 <=? n) && (n <=? 57) then Some (n - 48)
  else if (65 <=? n) && (n <=? 70) then Some (n - 55)
  else if (97 <=? n) && (n <=? 102) then Some (n - 87)
  else None.

Fixpoint take_hex (acc : option Z) (s : string) : option Z :=
  match s with
  | String c r =>
      match hex_val c with
      | Some d => take_hex (Some (16 * default 0 acc + d)) r
      | None => acc
      end
  | EmptyString => acc
  end.

(** [parseInt] on a string: white space, a sign, then hexadecimal digits
    after [0x], decimal digits otherwise. *)
Definition parseInt_unsigned (s : string) : option Z :=
  match s with
  | String "0" (String x r) =>
      if (Ascii.eqb x "x" || Ascii.eqb x "X")%bool then take_hex None r
      else Some (fst (fst (take_digits 0 O s)))
  | _ =>
      let '(n, len, _) := take_digits 0 O s in
      match len with O => None | S _ => Some n end
  end.

Definition parseInt_string (s : string) : option Z :=
  match skip_spaces s with
  | String "-" r => Z.opp <$> parseInt_unsigned r
  | String "+" r => parseInt_unsigned r
  | r => parseInt_unsigned r
  end.

(** [parseInt(v)]: a number prints in positional notation, of which the
    integer part is read. (From 1e21 up and below 1e-6 JavaScript prints a
    number with an exponent and [parseInt] reads its first digits only;
    such numbers are outside the model.) *)
Fixpoint parseInt (v : Value) : option Z :=
  match v with
  | VNum q => Some (Z.quot (Qnum q) (Zpos (Qden q)))
  | VStr s => parseInt_string s
  | VArr (x :: _) => parseInt x
  | _ => None
  end.

(** Number::toString in positional notation: the integer part, then the
    fractional digits ([fuel] of them at most). This is how JavaScript
    prints the numbers from 1e-6 up to 1e21 that have a short decimal
    expansion; the exponent notation of the others is outside the
    model. *)
Fixpoint frac_digits (fuel : nat) (num den : Z) : string :=
  match fuel with
  | O => EmptyString
  | S k =>
      if num =? 0 then EmptyString
      else pretty ((10 * num) / den) +:+ frac_digits k ((10 * num) mod den) den
  end.

Definition Number_toString (q : Q) : string :=
  let n := Qnum q in
  let d := Zpos (Qden q) in
  let a := Z.abs n in
  let body := pretty (a / d) +:+
              (if a mod d =? 0 then EmptyString else "." +:+ frac_digits 17 (a mod d) d) in
  if n <? 0 then "-" +:+ body else body.

(** ToString, as used by template literals and by property keys. *)
Fixpoint ToString (v : Value) : string :=
  match v with
  | VUndefined => "undefined"
  | VNull => "null"
  | VBool true => "true"
  | VBool false => "false"
  | VNum q => Number_toString q
  | VStr s => s
  | VArr l =>
      (fix join (l : list Value) : string :=
         match l with
         | [] => EmptyString
         | [x] => if nullish x then EmptyString else ToString x
         | x :: rest => (if nullish x then EmptyString else ToString x) +:+ "," +:+ join rest
         end) l
  | VObj _ => "[object Object]"
  end.

(** ** The regular expression [/(\d+)\s*second/i]

    [\d+] and [\s*] are greedy and what follows each cannot start with a
    character of its class, so matching without backtracking is exact. *)

Definition match_seconds_here (s : string) : option Z :=
  let '(n, len, r) := take_digits 0 O s in
  match len with
  | O => None
  | S _ => if startsWith "second" (toLowerCase (skip_spaces r)) then Some n else None
  end.

(** [detail.match(/(\d+)\s*second/i)], then [parseInt] of group 1: the
    leftmost match. *)
Fixpoint match_seconds (s : string) : option Z :=
  match match_seconds_here s with
  | Some n => Some n
  | None =>
      match s with
      | String _ r => match_seconds r
      | EmptyString => None
      end
  end.

(** ** Exceptions, the wire and the world *)

(** What a [throw] carries: the constructor name, the message and, for a
    rejection by axios with an answer from the server, [error.response]
    as its status and decoded body. *)
Record JsError := {
  err_name : string;
  err_message : string;
  err_response : option (Z * Value)
}.

Definition Error (msg : string) : JsError :=
  {| err_name := "Error"; err_message := msg; err_response := None |}.

Definition TypeError (msg : string) : JsError :=
  {| err_name := "TypeError"; err_message := msg; err_response := None |}.

(** The axios request configuration built by [makeRequest]. *)
Record Request := {
  req_method : string;
  req_url : string;
  req_headers : list (string * string);
  req_params : option Value;
  req_data : option Value
}.

Inductive HttpResult :=
| HttpResponse (status : Z) (body : Value)
| NetworkFailure (message : string).

Inductive Event :=
| Sent (at_ms : Z) (r : Request)
| Waited (ms : Z).

Record World := {
  clock : Z;              (* Date.now() *)
  lastRequestTime : Z;    (* this.lastRequestTime *)
  trace : list Event      (* requests sent and timers awaited, oldest first *)
}.

(** The requests put on the wire so far, oldest first. *)
Definition requests_of (w : World) : list Request :=
  omap (λ e, match e with Sent _ r => Some r | Waited _ => None end) (trace w).

Definition sent_count (w : World) : nat := length (requests_of w).

(** The requests put on the wire between the worlds [w] and [w']. *)
Definition sent_since (w w' : World) : list Request :=
  drop (sent_count w) (requests_of w').

Definition ok_status (status : Z) : bool := (200 <=? status) && (status <? 300).

(** What lies outside the class: the upstream API (its answer to the n-th
    request put on the wire, and how long the answer takes), and the parts
    of the JavaScript runtime that depend on the calendar, the time zone
    and the URL standard. *)
Record Runtime := {
  upstream : nat → Request → HttpResult;
  latency : nat → Request → N;
  (** [new Date(t).toISOString()] *)
  Date_toISOString : Z → string;
  (** [d = new Date(t); d.setMonth(d.getMonth() - 1); d.getTime()] *)
  Date_setMonthBack : Z → Z;
  (** [u = new URL(s); u.pathname + u.search], [None] when [new URL] throws *)
  URL_pathname_search : Value → option string
}.

Inductive Completion (A : Type) : Type :=
| Return (a : A)
| Throw (e : JsError).
Arguments Return {A} a.
Arguments Throw {A} e.

(** An [async] method: a function of the world that completes normally or
    abruptly. *)
Definition M (A : Type) : Type := World → Completion A * World.

#[export] Instance M_ret : MRet M := λ A a w, (Return a, w).

#[export] Instance M_bind : MBind M := λ A B f m w,
  match m w with
  | (Return a, w') => f a w'
  | (Throw e, w') => (Throw e, w')
  end.

#[export] Instance M_fmap : FMap M := λ A B f m, a ← m; mret (f a).

Definition throw {A} (e : JsError) : M A := λ w, (Throw e, w).

(** [try { body } catch (error) { handler }] *)
Definition try_catch {A} (body : M A) (handler : JsError → M A) : M A := λ w,
  match body w with
  | (Return a, w') => (Return a, w')
  | (Throw e, w') => handler e w'
  end.

(** [v.k], which throws on [null] and [undefined]. *)
Definition member (v : Value) (k : string) : M Value :=
  if nullish v
  then throw (TypeError ("Cannot read properties of " +:+ ToString v +:+
                         " (reading '" +:+ k +:+ "')"))
  else mret (getProp v k).

(** [Date.now()] *)
Definition Date_now : M Z := λ w, (Return (clock w), w).

(** The class, its constructor and the fields it sets; [lastRequestTime]
    is the mutable one and lives in the world. *)
Record KlaviyoService := {
  privateKey : string;
  baseURL : string;
  minRequestInterval : Z
}.

Definition new_KlaviyoService (key : string) : KlaviyoService :=
  {| privateKey := key;
     baseURL := "https://a.klaviyo.com/api";
     minRequestInterval := 250 |}.

Definition initial_world (t0 : Z) : World :=
  {| clock := t0; lastRequestTime := 0; trace := [] |}.

Section Service.

Variable rt : Runtime.
Variable this : KlaviyoService.

(** [axios(config)]: the request goes out, the answer comes back after its
    latency; a status outside 200..299 rejects with the response attached,
    a network failure rejects without one. *)
Definition axios_rejection (status : Z) (body : Value) : JsError :=
  {| err_name := "AxiosError";
     err_message := "Request failed with status code " +:+ pretty status;
     err_response := Some (status, body) |}.

Definition axios (config : Request) : M Value := λ w,
  let n := sent_count w in
  let w' := {| clock := clock w + Z.of_N (latency rt n config);
               lastRequestTime := lastRequestTime w;
               trace := (trace w ++ [Sent (clock w) config])%list |} in
  match upstream rt n config with
  | HttpResponse status body =>
      if ok_status status then (Return body, w')
      else (Throw (axios_rejection status body), w')
  | NetworkFailure msg =>
      (Throw {| err_name := "AxiosError"; err_message := msg; err_response := None |}, w')
  end.


(** [wait(ms)]: the timer fires after [ms] milliseconds, for a delay in
    [timer_range]. *)
Definition wait (ms : Z) : M unit := λ w,
  (Return tt, {| clock := clock w + Z.max 0 ms;
                 lastRequestTime := lastRequestTime w;
                 trace := (trace w ++ [Waited ms])%list |}).

Definition set_lastRequestTime (t : Z) : M unit := λ w,
  (Return tt, {| clock := clock w; lastRequestTime := t; trace := trace w |}).

Definition get_lastRequestTime : M Z := λ w, (Return (lastRequestTime w), w).

(** [rateLimit()], in the two segments that its [await] separates: the
    check, which reads the clock and [lastRequestTime] and decides how long
    to sleep, and the admission, which stamps [lastRequestTime]. *)
Definition rateLimit_check : M (option Z) :=
  now ← Date_now;
  last ← get_lastRequestTime;
  let timeSinceLastRequest := now - last in
  if timeSinceLastRequest <? minRequestInterval this
  then mret (Some (minRequestInterval this - timeSinceLastRequest))
  else mret None.

Definition rateLimit_admit : M unit :=
  now ← Date_now;
  set_lastRequestTime now.

Definition rateLimit : M unit :=
  waitTime ← rateLimit_check;
  _ ← (match waitTime with
       | Some ms => wait ms
       | None => mret tt
       end);
  rateLimit_admit.

Definition maxRetries : nat := 3.

Definition request_headers : list (string * string) :=
  [("Authorization", "Klaviyo-API-Key " +:+ privateKey this);
   ("Accept", "application/json");
   ("Content-Type", "application/json");
   ("revision", "2024-10-15")].

(** The [config] object of [makeRequest]: [params] for GET, [data] for the
    other methods when it is truthy. *)
Definition request_config (endpoint method : string) (data params : Value) : Request :=
  {| req_method := method;
     req_url := baseURL this +:+ endpoint;
     req_headers := request_headers;
     req_params := if String.eqb method "GET" then Some params else None;
     req_data := if String.eqb method "GET" then None
                 else if truthy data then Some data else None |}.

Definition response_status (error : JsError) : option Z := fst <$> err_response error.

(** [error.response?.data] *)
Definition response_data (error : JsError) : Value :=
  match err_response error with Some (_, d) => d | None => VUndefined end.

Definition is_throttled (error : JsError) : bool :=
  match response_status error with Some st => st =? 429 | None => false end.

(** [retryAfter ? parseInt(retryAfter[1]) * 1000 : 1000], where [retryAfter]
    is [error.response?.data?.errors?.[0]?.detail?.match(...)]; calling
    [match] on a detail that is no string throws. *)
Definition retry_detail (data : Value) : Value :=
  opt (opt0 (opt data "errors")) "detail".

Definition retry_wait_time (error : JsError) : M Z :=
  match retry_detail (response_data error) with
  | VUndefined | VNull => mret 1000
  | VStr detail =>
      mret (match match_seconds detail with Some n => n * 1000 | None => 1000 end)
  | _ => throw (TypeError "error.response?.data?.errors?.[0]?.detail?.match is not a function")
  end.

(** The message put in the [Error] that [makeRequest] throws. *)
Definition extract_error_message (error : JsError) : M Value :=
  let data := response_data error in
  let errors := opt data "errors" in
  if truthy errors && isArray errors then
    first ← member (opt0 errors) "detail";
    mret (js_or first (getProp (opt0 errors) "title"))
  else if truthy (opt data "message") then mret (opt data "message")
  else mret (VStr (err_message error)).

(** The [try] block of [makeRequest]. *)
Definition attempt (config : Request) : M Value :=
  _ ← rateLimit;
  axios config.

(** [makeRequest], by recursion on the retries that are left:
    [retryCount < maxRetries] is [0 < maxRetries - retryCount]. *)
Fixpoint makeRequest_retrying (left : nat) (endpoint method : string)
    (data params : Value) : M Value :=
  try_catch
    (attempt (request_config endpoint method data params))
    (λ error,
       match left with
       | S left' =>
           if is_throttled error then
             waitTime ← retry_wait_time error;
             _ ← wait waitTime;
             makeRequest_retrying left' endpoint method data params
           else
             errorMessage ← extract_error_message error;
             throw (Error ("Klaviyo API Error: " +:+ ToString errorMessage))
       | O =>
           errorMessage ← extract_error_message error;
           throw (Error ("Klaviyo API Error: " +:+ ToString errorMessage))
       end).

Definition makeRequest (endpoint method : string) (data params : Value)
    (retryCount : nat) : M Value :=
  makeRequest_retrying (maxRetries - retryCount) endpoint method data params.

(** *** Helpers shared by the methods *)

(** [try { return await body } catch (error) { return dflt }] *)
Definition or_default {A} (body : M A) (dflt : A) : M A :=
  try_catch body (λ _, mret dflt).

Definition empty_list_envelope : Value := VObj [("data", VArr [])].

(** [for (const x of l) { s = f(s, x) }] *)
Fixpoint forEachM {A S} (f : S → A → M S) (l : list A) (s : S) : M S :=
  match l with
  | [] => mret s
  | x :: rest => s' ← f s x; forEachM f rest s'
  end.

(** [arr.find(pred)] on the elements of an array. *)
Fixpoint findM (pred : Value → M bool) (l : list Value) : M Value :=
  match l with
  | [] => mret VUndefined
  | x :: rest => pred x ≫= λ b : bool, if b then mret x else findM pred rest
  end.

(** [v.find(pred)]: only arrays have the method. *)
Definition js_find (v : Value) (pred : Value → M bool) : M Value :=
  match v with
  | VArr l => findM pred l
  | _ => throw (TypeError "find is not a function")
  end.

Fixpoint chars (s : string) : list Value :=
  match s with
  | EmptyString => []
  | String c r => VStr (String c EmptyString) :: chars r
  end.

(** [...v] in an array literal: arrays and strings are iterable. *)
Definition spread (v : Value) : M (list Value) :=
  match v with
  | VArr l => mret l
  | VStr s => mret (chars s)
  | _ => throw (TypeError "is not iterable")
  end.

(** The own enumerable properties that [...v] copies into an object
    literal: those of an object, the indexed elements of an array or
    characters of a string, none for the other values. (The order in which
    an object lists integer-like keys is not modelled.) *)
Fixpoint indexed (i : nat) (l : list Value) : list (string * Value) :=
  match l with
  | [] => []
  | x :: rest => (pretty i, x) :: indexed (S i) rest
  end.

Definition own_properties (v : Value) : list (string * Value) :=
  match v with
  | VObj fs => fs
  | VArr l => indexed 0 l
  | VStr s => indexed 0 (chars s)
  | _ => []
  end.

Definition has_key (k : string) (fs : list (string * Value)) : bool :=
  existsb (λ kv, String.eqb k (fst kv)) fs.

(** [{ ...fields, ...v }]: a property that the literal already has is
    overwritten where it stands, the others are added after it in the
    order of [v]. *)
Definition spread_into (fields : list (string * Value)) (v : Value)
    : list (string * Value) :=
  let ps := own_properties v in
  ((λ kv, (fst kv, if has_key (fst kv) ps then assoc (fst kv) ps else snd kv)) <$> fields)
  ++ filter (λ kv, has_key (fst kv) fields = false) ps.

(** A parameter declared as [params = {}]. *)
Definition or_empty (params : Value) : Value :=
  match params with VUndefined => VObj [] | p => p end.

(** [x === 0] *)
Definition is_zero (v : Value) : bool :=
  match v with VNum q => Qeq_bool q 0 | _ => false end.

(** [m?.attributes?.name || m?.name || ''] in lower case, when it is a
    string. *)
Definition metric_name (m : Value) : option string :=
  match js_or (js_or (opt (opt m "attributes") "name") (opt m "name"))
          (VStr EmptyString) with
  | VStr name => Some (toLowerCase name)
  | _ => None
  end.

(** [name.toLowerCase()], which only strings have. *)
Definition metric_name_lower (m : Value) : M string :=
  match metric_name m with
  | Some name => mret name
  | None => throw (TypeError "name.toLowerCase is not a function")
  end.

(** *** The simple fetches *)

Definition account_placeholder : Value :=
  VObj [("name", VStr "Klaviyo Account"); ("contact_email", VStr "N/A")].

Definition getAccount : M Value :=
  or_default (makeRequest "/accounts/" "GET" VNull (VObj []) 0) account_placeholder.

Definition getMetrics : M Value :=
  or_default (makeRequest "/metrics/" "GET" VNull (VObj []) 0) empty_list_envelope.

Definition getMetricById (metricId : Value) (params : Value) : M Value :=
  or_default (makeRequest ("/metrics/" +:+ ToString metricId +:+ "/") "GET" VNull params 0)
             VNull.

Definition getMetricStatistics (metricId : Value) (params : Value) : M Value :=
  or_default (makeRequest ("/metrics/" +:+ ToString metricId +:+ "/") "GET" VNull params 0)
             VNull.

(** [metrics.slice(0, 20)] followed by [for ... of]: the first twenty
    elements of an array or characters of a string. *)
Definition slice20 (metrics : Value) : M (list Value) :=
  match metrics with
  | VArr l => mret (take 20 l)
  | VStr s => mret (take 20 (chars s))
  | _ => throw (TypeError "metrics.slice is not a function")
  end.

(** [getAllMetricsWithDetails]. The [catch] inside the loop reads
    [metric.id] again for its log line: for an entry that is [null] it
    throws as the [try] did, out of the loop and into the outer [catch]. *)
Definition getAllMetricsWithDetails : M Value :=
  or_default
    (metricsResponse ← getMetrics;
     let metrics := js_or (opt metricsResponse "data") (VArr []) in
     if is_zero (getProp metrics "length")
     then mret (VObj [("metrics", VArr []); ("details", VArr [])])
     else
       metricsToFetch ← slice20 metrics;
       details ← forEachM
         (λ (details : list Value) (metric : Value),
            try_catch
              (id ← member metric "id";
               detail ← getMetricById id (VObj []);
               let details' := if truthy detail then (details ++ [detail])%list else details in
               _ ← wait 250;
               mret details')
              (λ _, _ ← member metric "id"; mret details))
         metricsToFetch [];
       mret (VObj [("metrics", metrics); ("details", VArr details);
                   ("total", getProp metrics "length")]))
    (VObj [("metrics", VArr []); ("details", VArr []); ("total", VInt 0)]).

Definition getCampaigns : M Value :=
  or_default
    (emailData ← or_default
       (makeRequest "/campaigns/" "GET" VNull
          (VObj [("filter", VStr "equals(messages.channel,'email')")]) 0)
       empty_list_envelope;
     smsData ← or_default
       (makeRequest "/campaigns/" "GET" VNull
          (VObj [("filter", VStr "equals(messages.channel,'sms')")]) 0)
       empty_list_envelope;
     emailList ← member emailData "data";
     emails ← spread (js_or emailList (VArr []));
     smsList ← member smsData "data";
     smss ← spread (js_or smsList (VArr []));
     mret (VObj [("data", VArr (emails ++ smss)%list)]))
    empty_list_envelope.

(** *** Query Metric Aggregates *)

(** The [options] of [queryMetricAggregates], at the types its callers
    pass; [default_options] holds the destructuring defaults. *)
Record AggregateOptions := {
  measurements : list string;
  filters : list string;
  interval : option string;
  timezone : Value;
  by_ : option (list string)   (* [by]; the name is reserved here *)
}.

Definition default_options : AggregateOptions :=
  {| measurements := ["count"]; filters := []; interval := None;
     timezone := VStr "UTC"; by_ := None |}.

Record AggregateResult := {
  total : Q;
  grouped : gmap string Q
}.

Definition zero_result : AggregateResult := {| total := 0; grouped := ∅ |}.

Definition strings (l : list string) : Value := VArr (VStr <$> l).

(** The request body: [filter], [interval] and [by] are added only when
    they are non-empty. *)
Definition aggregate_request_body (metricId : Value) (o : AggregateOptions) : Value :=
  VObj [("data", VObj [
    ("type", VStr "metric-aggregate");
    ("attributes", VObj (
       [("measurements", strings (measurements o));
        ("metric_id", metricId);
        ("timezone", timezone o)]
       ++ (match filters o with [] => [] | fs => [("filter", strings fs)] end)
       ++ (match interval o with
           | Some i => if truthy (VStr i) then [("interval", VStr i)] else []
           | None => []
           end)
       ++ (match by_ o with
           | Some (d :: ds) => [("by", strings (d :: ds))]
           | _ => []
           end))%list)])].

(** The first populated measurement, in the order unique, count,
    sum_value. *)
Definition measurementKey (ms : Value) : option string :=
  if truthy (opt ms "unique") then Some "unique"
  else if truthy (opt ms "count") then Some "count"
  else if truthy (opt ms "sum_value") then Some "sum_value"
  else None.

(** [measurements[measurementKey]]: a [null] key reads the property named
    "null"; reading from [null] or [undefined] throws. *)
Definition measurement_at (ms : Value) (key : option string) : M Value :=
  member ms (match key with Some k => k | None => "null" end).

(** [arr.reduce((acc, val) => acc + (isNaN(parseFloat(val)) ? 0 : parseFloat(val)), 0)],
    in exact arithmetic: what the code computes when no addition rounds
    (see [whole_numbers]). *)
Definition sum_parsed (l : list Value) : Q :=
  fold_left (λ acc val, (acc + nan_to_zero (parseFloat val))%Q) l 0%Q.

(** The scalar of one result group. *)
Definition group_value (ms : Value) : Q :=
  match measurementKey ms with
  | Some k =>
      match getProp ms k with
      | VArr l => sum_parsed l
      | v => nan_to_zero (parseFloat v)
      end
  | None => 0%Q
  end.

(** [dimension?.$attributed_message || dimension?.$message ||
    dimension?.$flow || dimension?.$campaign || 'unknown'], as a key. *)
Definition dimensionValue (dimension : Value) : string :=
  ToString
    (js_or (opt dimension "$attributed_message")
       (js_or (opt dimension "$message")
          (js_or (opt dimension "$flow")
             (js_or (opt dimension "$campaign") (VStr "unknown"))))).

(** [groupedData[k] = (groupedData[k] || 0) + x], for a key [k] that the
    object literal [{}] does not inherit (see [inherited_name]): an absent
    key reads as [undefined]. *)
Definition add_grouped (k : string) (x : Q) (g : gmap string Q) : gmap string Q :=
  <[k := (default 0%Q (g !! k) + x)%Q]> g.

(** The body of the [forEach] over the result groups. *)
Definition aggregate_group (by_given : bool) (acc : AggregateResult) (group : Value)
    : M AggregateResult :=
  let ms := opt group "measurements" in
  let key := measurementKey ms in
  let value := group_value ms in
  let total' := (total acc + value)%Q in
  match by_given, opt group "dimensions" with
  | true, VArr (dimension :: _) =>
      m ← measurement_at ms key;
      let groupTotal := match m with VArr l => sum_parsed l | _ => value end in
      mret {| total := total';
              grouped := add_grouped (dimensionValue dimension) groupTotal (grouped acc) |}
  | _, _ => mret {| total := total'; grouped := grouped acc |}
  end.

(** [response.data.attributes.data.forEach(...)] when that list is truthy. *)
Definition aggregate_response (by_given : bool) (response : Value) : M AggregateResult :=
  let groups := opt (opt (opt response "data") "attributes") "data" in
  if truthy groups then
    match groups with
    | VArr l => forEachM (aggregate_group by_given) l zero_result
    | _ => throw (TypeError "response.data.attributes.data.forEach is not a function")
    end
  else mret zero_result.

Definition queryMetricAggregates (metricId : Value) (options : AggregateOptions)
    : M AggregateResult :=
  or_default
    (response ← makeRequest "/metric-aggregates/" "POST"
                  (aggregate_request_body metricId options) (VObj []) 0;
     aggregate_response (bool_decide (is_Some (by_ options))) response)
    zero_result.

Definition getLists : M Value :=
  or_default (makeRequest "/lists/" "GET" VNull (VObj []) 0) empty_list_envelope.

Definition getFlows : M Value :=
  or_default (makeRequest "/flows/" "GET" VNull (VObj []) 0) empty_list_envelope.

(** The second definition of the name [getCampaignMetrics] in the class
    body (the one taking [campaignId]). *)
Definition getCampaignMetrics_campaignId (campaignId : Value) : M Value :=
  or_default
    (makeRequest ("/campaigns/" +:+ ToString campaignId +:+ "/campaign-messages/")
       "GET" VNull (VObj []) 0)
    VNull.

(** *** Resolving metric names

    The closures [findMetricId] and [findExactMetricId], which
    [getCampaignMetrics], [getFlowMetrics] and [getDashboardMetrics] each
    declare with the same body. *)

(** The callbacks passed to [find]: the lower-cased name of the entry is
    tested. *)
Definition name_test (p : string → bool) (m : Value) : M bool :=
  name ← metric_name_lower m;
  mret (p name).

(** [name.toLowerCase().includes(searchName.toLowerCase())] *)
Definition contains (searchName : string) (name : string) : bool :=
  includes (toLowerCase searchName) name.

(** [name.toLowerCase() === exactName.toLowerCase()] *)
Definition equals (exactName : string) (name : string) : bool :=
  String.eqb name (toLowerCase exactName).

Definition findMetricId (allMetrics : Value) (searchName : string) : M Value :=
  metric ← js_find allMetrics (name_test (contains searchName));
  mret (js_or (opt metric "id") VNull).

Definition findExactMetricId (allMetrics : Value) (exactName : string) : M Value :=
  metric ← js_find allMetrics (name_test (equals exactName));
  mret (js_or (opt metric "id") VNull).

Definition findMetricIdByName (metricName : string) : M Value :=
  or_default
    (metricsResponse ← getMetrics;
     let metrics := js_or (opt metricsResponse "data") (VArr []) in
     metric ← js_find metrics (name_test (equals metricName));
     if truthy metric then mret (getProp metric "id") else mret VNull)
    VNull.

(** *** Campaign and flow metrics *)

(** [id ? this.queryMetricAggregates(id, o).catch(() => zero) : Promise.resolve(zero)] *)
Definition query_or_zero (id : Value) (o : AggregateOptions) : M AggregateResult :=
  if truthy id then or_default (queryMetricAggregates id o) zero_result
  else mret zero_result.

(** [a > 0 ? (b / a) * 100 : 0] *)
Definition rate (b a : Q) : Q :=
  if Qle_bool a 0 then 0%Q else ((b / a) * 100)%Q.

Record CampaignMetrics := {
  cm_opens : Q;
  cm_clicks : Q;
  cm_delivered : Q;
  cm_bounces : Q;
  cm_revenue : Q;
  cm_clickThroughRate : Q;
  cm_grouped : gmap string (gmap string Q)
}.

Definition zero_campaign_metrics : CampaignMetrics :=
  {| cm_opens := 0; cm_clicks := 0; cm_delivered := 0; cm_bounces := 0;
     cm_revenue := 0; cm_clickThroughRate := 0; cm_grouped := ∅ |}.

(** A destructuring default: [{ k = dflt } = options]. *)
Definition field_or (options : Value) (k : string) (dflt : Value) : Value :=
  match getProp options k with VUndefined => dflt | v => v end.

Definition date_range_filters (startDate endDate : Value) : list string :=
  if truthy startDate && truthy endDate
  then ["greater-or-equal(datetime," +:+ ToString startDate +:+ ")";
        "less-than(datetime," +:+ ToString endDate +:+ ")"]
  else [].

Definition by_attributed_message (ms : list string) (fs : list string) (tz : Value)
    : AggregateOptions :=
  {| measurements := ms; filters := fs; interval := None; timezone := tz;
     by_ := Some ["$attributed_message"] |}.

(** The first definition of the name [getCampaignMetrics] in the class
    body (the one taking [options]). *)
Definition getCampaignMetrics_options (options : Value) : M CampaignMetrics :=
  or_default
    (let options := match options with VUndefined => VObj [] | o => o end in
     _ ← member options "startDate";
     let startDate := field_or options "startDate" VNull in
     let endDate := field_or options "endDate" VNull in
     let timezone := field_or options "timezone" (VStr "UTC") in
     let baseFilters := date_range_filters startDate endDate in
     allMetricsResponse ← getMetrics;
     let allMetrics := js_or (opt allMetricsResponse "data") (VArr []) in
     openedEmailId ← findMetricId allMetrics "opened email";
     clickedEmailId ← findMetricId allMetrics "clicked email";
     receivedEmailId ← findMetricId allMetrics "received email";
     bounced ← findMetricId allMetrics "bounced";
     bouncedEmailId ← (if truthy bounced then mret bounced
                       else findMetricId allMetrics "bounce");
     placedOrderId ← findMetricId allMetrics "placed order";
     opensData ← query_or_zero openedEmailId
                   (by_attributed_message ["unique"] baseFilters timezone);
     clicksData ← query_or_zero clickedEmailId
                    (by_attributed_message ["unique"] baseFilters timezone);
     deliveredData ← query_or_zero receivedEmailId
                       (by_attributed_message ["count"] baseFilters timezone);
     bouncesData ← query_or_zero bouncedEmailId
                     (by_attributed_message ["count"] baseFilters timezone);
     revenueData ← query_or_zero placedOrderId
                     (by_attributed_message ["sum_value"] baseFilters timezone);
     mret {| cm_opens := total opensData;
             cm_clicks := total clicksData;
             cm_delivered := total deliveredData;
             cm_bounces := total bouncesData;
             cm_revenue := total revenueData;
             cm_clickThroughRate := rate (total clicksData) (total opensData);
             cm_grouped := {[ "opens" := grouped opensData;
                              "clicks" := grouped clicksData;
                              "delivered" := grouped deliveredData;
                              "bounces" := grouped bouncesData;
                              "revenue" := grouped revenueData ]} |})
    zero_campaign_metrics.

Record FlowMetrics := {
  fm_sends : Q;
  fm_conversions : Q;
  fm_conversionRate : Q;
  fm_revenue : Q;
  fm_grouped : gmap string (gmap string Q)
}.

Definition zero_flow_metrics : FlowMetrics :=
  {| fm_sends := 0; fm_conversions := 0; fm_conversionRate := 0;
     fm_revenue := 0; fm_grouped := ∅ |}.

(** [getFlowMetrics]: its [baseFilters] are empty by construction ("No
    date range restrictions for flow metrics"). *)
Definition getFlowMetrics (options : Value) : M FlowMetrics :=
  or_default
    (let options := match options with VUndefined => VObj [] | o => o end in
     _ ← member options "timezone";
     let timezone := field_or options "timezone" (VStr "UTC") in
     let baseFilters : list string := [] in
     allMetricsResponse ← getMetrics;
     let allMetrics := js_or (opt allMetricsResponse "data") (VArr []) in
     receivedEmailId ← findMetricId allMetrics "received email";
     placedOrderId ← findMetricId allMetrics "placed order";
     sendsData ← query_or_zero receivedEmailId
                   (by_attributed_message ["count"] baseFilters timezone);
     conversionsData ← query_or_zero placedOrderId
                         (by_attributed_message ["count"] baseFilters timezone);
     revenueData ← query_or_zero placedOrderId
                     (by_attributed_message ["sum_value"] baseFilters timezone);
     mret {| fm_sends := total sendsData;
             fm_conversions := total conversionsData;
             fm_conversionRate := rate (total conversionsData) (total sendsData);
             fm_revenue := total revenueData;
             fm_grouped := {[ "sends" := grouped sendsData;
                              "conversions" := grouped conversionsData;
                              "revenue" := grouped revenueData ]} |})
    zero_flow_metrics.

(** *** Pagination *)

(** [allEvents.concat(x)]: an array is appended element by element,
    anything else as one element. *)
Definition concat_value (allEvents : list Value) (x : Value) : list Value :=
  match x with
  | VArr l => (allEvents ++ l)%list
  | v => (allEvents ++ [v])%list
  end.

(** The path requested for a cursor: [pathname + search] of the URL, with
    a leading [/api] removed when the path starts with [/api/]. *)
Definition strip_api (path : string) : string :=
  if startsWith "/api/" path then substring_from 4 path else path.

Definition cursor_path (url : Value) : M string :=
  match URL_pathname_search rt url with
  | Some path => mret (strip_api path)
  | None => throw (TypeError "Invalid URL")
  end.

Definition events_filter (metricId : Value) : string :=
  "equals(metric_id," +:+ dquote +:+ ToString metricId +:+ dquote +:+ ")".

(** The [while (firstRequest || url)] loop; [fuel] bounds the number of
    iterations, and [None] is returned when it does not suffice. *)
Fixpoint events_loop (fuel : nat) (metricId : Value) (firstRequest : bool)
    (url : Value) (allEvents : list Value) : M (option (list Value)) :=
  if firstRequest || truthy url then
    match fuel with
    | O => mret None
    | S fuel' =>
        response ←
          (if firstRequest then
             makeRequest "/events/" "GET" VNull
               (VObj [("filter", VStr (events_filter metricId));
                      ("page[size]", VInt 100)]) 0
           else
             path ← cursor_path url;
             makeRequest path "GET" VNull (VObj []) 0);
        let allEvents' :=
          if truthy (opt response "data")
          then concat_value allEvents (opt response "data")
          else allEvents in
        events_loop fuel' metricId false
          (js_or (opt (opt response "links") "next") VNull) allEvents'
    end
  else mret (Some allEvents).

Definition getAllEventsByMetricId (fuel : nat) (metricId : Value)
    : M (option Value) :=
  or_default
    (r ← events_loop fuel metricId true VNull [];
     mret ((λ allEvents, VObj [("data", VArr allEvents)]) <$> r))
    (Some empty_list_envelope).

(** *** Revenue *)

Record RevenueOptions := {
  startDate : option string;
  endDate : option string;
  rev_interval : option string;
  rev_timezone : Value;
  attributedMessage : option string
}.

Definition default_revenue_options : RevenueOptions :=
  {| startDate := None; endDate := None; rev_interval := None;
     rev_timezone := VStr "UTC"; attributedMessage := None |}.

Record RevenueResult := {
  totalRevenue : Q;
  eventCount : Z;
  eventsWithRevenue : option Z;
  method : string
}.

(** [s || dflt] for an optional string. *)
Definition string_or (s : option string) (dflt : string) : string :=
  match s with
  | Some x => if String.eqb x EmptyString then dflt else x
  | None => dflt
  end.

Definition nonempty (s : option string) : option string :=
  match s with
  | Some x => if String.eqb x EmptyString then None else Some x
  | None => None
  end.

(** The [filters] array of [calculateRevenueByMetricId]: the two date
    filters are pushed unconditionally, with the last month as default. *)
Definition revenue_filters (now : Z) (o : RevenueOptions) : list string :=
  let defaultStartDate :=
    string_or (startDate o) (Date_toISOString rt (Date_setMonthBack rt now)) in
  let defaultEndDate := string_or (endDate o) (Date_toISOString rt now) in
  ["greater-or-equal(datetime," +:+ defaultStartDate +:+ ")";
   "less-than(datetime," +:+ defaultEndDate +:+ ")"]
  ++ match nonempty (attributedMessage o) with
     | Some am => ["equals($attributed_message," +:+ dquote +:+ am +:+ dquote +:+ ")"]
     | None => []
     end.

Definition revenue_request_body (metricId : Value) (now : Z) (o : RevenueOptions)
    : Value :=
  VObj [("data", VObj [
    ("type", VStr "metric-aggregate");
    ("attributes", VObj (
       [("measurements", strings ["sum_value"]);
        ("metric_id", metricId);
        ("filter", strings (revenue_filters now o));
        ("timezone", rev_timezone o)]
       ++ match nonempty (rev_interval o) with
          | Some i => [("interval", VStr i)]
          | None => []
          end)%list)])].

Definition sum_parsed_int (l : list Value) : Z :=
  fold_left (λ acc val, acc + default 0 (parseInt val)) l 0.

(** The body of the [forEach] of [calculateRevenueByMetricId]. *)
Definition revenue_group (acc : Q * Z) (group : Value) : Q * Z :=
  let ms := opt group "measurements" in
  let revenue :=
    if truthy (opt ms "sum_value") then
      match getProp ms "sum_value" with
      | VArr l => sum_parsed l
      | v => nan_to_zero (parseFloat v)
      end
    else 0%Q in
  let count :=
    if truthy (opt ms "count") then
      match getProp ms "count" with
      | VArr l => sum_parsed_int l
      | v => default 0 (parseInt v)
      end
    else 0 in
  ((fst acc + revenue)%Q, snd acc + count).

(** [calculateRevenueFromEvents]: the fallback over the first [limit]
    events. *)
Definition calculateRevenueFromEvents (metricId : Value) (limit : Z) : M RevenueResult :=
  or_default
    (eventsResponse ← makeRequest "/events/" "GET" VNull
                        (VObj [("filter", VStr (events_filter metricId));
                               ("page[size]", VInt limit)]) 0;
     match js_or (opt eventsResponse "data") (VArr []) with
     | VArr events =>
         let step (acc : Q * Z) (event : Value) : Q * Z :=
           let props := opt (opt event "attributes") "properties" in
           if truthy (opt props "$value")
           then ((fst acc + nan_to_zero (parseFloat (getProp props "$value")))%Q,
                 snd acc + 1)
           else acc in
         let '(revenue, withRevenue) := fold_left step events (0%Q, 0) in
         mret {| totalRevenue := revenue;
                 eventCount := Z.of_nat (length events);
                 eventsWithRevenue := Some withRevenue;
                 method := "events" |}
     | _ => throw (TypeError "events.forEach is not a function")
     end)
    {| totalRevenue := 0; eventCount := 0; eventsWithRevenue := Some 0;
       method := "events" |}.

Definition calculateRevenueByMetricId (metricId : Value) (options : RevenueOptions)
    : M RevenueResult :=
  try_catch
    (now ← Date_now;
     response ← makeRequest "/metric-aggregates/" "POST"
                  (revenue_request_body metricId now options) (VObj []) 0;
     let groups := opt (opt (opt response "data") "attributes") "data" in
     if truthy groups then
       match groups with
       | VArr l =>
           let '(revenue, count) := fold_left revenue_group l (0%Q, 0) in
           mret {| totalRevenue := revenue; eventCount := count;
                   eventsWithRevenue := None; method := "metric-aggregates" |}
       | _ => throw (TypeError "aggregateData.forEach is not a function")
       end
     else
       mret {| totalRevenue := 0; eventCount := 0;
               eventsWithRevenue := None; method := "metric-aggregates" |})
    (λ _, calculateRevenueFromEvents metricId 100).

(** *** The dashboard *)

Record EventMetrics := {
  placedOrder : Q;
  viewedProduct : Q;
  addedToCart : Q;
  activeOnSite : Q
}.

Definition zero_event_metrics : EventMetrics :=
  {| placedOrder := 0; viewedProduct := 0; addedToCart := 0; activeOnSite := 0 |}.

Record RevenueMetrics := {
  rm_totalRevenue : Q;
  revenueByEmail : Q;
  revenueOverTime : list Value
}.

Record Snapshot := {
  account : Value;
  metrics : Value;
  metricsWithDetails : Value;
  campaigns : Value;
  lists : Value;
  flows : Value;
  campaignCount : Value;
  flowCount : Value;
  eventMetrics : EventMetrics;
  revenueMetrics : RevenueMetrics;
  timestamp : string
}.

(** [p.catch(e => ({ error: e.message }))] *)
Definition catch_error (p : M Value) : M Value :=
  try_catch p (λ e, mret (VObj [("error", VStr (err_message e))])).

(** [r.status === 'fulfilled' && !r.value.error ? r.value : null], for a
    promise that [catch_error] has made always fulfil. *)
Definition unless_error (value : Value) : M Value :=
  e ← member value "error";
  mret (if truthy e then VNull else value).

(** [x?.data?.length || 0] *)
Definition data_length (x : Value) : Value :=
  js_or (opt (opt x "data") "length") (VInt 0).

Definition last_month_filters (now : Z) : list string :=
  ["greater-or-equal(datetime," +:+ Date_toISOString rt (Date_setMonthBack rt now) +:+ ")";
   "less-than(datetime," +:+ Date_toISOString rt now +:+ ")"].

(** The closure [getEventCountByMetricId], guarded as at its four call
    sites ([id ? getEventCountByMetricId(id) : Promise.resolve(0)]). *)
Definition getEventCountByMetricId (dateFilters : list string) (metricId : Value) : M Q :=
  if truthy metricId then
    or_default
      (result ← queryMetricAggregates metricId
                  {| measurements := ["count"]; filters := dateFilters;
                     interval := None; timezone := VStr "UTC"; by_ := None |};
       mret (total result))
      0%Q
  else mret 0%Q.

(** The first [try] block of [getDashboardMetrics]: it assigns
    [placedOrderId] (declared outside the block) and fills [eventMetrics].
    When it throws before the assignment both keep their initial values;
    when it throws after it, [eventMetrics] does. The four count queries,
    which the code starts together, run here one after the other. *)
Definition event_metrics_block : M (Value * EventMetrics) :=
  try_catch
    (allMetricsResponse ← getMetrics;
     let allMetrics := js_or (opt allMetricsResponse "data") (VArr []) in
     exact ← findExactMetricId allMetrics "Placed Order";
     placedOrderId ← (if truthy exact then mret exact
                      else findMetricId allMetrics "placed order");
     or_default
       (viewedProductId ← findMetricId allMetrics "viewed product";
        addedToCartId ← findMetricId allMetrics "added to cart";
        activeOnSiteId ← findMetricId allMetrics "active on site";
        now ← Date_now;
        let dateFilters := last_month_filters now in
        placedOrderCount ← getEventCountByMetricId dateFilters placedOrderId;
        viewedProductCount ← getEventCountByMetricId dateFilters viewedProductId;
        addedToCartCount ← getEventCountByMetricId dateFilters addedToCartId;
        activeOnSiteCount ← getEventCountByMetricId dateFilters activeOnSiteId;
        mret (placedOrderId,
              {| placedOrder := placedOrderCount;
                 viewedProduct := viewedProductCount;
                 addedToCart := addedToCartCount;
                 activeOnSite := activeOnSiteCount |}))
       (placedOrderId, zero_event_metrics))
    (λ _, mret (VNull, zero_event_metrics)).

(** The second [try] block: the metric details, then the revenue of the
    last month when [placedOrderId] was found. [metricsWithDetails] is
    assigned before the revenue is computed. *)
Definition revenue_block (placedOrderId : Value) : M (Value * Q) :=
  try_catch
    (metricsWithDetails ← getAllMetricsWithDetails;
     if truthy placedOrderId then
       or_default
         (revenueData ← calculateRevenueByMetricId placedOrderId
                          default_revenue_options;
          mret (metricsWithDetails, totalRevenue revenueData))
         (metricsWithDetails, 0%Q)
     else mret (metricsWithDetails, 0%Q))
    (λ _, mret (VNull, 0%Q)).

(** [getDashboardMetrics]. The five fetches that the code hands to
    [Promise.allSettled] run here one after the other, in array order: the
    values they settle to are those of the code whenever the answers of
    the upstream do not depend on the order of the requests; the times and
    the order of the requests are not those of the code. *)
Definition getDashboardMetrics : M Snapshot :=
  account ← catch_error getAccount;
  metrics ← catch_error getMetrics;
  campaigns ← catch_error getCampaigns;
  lists ← catch_error getLists;
  flows ← catch_error getFlows;
  campaignsData ← unless_error campaigns;
  flowsData ← unless_error flows;
  let campaignCount := data_length campaignsData in
  let flowCount := data_length flowsData in
  '(placedOrderId, eventMetrics) ← event_metrics_block;
  metricsData ← unless_error metrics;
  '(metricsWithDetails, revenue) ← revenue_block placedOrderId;
  accountData ← unless_error account;
  listsData ← unless_error lists;
  now ← Date_now;
  mret {| account := accountData;
          metrics := metricsData;
          metricsWithDetails := metricsWithDetails;
          campaigns := campaignsData;
          lists := listsData;
          flows := flowsData;
          campaignCount := campaignCount;
          flowCount := flowCount;
          eventMetrics := eventMetrics;
          revenueMetrics := {| rm_totalRevenue := revenue;
                               revenueByEmail := revenue;
                               revenueOverTime := [] |};
          timestamp := Date_toISOString rt now |}.

(** *** The remaining fetches *)

(** [getProfiles] and [getEvents] catch only to throw again. *)
Definition getProfiles (params : Value) : M Value :=
  try_catch
    (makeRequest "/profiles/" "GET" VNull
       (VObj (spread_into [("page[size]", VInt 1)] (or_empty params))) 0)
    (λ error, throw error).

Definition getEvents (params : Value) : M Value :=
  try_catch (makeRequest "/events/" "GET" VNull (or_empty params) 0)
            (λ error, throw error).

Definition getMetricData (metricId : Value) (params : Value) : M Value :=
  getMetricById metricId (or_empty params).

Definition getEventsByMetricId (metricId : Value) (params : Value) : M Value :=
  or_default
    (let filter := events_filter metricId in
     let requestParams := VObj (spread_into [("filter", VStr filter)] (or_empty params)) in
     makeRequest "/events/" "GET" VNull requestParams 0)
    empty_list_envelope.


End Service.

(** ** The class body and its method table

    One constructor per method definition of the class, in source order;
    the name [getCampaignMetrics] is defined twice. *)

Inductive MethodDef :=
| def_wait | def_rateLimit | def_makeRequest | def_getAccount | def_getMetrics
| def_getMetricById | def_getMetricStatistics | def_getAllMetricsWithDetails
| def_getCampaigns | def_getCampaignMetrics_options | def_getFlowMetrics
| def_queryMetricAggregates | def_getLists | def_getProfiles | def_getEvents
| def_getCampaignMetrics_campaignId | def_getFlows | def_getMetricData
| def_getEventsByMetricId | def_getAllEventsByMetricId
| def_calculateRevenueByMetricId | def_calculateRevenueFromEvents
| def_findMetricIdByName | def_getEventsByMetricName | def_getDashboardMetrics.

#[export] Instance MethodDef_eq_dec : EqDecision MethodDef.
Proof. solve_decision. Defined.

Definition class_body : list (string * MethodDef) :=
  [("wait", def_wait); ("rateLimit", def_rateLimit); ("makeRequest", def_makeRequest);
   ("getAccount", def_getAccount); ("getMetrics", def_getMetrics);
   ("getMetricById", def_getMetricById);
   ("getMetricStatistics", def_getMetricStatistics);
   ("getAllMetricsWithDetails", def_getAllMetricsWithDetails);
   ("getCampaigns", def_getCampaigns);
   ("getCampaignMetrics", def_getCampaignMetrics_options);
   ("getFlowMetrics", def_getFlowMetrics);
   ("queryMetricAggregates", def_queryMetricAggregates);
   ("getLists", def_getLists); ("getProfiles", def_getProfiles);
   ("getEvents", def_getEvents);
   ("getCampaignMetrics", def_getCampaignMetrics_campaignId);
   ("getFlows", def_getFlows); ("getMetricData", def_getMetricData);
   ("getEventsByMetricId", def_getEventsByMetricId);
   ("getAllEventsByMetricId", def_getAllEventsByMetricId);
   ("calculateRevenueByMetricId", def_calculateRevenueByMetricId);
   ("calculateRevenueFromEvents", def_calculateRevenueFromEvents);
   ("findMetricIdByName", def_findMetricIdByName);
   ("getEventsByMetricName", def_getEventsByMetricName);
   ("getDashboardMetrics", def_getDashboardMetrics)].

(** Evaluating a class body defines each method on the prototype in turn;
    defining a name again replaces its value. *)
Definition define_methods (body : list (string * MethodDef)) : gmap string MethodDef :=
  fold_left (λ proto '(name, d), <[name := d]> proto) body ∅.

Definition prototype : gmap string MethodDef := define_methods class_body.

(** [service.getCampaignMetrics(arg)]: the property is looked up on the
    prototype and what it holds is called. *)
Definition call_getCampaignMetrics (rt : Runtime) (this : KlaviyoService) (arg : Value)
    : M (CampaignMetrics + Value) :=
  match prototype !! "getCampaignMetrics" with
  | Some def_getCampaignMetrics_options =>
      inl <$> getCampaignMetrics_options rt this arg
  | Some def_getCampaignMetrics_campaignId =>
      inr <$> getCampaignMetrics_campaignId rt this arg
  | _ => throw (TypeError "service.getCampaignMetrics is not a function")
  end.

(** ** Notions used in the statements *)

(** The sum of the values of a grouped mapping. *)
Definition sum_grouped (g : gmap string Q) : Q :=
  map_fold (λ _ v acc, (v + acc)%Q) 0%Q g.

(** The result groups of an aggregate response. *)
Definition response_groups (response : Value) : list Value :=
  match opt (opt (opt response "data") "attributes") "data" with
  | VArr l => l
  | _ => []
  end.

(** The names that every object inherits from [Object.prototype]: read on
    [groupedData = {}] before they are written, they are not [undefined]. *)
Definition Object_prototype_names : list string :=
  ["constructor"; "__proto__"; "__defineGetter__"; "__defineSetter__";
   "__lookupGetter__"; "__lookupSetter__"; "hasOwnProperty"; "isPrototypeOf";
   "propertyIsEnumerable"; "toLocaleString"; "toString"; "valueOf"].

Definition inherited_name (k : string) : bool :=
  existsb (String.eqb k) Object_prototype_names.

(** A result group that carries a non-empty [dimensions] array, whose key
    is not a name that [groupedData] inherits, and whose measurements do
    not hide an array under a property named "null" when none of unique,
    count and sum_value is populated. *)
Definition keyed_group (group : Value) : bool :=
  match opt group "dimensions" with
  | VArr (dimension :: _) =>
      negb (inherited_name (dimensionValue dimension))
      && match measurementKey (opt group "measurements") with
         | Some _ => true
         | None => negb (isArray (getProp (opt group "measurements") "null"))
         end
  | _ => false
  end.

(** A result group without a non-empty [dimensions] array. *)
Definition undimensioned_group (group : Value) : bool :=
  match opt group "dimensions" with
  | VArr (_ :: _) => false
  | _ => true
  end.

(** The values that a result group contributes to the sums: the elements
    of its populated measurement, or its one scalar. *)
Definition group_numbers (group : Value) : list Value :=
  let ms := opt group "measurements" in
  match measurementKey ms with
  | Some k =>
      match getProp ms k with
      | VArr l => l
      | v => [v]
      end
  | None => []
  end.

(** A text that [parseFloat] reads as an infinity. *)
Definition infinity_literal (s : string) : bool :=
  match skip_spaces s with
  | String "-" r => startsWith "Infinity" r
  | String "+" r => startsWith "Infinity" r
  | r => startsWith "Infinity" r
  end.

(** A value that [parseFloat] reads as the model does: the text that is
    read, if any, is ASCII and no infinity. *)
Fixpoint read_exactly (v : Value) : bool :=
  match v with
  | VStr s => plain s && negb (infinity_literal s)
  | VArr (x :: _) => read_exactly x
  | _ => true
  end.

(** The whole number nearest below a rational. *)
Definition floor (q : Q) : Z := Qnum q / Zpos (Qden q).

Definition is_whole (q : Q) : bool := Qeq_bool q (inject_Z (floor q)).

(** Values that are read as whole numbers whose absolute values add up to
    2^53 at most: each of these numbers and every sum of some of them,
    taken in whatever order, is a double, so the additions of the code are
    exact on them. *)
Definition whole_numbers (l : list Value) : bool :=
  forallb (λ val, read_exactly val && is_whole (nan_to_zero (parseFloat val))) l
  && (fold_right (λ val acc, Z.abs (floor (nan_to_zero (parseFloat val))) + acc) 0 l
      <=? 2 ^ 53).

(** [m] is the first entry of the catalog whose lower-cased name satisfies
    [p]; the entries before it have names, which fail [p]. *)
Definition first_match (p : string → bool) (catalog : list Value) (m : Value) : Prop :=
  ∃ before after name,
    catalog = before ++ m :: after
    ∧ metric_name m = Some name ∧ p name = true
    ∧ Forall (λ x, ∃ n, metric_name x = Some n ∧ p n = false) before.

(** Every entry of the catalog has a name, and none satisfies [p]. *)
Definition no_match (p : string → bool) (catalog : list Value) : Prop :=
  Forall (λ x, ∃ n, metric_name x = Some n ∧ p n = false) catalog.

(** The upstream never answers a GET of [endpoint] with a 2xx status. *)
Definition always_fails (rt : Runtime) (this : KlaviyoService) (endpoint : string)
    : Prop :=
  ∀ n params status body,
    upstream rt n (request_config this endpoint "GET" VNull params)
    = HttpResponse status body →
    ok_status status = false.

(** No 2xx answer of the upstream has a [null] body. *)
Definition bodies_not_null (rt : Runtime) : Prop :=
  ∀ n request status body,
    upstream rt n request = HttpResponse status body →
    ok_status status = true → nullish body = false.

(** Resolution as the specification words it: the first entry, in catalog
    order, whose name satisfies the test, and its id or [null]; then "exact
    match wins, else the first substring match". *)
Definition first_entry (p : string → bool) (catalog : list Value) : Value :=
  default VUndefined
    (List.find (λ m, match metric_name m with Some n => p n | None => false end)
       catalog).

Definition first_id (p : string → bool) (catalog : list Value) : Value :=
  js_or (opt (first_entry p catalog) "id") VNull.

Definition exact_then_substring (name : string) (catalog : list Value) : Value :=
  js_or (first_id (equals name) catalog) (first_id (contains name) catalog).

(** Every entry of the catalog has a name that is a string (or none). *)
Definition named (catalog : list Value) : Prop :=
  Forall (λ m, is_Some (metric_name m)) catalog.

(** No entry of the catalog has a name that satisfies [p]. *)
Definition absent (p : string → bool) (catalog : list Value) : Prop :=
  Forall (λ x, ∀ n, metric_name x = Some n → p n = false) catalog.

(** The names of the catalog are ASCII texts. *)
Definition plain_names (catalog : list Value) : bool :=
  forallb (λ m, match metric_name m with Some n => plain n | None => true end) catalog.

(** The catalogs that the upstream serves have ASCII names, and none has
    an entry whose name contains [searchName]. *)
Definition catalog_lacks (rt : Runtime) (this : KlaviyoService) (searchName : string)
    : Prop :=
  ∀ n status body catalog,
    upstream rt n (request_config this "/metrics/" "GET" VNull (VObj []))
    = HttpResponse status body →
    ok_status status = true →
    opt body "data" = VArr catalog →
    plain_names catalog = true ∧ absent (contains searchName) catalog.

(** The event counters of a completed build. *)
Definition counters (c : Completion Snapshot) : option EventMetrics :=
  match c with
  | Return snapshot => Some (eventMetrics snapshot)
  | Throw _ => None
  end.

(** The first request of [getAllEventsByMetricId], and the request it makes
    for a cursor whose [pathname + search] is [path]. *)
Definition first_page_request (this : KlaviyoService) (metricId : Value) : Request :=
  request_config this "/events/" "GET" VNull
    (VObj [("filter", VStr (events_filter metricId)); ("page[size]", VInt 100)]).

Definition cursor_request (this : KlaviyoService) (path : string) : Request :=
  request_config this (strip_api path) "GET" VNull (VObj []).

(** The request of [calculateRevenueFromEvents]. *)
Definition events_config (this : KlaviyoService) (metricId : Value) (limit : Z)
    : Request :=
  request_config this "/events/" "GET" VNull
    (VObj [("filter", VStr (events_filter metricId)); ("page[size]", VInt limit)]).

(** The sum of the scalars of the result groups. *)
Definition sum_group_values (groups : list Value) : Q :=
  fold_left (λ acc group, (acc + group_value (opt group "measurements"))%Q) groups 0%Q.

(** ** The rate limiter under concurrent callers

    Several callers invoke [rateLimit()] in the same turn of the event loop,
    as the elements of an array passed to [Promise.allSettled] do. Each call
    runs its check at once; a caller that has to sleep registers a timer and
    is resumed, at its admission segment, when the timer fires. Timers fire
    in the order of their deadlines, and in registration order among equal
    deadlines. *)

Module Concurrent.

Record Sched := {
  world : World;
  timers : list (Z * nat);       (* deadline and caller, sorted by deadline *)
  admitted : list (nat * Z)      (* caller and admission time, in admission order *)
}.

Fixpoint insert_timer (t : Z * nat) (l : list (Z * nat)) : list (Z * nat) :=
  match l with
  | [] => [t]
  | u :: rest => if fst t <? fst u then t :: u :: rest else u :: insert_timer t rest
  end.

Definition resume (id : nat) (w : World) (s : Sched) : Sched :=
  let w' := snd (rateLimit_admit w) in
  {| world := w'; timers := timers s;
     admitted := (admitted s ++ [(id, lastRequestTime w')])%list |}.

(** Caller [id] invokes [rateLimit()]. *)
Definition call (this : KlaviyoService) (s : Sched) (id : nat) : Sched :=
  match rateLimit_check this (world s) with
  | (Return (Some ms), w) =>
      {| world := w;
         timers := insert_timer (clock w + Z.max 0 ms, id) (timers s);
         admitted := admitted s |}
  | (Return None, w) => resume id w s
  | (Throw _, _) => s
  end.

Definition advance_to (t : Z) (w : World) : World :=
  {| clock := Z.max (clock w) t; lastRequestTime := lastRequestTime w;
     trace := trace w |}.

(** The event loop fires the pending timers. *)
Fixpoint fire_all (pending : list (Z * nat)) (s : Sched) : Sched :=
  match pending with
  | [] => s
  | (deadline, id) :: rest =>
      fire_all rest (resume id (advance_to deadline (world s))
                       {| world := world s; timers := rest; admitted := admitted s |})
  end.

(** [n] callers in one turn, then the event loop. *)
Definition acquire_all (this : KlaviyoService) (n : nat) (w : World) : Sched :=
  let s := fold_left (call this) (seq 0 n)
             {| world := w; timers := []; admitted := [] |} in
  fire_all (timers s) s.

Definition admission_times (s : Sched) : list Z := snd <$> admitted s.

(** Every two consecutive admissions are at least [m] apart. *)
Definition spaced (m : Z) (times : list Z) : Prop :=
  ∀ i a b, times !! i = Some a → times !! S i = Some b → m ≤ b - a.

End Concurrent.

(** ** A runtime for the examples: UTC calendar and absolute http(s) URLs *)

Module UTC.

Definition ms_per_day : Z := 86400000.

(** Day number since 1970-01-01 to year, month (1..12) and day. *)
Definition civil_from_days (days : Z) : Z * Z * Z :=
  let z := days + 719468 in
  let era := z / 146097 in
  let doe := z - era * 146097 in
  let yoe := (doe - doe / 1460 + doe / 36524 - doe / 146096) / 365 in
  let doy := doe - (365 * yoe + yoe / 4 - yoe / 100) in
  let mp := (5 * doy + 2) / 153 in
  let d := doy - (153 * mp + 2) / 5 + 1 in
  let m := if mp <? 10 then mp + 3 else mp - 9 in
  let y := yoe + era * 400 + (if m <=? 2 then 1 else 0) in
  (y, m, d).

Definition days_from_civil (y m d : Z) : Z :=
  let y := if m <=? 2 then y - 1 else y in
  let era := y / 400 in
  let yoe := y - era * 400 in
  let doy := (153 * (if 2 <? m then m - 3 else m + 9) + 2) / 5 + d - 1 in
  let doe := yoe * 365 + yoe / 4 - yoe / 100 + doy in
  era * 146097 + doe - 719468.

Definition pad (width : nat) (z : Z) : string :=
  let digits := pretty z in
  String.concat EmptyString (repeat "0" (width - String.length digits)) +:+ digits.

(** [toISOString] for the years 0000 to 9999. *)
Definition toISOString (t : Z) : string :=
  let '(y, m, d) := civil_from_days (t / ms_per_day) in
  let ms := t mod ms_per_day in
  pad 4 y +:+ "-" +:+ pad 2 m +:+ "-" +:+ pad 2 d +:+ "T" +:+
  pad 2 (ms / 3600000) +:+ ":" +:+ pad 2 (ms / 60000 mod 60) +:+ ":" +:+
  pad 2 (ms / 1000 mod 60) +:+ "." +:+ pad 3 (ms mod 1000) +:+ "Z".

(** [setMonth(getMonth() - 1)] when the local time zone is UTC: a day
    that the earlier month lacks carries into the next one. *)
Definition setMonthBack (t : Z) : Z :=
  let '(y, m, d) := civil_from_days (t / ms_per_day) in
  let '(y', m') := if m =? 1 then (y - 1, 12) else (y, m - 1) in
  (days_from_civil y' m' 1 + (d - 1)) * ms_per_day + t mod ms_per_day.

Fixpoint until_any (stop : ascii → bool) (s : string) : string * string :=
  match s with
  | EmptyString => (EmptyString, EmptyString)
  | String c r =>
      if stop c then (EmptyString, s)
      else let '(a, b) := until_any stop r in (String c a, b)
  end.

Definition is_delim (c : ascii) : bool :=
  (Ascii.eqb c "/" || Ascii.eqb c "?" || Ascii.eqb c "#")%bool.

(** [pathname + search] of an absolute http(s) URL whose characters need
    no escaping and whose path has no dot segments. *)
Definition pathname_search (url : Value) : option string :=
  match url with
  | VStr s =>
      let after_scheme :=
        if startsWith "https://" s then Some (substring_from 8 s)
        else if startsWith "http://" s then Some (substring_from 7 s)
        else None in
      match after_scheme with
      | Some r =>
          let '(host, rest) := until_any is_delim r in
          let '(path_query, _) := until_any (Ascii.eqb "#") rest in
          match host, path_query with
          | EmptyString, _ => None
          | _, String "/" _ => Some path_query
          | _, _ => Some ("/" +:+ path_query)
          end
      | None => None
      end
  | _ => None
  end.

Definition runtime (up : nat → Request → HttpResult) : Runtime :=
  {| upstream := up;
     latency := λ _ _, 0%N;
     Date_toISOString := toISOString;
     Date_setMonthBack := setMonthBack;
     URL_pathname_search := pathname_search |}.

End UTC.

(** ** Inputs of the examples *)

Module Inputs.

Definition service : KlaviyoService := new_KlaviyoService "pk_test".

(** Every request meets a network failure. *)
Definition offline : Runtime :=
  UTC.runtime (λ _ _, NetworkFailure "connect ECONNREFUSED").

(** Every request gets the same answer. *)
Definition always (status : Z) (body : Value) : Runtime :=
  UTC.runtime (λ _ _, HttpResponse status body).

(** The upstream error envelope with one error. *)
Definition envelope (fields : list (string * Value)) : Value :=
  VObj [("errors", VArr [VObj fields])].

Definition throttled_detail : string :=
  "Request was throttled. Expected available in 2 seconds.".

Definition throttled_body : Value :=
  envelope [("title", VStr "Throttled"); ("detail", VStr throttled_detail)].

Definition server_error_body : Value :=
  envelope [("title", VStr "Internal Server Error"); ("detail", VStr "Try again later.")].

(** [makeRequest('/flows/', 'GET')] and its configuration. *)
Definition get_flows (rt : Runtime) (retryCount : nat) : M Value :=
  makeRequest rt service "/flows/" "GET" VNull (VObj []) retryCount.

Definition flows_config : Request :=
  request_config service "/flows/" "GET" VNull (VObj []).

Definition start : World := initial_world 1700000000000.

(** An aggregate response with the given result groups. *)
Definition aggregate_response_of (groups : list Value) : Value :=
  VObj [("data", VObj [("attributes", VObj [("data", VArr groups)])])].

(** One result group without [dimensions]. *)
Definition undimensioned : Value :=
  aggregate_response_of [VObj [("measurements", VObj [("count", VInt 5)])]].

(** One result group keyed by an attributed message. *)
Definition one_campaign : Value :=
  aggregate_response_of
    [VObj [("measurements", VObj [("count", VInt 5)]);
           ("dimensions", VArr [VObj [("$attributed_message", VStr "c1")]])]].

(** Three result groups keyed by attributed message, two of them by the
    same one. *)
Definition keyed (message : string) (count : Z) : Value :=
  VObj [("measurements", VObj [("count", VInt count)]);
        ("dimensions", VArr [VObj [("$attributed_message", VStr message)]])].

Definition two_campaigns_groups : list Value :=
  [keyed "c1" 1; keyed "c2" 2; keyed "c2" 3].

Definition two_campaigns : Value := aggregate_response_of two_campaigns_groups.

Definition grouped_by_message : AggregateOptions :=
  {| measurements := ["count"]; filters := []; interval := None;
     timezone := VStr "UTC"; by_ := Some ["$attributed_message"] |}.

Definition daily_revenue : AggregateOptions :=
  {| measurements := ["sum_value"];
     filters := ["greater-or-equal(datetime,2024-01-01T00:00:00)";
                 "less-than(datetime,2024-02-01T00:00:00)"];
     interval := Some "day"; timezone := VStr "UTC"; by_ := None |}.

Definition bucketed : Value :=
  aggregate_response_of
    [VObj [("measurements", VObj [("sum_value", VArr [VInt 10; VInt 20; VInt 30])])]].

(** A catalog in which a longer name precedes the exact one. *)
Definition metric (id name : string) : Value :=
  VObj [("type", VStr "metric"); ("id", VStr id);
        ("attributes", VObj [("name", VStr name)])].

Definition shop_metrics : list Value :=
  [metric "A" "Viewed Product Details";
   metric "B" "Viewed Product";
   metric "P" "Placed Order (test)"].

Definition shop_catalog : Value := VObj [("data", VArr shop_metrics)].

(** The upstream of a shop: the catalog, and aggregates that count 7 events
    for metric A, 9 for metric B and 1 for any other. *)
Definition shop_upstream (n : nat) (r : Request) : HttpResult :=
  if String.eqb (req_url r) "https://a.klaviyo.com/api/metrics/"
  then HttpResponse 200 shop_catalog
  else if String.eqb (req_url r) "https://a.klaviyo.com/api/metric-aggregates/"
  then
    let id := opt (opt (opt (default VNull (req_data r)) "data") "attributes")
                "metric_id" in
    HttpResponse 200
      (aggregate_response_of
         [VObj [("measurements",
                 VObj [("count",
                        VInt (if String.eqb (ToString id) "A" then 7
                              else if String.eqb (ToString id) "B" then 9
                              else 1))])]])
  else HttpResponse 200 (VObj [("data", VArr [])]).

Definition shop : Runtime := UTC.runtime shop_upstream.

(** The flows endpoint answers 500, every other endpoint an empty list. *)
Definition flows_down : Runtime :=
  UTC.runtime (λ _ r,
    if String.eqb (req_url r) "https://a.klaviyo.com/api/flows/"
    then HttpResponse 500 server_error_body
    else HttpResponse 200 (VObj [("data", VArr [])])).

(** The flows endpoint answers 200 with the body [null], every other
    endpoint an empty list. *)
Definition flows_null : Runtime :=
  UTC.runtime (λ _ r,
    if String.eqb (req_url r) "https://a.klaviyo.com/api/flows/"
    then HttpResponse 200 VNull
    else HttpResponse 200 (VObj [("data", VArr [])])).

(** Three pages of events, of sizes 100, 100 and 50, numbered in order. *)
Definition events (from count : Z) : list Value := VInt <$> seqZ from count.

Definition cursor (c : string) : Value :=
  VStr ("https://a.klaviyo.com/api/events/?page[cursor]=" +:+ c).

Definition page (items : list Value) (next : Value) : Value :=
  VObj [("data", VArr items); ("links", VObj [("next", next)])].

Definition paged_upstream (n : nat) (r : Request) : HttpResult :=
  if String.eqb (req_url r) "https://a.klaviyo.com/api/events/"
  then HttpResponse 200 (page (events 0 100) (cursor "c1"))
  else if String.eqb (req_url r) "https://a.klaviyo.com/api/events/?page[cursor]=c1"
  then HttpResponse 200 (page (events 100 100) (cursor "c2"))
  else if String.eqb (req_url r) "https://a.klaviyo.com/api/events/?page[cursor]=c2"
  then HttpResponse 200 (page (events 200 50) VNull)
  else HttpResponse 404 (envelope [("detail", VStr "Not found")]).

Definition paged : Runtime := UTC.runtime paged_upstream.

End Inputs.

(** ** Further notions: pacing, what a method sends, results *)

(** The times at which the requests went out, oldest first. *)
Definition sent_times (w : World) : list Z :=
  omap (λ e, match e with Sent t _ => Some t | Waited _ => None end) (trace w).

(** The requests on the wire are at least [m] apart, and the stamp of the
    limiter is not earlier than the last of them. *)
Definition paced (m : Z) (w : World) : Prop :=
  Concurrent.spaced m (sent_times w)
  ∧ ∀ t, last (sent_times w) = Some t → t ≤ lastRequestTime w.

(** A 429 body whose [errors[0].detail] is absent or a string: the wait
    time of the retry can be computed from it. *)
Definition well_formed_throttle (body : Value) : Prop :=
  nullish (retry_detail body) = true ∨ ∃ detail, retry_detail body = VStr detail.









(** The request of [getMetrics], of [getMetricById] for a catalog entry,
    of [queryMetricAggregates] and of [calculateRevenueByMetricId] made at
    [now]. *)
Definition metrics_request (this : KlaviyoService) : Request :=
  request_config this "/metrics/" "GET" VNull (VObj []).

Definition detail_request (this : KlaviyoService) (metric : Value) : Request :=
  request_config this ("/metrics/" +:+ ToString (getProp metric "id") +:+ "/") "GET"
    VNull (VObj []).

Definition aggregate_config (this : KlaviyoService) (metricId : Value)
    (options : AggregateOptions) : Request :=
  request_config this "/metric-aggregates/" "POST"
    (aggregate_request_body metricId options) (VObj []).

Definition revenue_config (rt : Runtime) (this : KlaviyoService) (metricId : Value)
    (now : Z) (options : RevenueOptions) : Request :=
  request_config this "/metric-aggregates/" "POST"
    (revenue_request_body rt metricId now options) (VObj []).

(** The upstream answers every GET of [endpoint] with [params] by a 2xx
    status and the body [body], whenever it is asked. *)
Definition always_answers (rt : Runtime) (this : KlaviyoService) (endpoint : string)
    (params body : Value) : Prop :=
  ∀ n, ∃ status,
    upstream rt n (request_config this endpoint "GET" VNull params)
    = HttpResponse status body
    ∧ ok_status status = true.

(** What the snapshot holds for a fetch that returned [value]:
    [value.error ? null : value]. *)
Definition settled (value : Value) : Value :=
  if truthy (getProp value "error") then VNull else value.

(** The parameters of the two requests of [getCampaigns]. *)
Definition channel_filter (channel : string) : Value :=
  VObj [("filter", VStr ("equals(messages.channel,'" +:+ channel +:+ "')"))].

(** The options of the count queries of the dashboard. *)
Definition count_options (dateFilters : list string) : AggregateOptions :=
  {| measurements := ["count"]; filters := dateFilters; interval := None;
     timezone := VStr "UTC"; by_ := None |}.

(** The upstream answers every count query for [metricId], whatever its
    date filters and whenever it is asked, by a 2xx status and
    [response]. *)
Definition counts_with (rt : Runtime) (this : KlaviyoService) (metricId response : Value)
    : Prop :=
  ∀ n dateFilters, ∃ status,
    upstream rt n (aggregate_config this metricId (count_options dateFilters))
    = HttpResponse status response
    ∧ ok_status status = true.

(** The count that an aggregate response reports: the sum of the scalars
    of its result groups, 0 when it has none. *)
Definition event_count (response : Value) : Q :=
  match opt (opt (opt response "data") "attributes") "data" with
  | VArr groups => sum_group_values groups
  | _ => 0%Q
  end.

(** What a counter of the snapshot is, given the id resolved for it: 0
    when there is no id, and the count that the upstream reports for that
    id (in whole numbers) when it answers the count queries for it. *)
Definition counter_of (rt : Runtime) (this : KlaviyoService) (metricId : Value)
    (counter : Q) : Prop :=
  (truthy metricId = false → counter = 0%Q)
  ∧ (∀ response,
       truthy metricId = true →
       counts_with rt this metricId response →
       whole_numbers (concat (group_numbers <$> response_groups response)) = true →
       counter = event_count response).

(** The values that a result group contributes to the revenue: the
    elements of its [sum_value], or its one scalar. *)
Definition revenue_numbers (group : Value) : list Value :=
  let ms := opt group "measurements" in
  if truthy (opt ms "sum_value") then
    match getProp ms "sum_value" with
    | VArr l => l
    | v => [v]
    end
  else [].

(** The revenue that the result groups of an aggregate response add up
    to. *)
Definition revenue_total (groups : list Value) : Q :=
  fst (fold_left revenue_group groups (0%Q, 0)).

(** The upstream answers every revenue query of the dashboard for
    [metricId], whenever it is made, by a 2xx status and [response]. *)
Definition revenue_answered (rt : Runtime) (this : KlaviyoService)
    (metricId response : Value) : Prop :=
  ∀ n now, ∃ status,
    upstream rt n (revenue_config rt this metricId now default_revenue_options)
    = HttpResponse status response
    ∧ ok_status status = true.

(** A result of the fallback: computed from events, with a count of the
    events that carry a revenue, which is at most the number of events. *)
Definition from_events (r : RevenueResult) : Prop :=
  method r = "events"
  ∧ ∃ n, eventsWithRevenue r = Some n ∧ 0 ≤ n ≤ eventCount r.

(** An event that carries a revenue:
    [event?.attributes?.properties?.$value] is truthy. *)
Definition has_revenue (event : Value) : bool :=
  truthy (opt (opt (opt event "attributes") "properties") "$value").

(** [m] puts on the wire only requests that satisfy [P], in whatever world
    it is run. *)
Definition emits {A} (P : Request → Prop) (m : M A) : Prop :=
  ∀ w, ∃ l, requests_of (snd (m w)) = requests_of w ++ l ∧ Forall P l.

(** [m] puts at most [n] requests on the wire, in whatever world it is
    run. *)
Definition sends_at_most {A} (n : nat) (m : M A) : Prop :=
  ∀ w, ∃ l, requests_of (snd (m w)) = requests_of w ++ l ∧ (length l ≤ n)%nat.

(** A request of the service that reads: built by [makeRequest] for this
    service (so addressed under its base URL, with its key), and either a
    GET or the POST of an aggregate query. *)
Definition reading_request (this : KlaviyoService) (r : Request) : Prop :=
  ∃ endpoint method data params,
    r = request_config this endpoint method data params
    ∧ (method = "GET" ∨ (method = "POST" ∧ endpoint = "/metric-aggregates/")).

(** A GET of the service. *)
Definition get_request (this : KlaviyoService) (r : Request) : Prop :=
  ∃ endpoint params, r = request_config this endpoint "GET" VNull params.

(** A request of [getCampaignMetrics(options)] or [getFlowMetrics]: the
    catalog, or an aggregate query grouped by attributed message whose
    filters are [fs]. *)
Definition attributed_query (this : KlaviyoService) (fs : list string) (r : Request)
    : Prop :=
  r = metrics_request this
  ∨ ∃ metricId ms tz, r = aggregate_config this metricId (by_attributed_message ms fs tz).

(** The [filter] attribute of the body of a request. *)
Definition filter_of (r : Request) : Value :=
  opt (opt (opt (default VUndefined (req_data r)) "data") "attributes") "filter".

(** ** Further inputs of the examples *)

Module Cases.

(** The first two requests are throttled, the third is answered. *)
Definition throttled_twice : Runtime :=
  UTC.runtime (λ n _,
    if (n <? 2)%nat then HttpResponse 429 Inputs.throttled_body
    else HttpResponse 200 (VObj [("data", VArr [])])).

(** Every request is throttled, with a number where the detail should be
    a text. *)
Definition malformed_throttle : Runtime :=
  Inputs.always 429 (Inputs.envelope [("detail", VInt 30)]).

(** The first page of events is served with a cursor; the request for the
    cursor is refused. *)
Definition lost_page : Runtime :=
  UTC.runtime (λ _ r,
    if String.eqb (req_url r) "https://a.klaviyo.com/api/events/"
    then HttpResponse 200 (Inputs.page (Inputs.events 0 100) (Inputs.cursor "c1"))
    else HttpResponse 500 Inputs.server_error_body).


(** The upstream of [Inputs.paged], which throttles the second request put
    on the wire. *)
Definition paged_slowly : Runtime :=
  UTC.runtime (λ n r,
    if (n =? 1)%nat then HttpResponse 429 Inputs.throttled_body
    else Inputs.paged_upstream n r).

(** The shop of [Inputs.shop] with an account, two lists, one email
    campaign and two sms campaigns, and with its flows endpoint down. *)
Definition account_body : Value :=
  VObj [("data", VArr [VObj [("type", VStr "account"); ("id", VStr "AC1")]])].

Definition two_lists : Value :=
  VObj [("data", VArr [VObj [("type", VStr "list"); ("id", VStr "L1")];
                       VObj [("type", VStr "list"); ("id", VStr "L2")]])].

Definition campaign (id : string) : Value :=
  VObj [("type", VStr "campaign"); ("id", VStr id)].

Definition email_campaigns : Value := VObj [("data", VArr [campaign "E1"])].

Definition sms_campaigns : Value := VObj [("data", VArr [campaign "S1"; campaign "S2"])].

Definition shop_without_flows : Runtime :=
  UTC.runtime (λ n r,
    if String.eqb (req_url r) "https://a.klaviyo.com/api/flows/"
    then HttpResponse 500 Inputs.server_error_body
    else if String.eqb (req_url r) "https://a.klaviyo.com/api/accounts/"
    then HttpResponse 200 account_body
    else if String.eqb (req_url r) "https://a.klaviyo.com/api/lists/"
    then HttpResponse 200 two_lists
    else if String.eqb (req_url r) "https://a.klaviyo.com/api/campaigns/"
    then
      if String.eqb (ToString (opt (default VNull (req_params r)) "filter"))
           "equals(messages.channel,'email')"
      then HttpResponse 200 email_campaigns
      else HttpResponse 200 sms_campaigns
    else Inputs.shop_upstream n r).

(** Three events, of which the first and the third carry a revenue. *)
Definition order (value : Value) : Value :=
  VObj [("type", VStr "event");
        ("attributes", VObj [("properties", VObj [("$value", value)])])].

Definition three_orders : list Value :=
  [order (VNum (25 # 2)); order VNull; order (VStr "7.5")].

(** Aggregate queries are refused, events are served. *)
Definition aggregates_refused : Runtime :=
  UTC.runtime (λ _ r,
    if String.eqb (req_url r) "https://a.klaviyo.com/api/events/"
    then HttpResponse 200 (VObj [("data", VArr three_orders)])
    else HttpResponse 400 Inputs.server_error_body).

(** A date range, and one without its end. *)
Definition january : Value :=
  VObj [("startDate", VStr "2024-01-01T00:00:00");
        ("endDate", VStr "2024-02-01T00:00:00")].

Definition since_january : Value :=
  VObj [("startDate", VStr "2024-01-01T00:00:00")].

(** A catalog for the campaign metrics. *)
Definition mail_catalog : Value :=
  VObj [("data", VArr [Inputs.metric "O" "Opened Email"])].

Definition mail : Runtime :=
  UTC.runtime (λ _ r,
    if String.eqb (req_url r) "https://a.klaviyo.com/api/metrics/"
    then HttpResponse 200 mail_catalog
    else HttpResponse 200 Inputs.one_campaign).

(** Every page comes with a cursor. *)
Definition endless : Runtime :=
  Inputs.always 200 (Inputs.page (Inputs.events 0 2) (Inputs.cursor "again")).

End Cases.

(** ** The HTTP side: [auth.js] and the dashboard route of [server.js]

    A handler answers with [res.status(s).json(body)]; [res.json(body)]
    leaves the status at 200. The token library and the database are
    outside the code: [jwt.verify(token, JWT_SECRET)] gives the decoded
    payload or throws, [dbOperations.getClientById(id)] resolves with a
    row or with [undefined], or rejects. Header names arrive in lower
    case, header values are strings. *)

Module Server.

Inductive Json :=
| JsonValue (v : Value)
| JsonSnapshot (s : Snapshot).

Record Response := {
  res_status : Z;
  res_body : Json
}.

(** [res.status(status).json({ error: message })] *)
Definition refuse (status : Z) (message : string) : Response :=
  {| res_status := status; res_body := JsonValue (VObj [("error", VStr message)]) |}.

(** What a middleware does: it answers, or it calls [next()] after setting
    [req.clientId]. *)
Inductive Passed :=
| Responded (r : Response)
| Next (clientId : Value).

(** [s.split(sep)] for a separator of one character. *)
Fixpoint split (sep : ascii) (s : string) : list string :=
  match s with
  | EmptyString => [EmptyString]
  | String c r =>
      if Ascii.eqb c sep then EmptyString :: split sep r
      else match split sep r with
           | field :: fields => String c field :: fields
           | [] => [String c EmptyString]
           end
  end.

(** A text without a space. *)
Fixpoint spaceless (s : string) : bool :=
  match s with
  | EmptyString => true
  | String c r => negb (Ascii.eqb c " ") && spaceless r
  end.

(** [req.headers[name]] *)
Definition header (name : string) (headers : list (string * string)) : option string :=
  snd <$> List.find (λ h, String.eqb name (fst h)) headers.

Section Routes.

Variable jwt_verify : string → option Value.
Variable getClientById : Value → Completion Value.
Variable rt : Runtime.

Definition verifyToken (token : string) : Value :=
  match jwt_verify token with
  | Some decoded => decoded
  | None => VNull
  end.

(** [authenticateToken]: [token] is [authHeader && authHeader.split(' ')[1]],
    which is falsy when the header is absent or empty, when it has no
    second field, and when that field is empty. *)
Definition authenticateToken (headers : list (string * string)) : Passed :=
  let authHeader := header "authorization" headers in
  let token :=
    match authHeader with
    | Some h => if String.eqb h EmptyString then Some h else split " " h !! 1%nat
    | None => None
    end in
  match token with
  | Some t =>
      if String.eqb t EmptyString then Responded (refuse 401 "Access token required")
      else
        let decoded := verifyToken t in
        if truthy decoded then Next (getProp decoded "clientId")
        else Responded (refuse 403 "Invalid or expired token")
  | None => Responded (refuse 401 "Access token required")
  end.

(** [await promise] for a promise that is settled by something outside
    the class. *)
Definition await {A} (promise : Completion A) : M A := λ w, (promise, w).

(** [new KlaviyoService(key)]: the limiter of the new instance has never
    admitted a request; the key is used as text. *)
Definition construct (key : Value) : M KlaviyoService := λ w,
  (Return (new_KlaviyoService (ToString key)),
   {| clock := clock w; lastRequestTime := 0; trace := trace w |}).

(** The handler of [GET /api/dashboard/metrics]. *)
Definition dashboard_metrics_handler (clientId : Value) : M Response :=
  try_catch
    (client ← await (getClientById clientId);
     if truthy client then
       klaviyoService ← construct (getProp client "klaviyo_private_key");
       metrics ← getDashboardMetrics rt klaviyoService;
       mret {| res_status := 200; res_body := JsonSnapshot metrics |}
     else mret (refuse 404 "Client not found"))
    (λ error,
       mret {| res_status := 500;
               res_body := JsonValue (VObj [("error", VStr "Failed to fetch Klaviyo metrics");
                                            ("message", VStr (err_message error))]) |}).

(** [app.get('/api/dashboard/metrics', authenticateToken, handler)] *)
Definition dashboard_metrics (headers : list (string * string)) : M Response :=
  match authenticateToken headers with
  | Responded r => mret r
  | Next clientId => dashboard_metrics_handler clientId
  end.

End Routes.

End Server.


(** Inputs of the examples: one token is valid, and decodes to client 7;
    the database knows that client and no other. *)
Module Visitors.

Definition tokens (token : string) : option Value :=
  if String.eqb token "good" then Some (VObj [("clientId", VInt 7)]) else None.

Definition clients (id : Value) : Completion Value :=
  if String.eqb (ToString id) "7"
  then Return (VObj [("id", VInt 7); ("name", VStr "Shop");
                     ("email", VStr "shop@example.com");
                     ("klaviyo_private_key", VStr "pk_7")])
  else Return VUndefined.

Definition bearer (token : string) : list (string * string) :=
  [("accept", "application/json"); ("authorization", "Bearer " +:+ token)].

End Visitors.

(** * Properties *)

(** ** The value model on examples *)

Example parseFloat_prefix : parseFloat (VStr " 12.5px") = Some (125 # 10).
Proof. reflexivity. Qed.

Example parseFloat_array : parseFloat (VArr [VStr "7e2"; VNull]) = Some (700 # 1).
Proof. reflexivity. Qed.

Example ToString_array : ToString (VArr [VNum (5 # 2); VNull; VStr "a"]) = "2.5,,a".
Proof. reflexivity. Qed.

Example match_seconds_leftmost :
  match_seconds "3 calls left; retry in 12 Seconds" = Some 12.
Proof. reflexivity. Qed.

Example toISOString_epoch : UTC.toISOString 0 = "1970-01-01T00:00:00.000Z".
Proof. reflexivity. Qed.

Example toISOString_2023 : UTC.toISOString 1700000000123 = "2023-11-14T22:13:20.123Z".
Proof. reflexivity. Qed.

Example setMonthBack_march_31 :
  UTC.toISOString (UTC.setMonthBack 1711886400000) = "2024-03-02T12:00:00.000Z".
Proof. reflexivity. Qed.

Example pathname_search_cursor :
  UTC.pathname_search (VStr "https://a.klaviyo.com/api/events/?page[cursor]=abc#x")
  = Some "/api/events/?page[cursor]=abc".
Proof. reflexivity. Qed.

(** ** Reasoning about the monad *)

Lemma bind_eq {A B} (m : M A) (f : A → M B) (w : World) :
  (m ≫= f) w = match m w with
               | (Return a, w') => f a w'
               | (Throw e, w') => (Throw e, w')
               end.
Proof. reflexivity. Qed.

Lemma bind_return {A B} (m : M A) (f : A → M B) (w w' : World) (a : A) :
  m w = (Return a, w') → (m ≫= f) w = f a w'.
Proof. intros H. rewrite bind_eq, H. reflexivity. Qed.

Lemma bind_throw {A B} (m : M A) (f : A → M B) (w w' : World) (e : JsError) :
  m w = (Throw e, w') → (m ≫= f) w = (Throw e, w').
Proof. intros H. rewrite bind_eq, H. reflexivity. Qed.

Lemma try_catch_return {A} (body : M A) h (w w' : World) (a : A) :
  body w = (Return a, w') → try_catch body h w = (Return a, w').
Proof. intros H. unfold try_catch. rewrite H. reflexivity. Qed.

Lemma try_catch_throw {A} (body : M A) h (w w' : World) (e : JsError) :
  body w = (Throw e, w') → try_catch body h w = h e w'.
Proof. intros H. unfold try_catch. rewrite H. reflexivity. Qed.

(** A method wrapped in [or_default] always completes normally. *)
Lemma or_default_returns {A} (body : M A) (dflt : A) (w : World) :
  ∃ a w', or_default body dflt w = (Return a, w').
Proof.
  unfold or_default, try_catch. destruct (body w) as [[a|e] w']; eauto.
Qed.

Lemma or_default_throw {A} (body : M A) (dflt : A) (w w' : World) e :
  body w = (Throw e, w') → or_default body dflt w = (Return dflt, w').
Proof. intros H. unfold or_default. erewrite try_catch_throw by eassumption. reflexivity. Qed.

Lemma or_default_return {A} (body : M A) (dflt : A) (w w' : World) a :
  body w = (Return a, w') → or_default body dflt w = (Return a, w').
Proof. intros H. unfold or_default. erewrite try_catch_return by eassumption. reflexivity. Qed.

(** ** The rate limiter *)

(** Called one after the other, [rateLimit] keeps the interval: the
    admission it stamps is the clock at its return and lies at least
    [minRequestInterval] after the previous one. *)
Lemma rateLimit_sequential (this : KlaviyoService) (w : World) :
  ∃ w', rateLimit this w = (Return tt, w')
        ∧ lastRequestTime w' = clock w'
        ∧ minRequestInterval this ≤ lastRequestTime w' - lastRequestTime w
        ∧ clock w ≤ clock w'
        ∧ requests_of w' = requests_of w.
Proof.
  unfold rateLimit, rateLimit_check, rateLimit_admit, Date_now, get_lastRequestTime,
    set_lastRequestTime, wait, mbind, M_bind, mret, M_ret, requests_of.
  destruct (clock w - lastRequestTime w <? minRequestInterval this) eqn:E; simpl.
  - eexists; split; [reflexivity|]. simpl. apply Z.ltb_lt in E.
    rewrite omap_app. simpl. rewrite app_nil_r. repeat split; lia.
  - eexists; split; [reflexivity|]. simpl. apply Z.ltb_ge in E.
    repeat split; lia.
Qed.

(** C3, at the failing input: three callers in one turn, the interval at
    its constructor value of 250 ms, the clock at 1000. The first caller is
    admitted at once; the other two each sleep 250 ms and are both admitted
    at 1250, so two consecutive admissions are 0 ms apart and the three
    admissions span 250 ms instead of the 500 ms that spacing requires. *)
Theorem rateLimit_concurrent_admissions_collide :
  let s := Concurrent.acquire_all Inputs.service 3 (initial_world 1000) in
  minRequestInterval Inputs.service = 250
  ∧ Concurrent.admission_times s = [1000; 1250; 1250]
  ∧ ¬ Concurrent.spaced 250 (Concurrent.admission_times s)
  ∧ 1250 - 1000 < (3 - 1) * 250.
Proof.
  cbv zeta. split; [reflexivity|]. split; [reflexivity|]. split; [|lia].
  intros H. specialize (H 1%nat 1250 1250 eq_refl eq_refl). lia.
Qed.

(** ** The method table *)

Lemma prototype_avoids_options_definition :
  map_Forall (λ _ d, d ≠ def_getCampaignMetrics_options) prototype.
Proof.
  apply (bool_decide_unpack _). vm_compute. reflexivity.
Qed.

(** C10. The class body defines [getCampaignMetrics] twice. The prototype
    holds the later definition under that name and holds the earlier
    definition under no name at all; so a call of [getCampaignMetrics] runs
    the later, single-argument definition, which requests
    [/campaigns/{campaignId}/campaign-messages/] with GET and returns [null]
    when that request fails, and the response when it succeeds. *)
Theorem getCampaignMetrics_dispatches_to_later_definition :
  prototype !! "getCampaignMetrics" = Some def_getCampaignMetrics_campaignId
  ∧ (∀ name, prototype !! name ≠ Some def_getCampaignMetrics_options)
  ∧ (∀ rt this arg,
       call_getCampaignMetrics rt this arg
       = inr <$> getCampaignMetrics_campaignId rt this arg)
  ∧ (∀ rt this campaignId w,
       let request :=
         makeRequest rt this
           ("/campaigns/" +:+ ToString campaignId +:+ "/campaign-messages/")
           "GET" VNull (VObj []) 0 in
       match request w with
       | (Return response, w') =>
           getCampaignMetrics_campaignId rt this campaignId w = (Return response, w')
       | (Throw _, w') =>
           getCampaignMetrics_campaignId rt this campaignId w = (Return VNull, w')
       end).
Proof.
  split; [reflexivity|]. split.
  { intros name H. exact (prototype_avoids_options_definition name _ H eq_refl). }
  split; [reflexivity|].
  intros rt this campaignId w request.
  destruct (request w) as [[response|e] w'] eqn:E; subst request.
  - apply or_default_return. exact E.
  - eapply or_default_throw. exact E.
Qed.

(** ** The request executor *)

Section MakeRequest.

Variable rt : Runtime.
Variable this : KlaviyoService.

Lemma requests_of_wait (ms : Z) (w : World) :
  requests_of (snd (wait ms w)) = requests_of w.
Proof. unfold wait, requests_of. simpl. rewrite omap_app. simpl. apply app_nil_r. Qed.

(** One attempt puts exactly its request on the wire, and its outcome is
    the upstream's answer to it. *)
Lemma attempt_spec (config : Request) (w : World) :
  ∃ w', requests_of w' = requests_of w ++ [config]
    ∧ attempt rt this config w =
        (match upstream rt (sent_count w) config with
         | HttpResponse status body =>
             if ok_status status then Return body
             else Throw (axios_rejection status body)
         | NetworkFailure msg =>
             Throw {| err_name := "AxiosError"; err_message := msg;
                      err_response := None |}
         end, w').
Proof.
  destruct (rateLimit_sequential this w) as (wl & Hrl & _ & _ & _ & Hreq).
  unfold attempt. rewrite (bind_return _ _ _ _ _ Hrl).
  unfold axios, sent_count. rewrite Hreq.
  eexists. split; cycle 1.
  - destruct (upstream rt (length (requests_of w)) config) as [status body|msg];
      [destruct (ok_status status)|]; reflexivity.
  - unfold requests_of at 1. simpl. rewrite omap_app. simpl. fold (requests_of wl).
    rewrite Hreq. reflexivity.
Qed.

Lemma sent_count_app (w w' : World) (l : list Request) :
  requests_of w' = requests_of w ++ l → sent_count w' = (sent_count w + length l)%nat.
Proof. unfold sent_count. intros ->. apply length_app. Qed.

Lemma sent_since_app (w w' : World) (l : list Request) :
  requests_of w' = requests_of w ++ l → sent_since w w' = l.
Proof. unfold sent_since, sent_count. intros ->. apply drop_app_length. Qed.

(** Extracting the message and computing the wait time touch neither the
    clock nor the wire. *)
Lemma gives_up_in_place (error : JsError) (w : World) :
  ∃ e, (errorMessage ← extract_error_message error;
        throw (A := Value) (Error ("Klaviyo API Error: " +:+ ToString errorMessage))) w
       = (Throw e, w).
Proof.
  rewrite bind_eq. unfold extract_error_message, member, throw, mret, M_ret.
  destruct (truthy _ && isArray _).
  - rewrite bind_eq. destruct (nullish _); eauto.
  - destruct (truthy _); eauto.
Qed.

Lemma retry_wait_time_in_place (error : JsError) (w : World) :
  ∃ r, retry_wait_time error w = (r, w).
Proof.
  unfold retry_wait_time, throw, mret, M_ret.
  destruct (retry_detail _); eauto.
Qed.

(** [makeRequest] sends its own request and nothing else, once per
    attempt and at most once more than the retries it has left; when it
    returns, it returns the body of a 2xx answer to that request. *)
Lemma makeRequest_retrying_spec (left : nat) (endpoint method : string)
    (data params : Value) (w : World) :
  let config := request_config this endpoint method data params in
  ∃ k w' r,
    makeRequest_retrying rt this left endpoint method data params w = (r, w')
    ∧ (1 ≤ k ≤ S left)%nat
    ∧ requests_of w' = requests_of w ++ repeat config k
    ∧ (∀ v, r = Return v →
         ∃ status, upstream rt (sent_count w + k - 1) config = HttpResponse status v
                   ∧ ok_status status = true).
Proof.
  intros config. revert w.
  assert (∀ (w w1 : World) e (n : nat),
            requests_of w1 = requests_of w ++ [config] →
            ∃ k w' r,
              (Throw e, w1) = (r, w')
              ∧ (1 ≤ k ≤ S n)%nat
              ∧ requests_of w' = requests_of w ++ repeat config k
              ∧ (∀ v, r = Return v →
                   ∃ status,
                     upstream rt (sent_count w + k - 1) config = HttpResponse status v
                     ∧ ok_status status = true)) as one_attempt_throws.
  { intros w w1 e n Hreq. exists 1%nat, w1, (Throw e).
    split; [reflexivity|]. split; [lia|]. split; [exact Hreq|]. discriminate. }
  induction left as [|left IH]; intros w; cbn [makeRequest_retrying]; fold config;
    destruct (attempt_spec config w) as (w1 & Hreq & Hatt);
    unfold try_catch; rewrite Hatt;
    destruct (upstream rt (sent_count w) config) as [status body|msg] eqn:Hup;
    [destruct (ok_status status) eqn:Hok| |destruct (ok_status status) eqn:Hok|].
  - exists 1%nat, w1, (Return body). split; [reflexivity|]. split; [lia|].
    split; [exact Hreq|]. intros v [= <-]. exists status. rewrite Nat.add_sub. auto.
  - destruct (gives_up_in_place (axios_rejection status body) w1) as (e & ->). eauto.
  - match goal with |- context [extract_error_message ?err] =>
      destruct (gives_up_in_place err w1) as (e & ->) end. eauto.
  - exists 1%nat, w1, (Return body). split; [reflexivity|]. split; [lia|].
    split; [exact Hreq|]. intros v [= <-]. exists status. rewrite Nat.add_sub. auto.
  - destruct (is_throttled (axios_rejection status body)).
    + rewrite bind_eq.
      destruct (retry_wait_time_in_place (axios_rejection status body) w1)
        as ([ms|e] & ->); [|eauto].
      rewrite bind_eq.
      destruct (wait ms w1) as [[[]|?] w2] eqn:Hwait; [|discriminate Hwait].
      assert (requests_of w2 = requests_of w1) as Hreq2
        by (rewrite <- (requests_of_wait ms w1), Hwait; reflexivity).
      destruct (IH w2) as (k & w' & r & Hrun & Hk & Hreq' & Hret).
      exists (S k), w', r. split; [exact Hrun|]. split; [lia|]. split.
      * rewrite Hreq', Hreq2, Hreq, <- app_assoc. reflexivity.
      * intros v Hv. destruct (Hret v Hv) as (st & Hst & Hokst).
        exists st. split; [|exact Hokst]. rewrite <- Hst. f_equal.
        unfold sent_count. rewrite Hreq2, Hreq, length_app. simpl. lia.
    + destruct (gives_up_in_place (axios_rejection status body) w1) as (e & ->). eauto.
  - match goal with |- context [is_throttled ?err] =>
      change (is_throttled err) with false;
      destruct (gives_up_in_place err w1) as (e & ->) end. eauto.
Qed.

Lemma attempt_rejected (config : Request) (w : World) status body :
  upstream rt (sent_count w) config = HttpResponse status body →
  ok_status status = false →
  attempt rt this config w
  = (Throw (axios_rejection status body), snd (attempt rt this config w)).
Proof.
  intros Hup Hok. destruct (attempt_spec config w) as (w1 & _ & Hatt).
  rewrite Hatt, Hup, Hok. reflexivity.
Qed.

(** A rejected attempt that is not retried: the message is extracted and
    the [Error] thrown, in the world the attempt left. *)
Lemma makeRequest_gives_up (left : nat) endpoint method data params (w : World)
    status body :
  let config := request_config this endpoint method data params in
  upstream rt (sent_count w) config = HttpResponse status body →
  ok_status status = false →
  (status = 429 → left = O) →
  makeRequest_retrying rt this left endpoint method data params w
  = (errorMessage ← extract_error_message (axios_rejection status body);
     throw (Error ("Klaviyo API Error: " +:+ ToString errorMessage)))
      (snd (attempt rt this config w)).
Proof.
  intros config Hup Hok Hleft.
  destruct left as [|left]; simpl; fold config;
    erewrite try_catch_throw by (apply attempt_rejected; eassumption);
    [reflexivity|].
  unfold is_throttled, response_status, axios_rejection at 1. simpl.
  destruct (status =? 429) eqn:E; [|reflexivity].
  apply Z.eqb_eq in E. specialize (Hleft E). discriminate.
Qed.

(** A throttled attempt with retries left: the wait time is computed, the
    timer awaited, the request made again with one retry less. *)
Lemma makeRequest_retries (left : nat) endpoint method data params (w : World) body :
  let config := request_config this endpoint method data params in
  upstream rt (sent_count w) config = HttpResponse 429 body →
  makeRequest_retrying rt this (S left) endpoint method data params w
  = (waitTime ← retry_wait_time (axios_rejection 429 body);
     _ ← wait waitTime;
     makeRequest_retrying rt this left endpoint method data params)
      (snd (attempt rt this config w)).
Proof.
  intros config Hup. simpl; fold config.
  erewrite try_catch_throw by (apply attempt_rejected; [eassumption|reflexivity]).
  reflexivity.
Qed.



Lemma extract_errors_array (status : Z) (body e0 : Value) rest (w : World) :
  opt body "errors" = VArr (e0 :: rest) → nullish e0 = false →
  extract_error_message (axios_rejection status body) w
  = (Return (js_or (getProp e0 "detail") (getProp e0 "title")), w).
Proof.
  intros He Hn. unfold extract_error_message, response_data, axios_rejection. simpl.
  rewrite He. simpl. unfold member. rewrite Hn. reflexivity.
Qed.

Lemma extract_message_field (status : Z) (body : Value) (w : World) :
  isArray (opt body "errors") = false → truthy (opt body "message") = true →
  extract_error_message (axios_rejection status body) w = (Return (opt body "message"), w).
Proof.
  intros He Hm. unfold extract_error_message, response_data, axios_rejection. simpl.
  rewrite He, Hm, andb_false_r. reflexivity.
Qed.

Lemma extract_generic (status : Z) (body : Value) (w : World) :
  isArray (opt body "errors") = false → truthy (opt body "message") = false →
  extract_error_message (axios_rejection status body) w
  = (Return (VStr ("Request failed with status code " +:+ pretty status)), w).
Proof.
  intros He Hm. unfold extract_error_message, response_data, axios_rejection. simpl.
  rewrite He, Hm, andb_false_r. reflexivity.
Qed.

Lemma extract_errors_unreadable (status : Z) (body e0 : Value) rest (w : World) :
  (opt body "errors" = VArr [] ∧ e0 = VUndefined)
  ∨ (opt body "errors" = VArr (e0 :: rest) ∧ nullish e0 = true) →
  extract_error_message (axios_rejection status body) w
  = (Throw (TypeError ("Cannot read properties of " +:+ ToString e0 +:+
                       " (reading 'detail')")), w).
Proof.
  intros H. unfold extract_error_message, response_data, axios_rejection. simpl.
  destruct H as [[-> ->]|[-> Hn]]; simpl; unfold member.
  - reflexivity.
  - rewrite Hn. reflexivity.
Qed.

(** What is thrown for a failure that is not retried has one of two
    names and carries no response. *)
Lemma gives_up_plainly (error : JsError) (w : World) :
  ∃ thrown,
    (errorMessage ← extract_error_message error;
     throw (A := Value) (Error ("Klaviyo API Error: " +:+ ToString errorMessage))) w
    = (Throw thrown, w)
    ∧ err_response thrown = None
    ∧ (err_name thrown = "Error" ∨ err_name thrown = "TypeError").
Proof.
  rewrite bind_eq. unfold extract_error_message, member, throw, mret, M_ret.
  destruct (truthy _ && isArray _).
  - rewrite bind_eq. destruct (nullish _); eexists; (split; [reflexivity|]);
      (split; [reflexivity|]); [right|left]; reflexivity.
  - destruct (truthy _); eexists; (split; [reflexivity|]); (split; [reflexivity|]);
      left; reflexivity.
Qed.


(** C9, as amended. An answer outside 2xx that is not retried (any status
    but 429, or 429 once the retries are used up) makes [makeRequest]
    throw, in the world the attempt left, a value that carries no response
    (so no status). For the bodies of the upstream error envelope it is an
    [Error] whose message is ["Klaviyo API Error: "] followed by
    - [errors[0].detail || errors[0].title] when [errors] is an array whose
      first element is not [null] and that text is a string,
    - [data.message] when [errors] is not an array and the message is a
      non-empty string,
    - the message of axios, ["Request failed with status code N"], when
      [errors] is not an array and there is no message.
    Outside these bodies the code has no fallback, which the last two
    parts record: an [errors] array that is empty or starts with [null]
    makes it throw a [TypeError], and a first element with neither detail
    nor title gives the text [undefined]. *)
Theorem makeRequest_failure_message endpoint method data params retryCount
    (w : World) status body :
  let config := request_config this endpoint method data params in
  upstream rt (sent_count w) config = HttpResponse status body →
  ok_status status = false →
  (status = 429 → (maxRetries ≤ retryCount)%nat) →
  let throws (thrown : JsError) :=
    makeRequest rt this endpoint method data params retryCount w
    = (Throw thrown, snd (attempt rt this config w)) in
  let fails_with (text : string) :=
    throws {| err_name := "Error";
              err_message := "Klaviyo API Error: " +:+ text;
              err_response := None |} in
  (∃ thrown, throws thrown
             ∧ err_response thrown = None
             ∧ (err_name thrown = "Error" ∨ err_name thrown = "TypeError"))
  ∧ (∀ e0 rest text,
       opt body "errors" = VArr (e0 :: rest) → nullish e0 = false →
       js_or (getProp e0 "detail") (getProp e0 "title") = VStr text →
       fails_with text)
  ∧ (∀ text,
       isArray (opt body "errors") = false →
       opt body "message" = VStr text → text ≠ EmptyString →
       fails_with text)
  ∧ (isArray (opt body "errors") = false → truthy (opt body "message") = false →
     fails_with ("Request failed with status code " +:+ pretty status))
  ∧ (∀ e0 rest,
       (opt body "errors" = VArr [] ∧ e0 = VUndefined)
       ∨ (opt body "errors" = VArr (e0 :: rest) ∧ nullish e0 = true) →
       throws (TypeError ("Cannot read properties of " +:+ ToString e0 +:+
                          " (reading 'detail')")))
  ∧ (∀ e0 rest,
       opt body "errors" = VArr (e0 :: rest) → nullish e0 = false →
       truthy (getProp e0 "detail") = false → getProp e0 "title" = VUndefined →
       fails_with "undefined").
Proof.
  intros config Hup Hok H429 throws fails_with.
  assert (makeRequest rt this endpoint method data params retryCount w
          = (errorMessage ← extract_error_message (axios_rejection status body);
             throw (Error ("Klaviyo API Error: " +:+ ToString errorMessage)))
              (snd (attempt rt this config w))) as Hrun.
  { unfold makeRequest. apply makeRequest_gives_up; [exact Hup|exact Hok|].
    intros E. specialize (H429 E). lia. }
  unfold fails_with, throws. rewrite Hrun.
  split; [|split; [|split; [|split; [|split]]]].
  - apply gives_up_plainly.
  - intros e0 rest text He Hn Htext.
    rewrite bind_eq, (extract_errors_array _ _ _ _ _ He Hn), Htext. reflexivity.
  - intros text He Hm Htext.
    rewrite bind_eq, (extract_message_field _ _ _ He), Hm; [reflexivity|].
    rewrite Hm. simpl. destruct text; [contradiction Htext|]; reflexivity.
  - intros He Hm. rewrite bind_eq, (extract_generic _ _ _ He Hm). reflexivity.
  - intros e0 rest H.
    rewrite bind_eq, (extract_errors_unreadable _ _ _ _ _ H). reflexivity.
  - intros e0 rest He Hn Hdetail Htitle.
    rewrite bind_eq, (extract_errors_array _ _ _ _ _ He Hn).
    unfold js_or. rewrite Hdetail, Htitle. reflexivity.
Qed.

End MakeRequest.



(** C9, the claim as stated fails: the thrown value is the same for the
    statuses 500 and 404 and has no response, so it does not carry the
    status; and the message is not always one of detail, title or a generic
    text: an error entry with neither detail nor title yields the text
    [undefined], and an empty [errors] array a [TypeError]. *)
Lemma thrown_error_drops_status :
  fst (Inputs.get_flows (Inputs.always 500 Inputs.server_error_body) 0 Inputs.start)
  = Throw (Error "Klaviyo API Error: Try again later.")
  ∧ fst (Inputs.get_flows (Inputs.always 404 Inputs.server_error_body) 0 Inputs.start)
    = Throw (Error "Klaviyo API Error: Try again later.")
  ∧ err_response (Error "Klaviyo API Error: Try again later.") = None
  ∧ fst (Inputs.get_flows (Inputs.always 500 (Inputs.envelope [])) 0 Inputs.start)
    = Throw (Error "Klaviyo API Error: undefined")
  ∧ fst (Inputs.get_flows (Inputs.always 500 (VObj [("errors", VArr [])])) 0
           Inputs.start)
    = Throw (TypeError "Cannot read properties of undefined (reading 'detail')").
Proof. repeat split; vm_compute; reflexivity. Qed.

Lemma makeRequest_failure_message_witness :
  Inputs.get_flows (Inputs.always 500 Inputs.server_error_body) 0 Inputs.start
  = (Throw (Error "Klaviyo API Error: Try again later."),
     snd (attempt (Inputs.always 500 Inputs.server_error_body) Inputs.service
            Inputs.flows_config Inputs.start)).
Proof.
  apply (proj1 (proj2 (makeRequest_failure_message
                  (Inputs.always 500 Inputs.server_error_body) Inputs.service
                  "/flows/" "GET" VNull (VObj []) 0 Inputs.start 500
                  Inputs.server_error_body eq_refl eq_refl
                  (λ H : 500 = 429, ltac:(discriminate H))))
           (VObj [("title", VStr "Internal Server Error");
                  ("detail", VStr "Try again later.")]) [] "Try again later.").
  - reflexivity.
  - reflexivity.
  - reflexivity.
Defined.

(** ** Aggregate queries *)

Section Aggregates.

Variable rt : Runtime.
Variable this : KlaviyoService.

Lemma sum_grouped_insert_fresh (k : string) (x : Q) (g : gmap string Q) :
  g !! k = None → (sum_grouped (<[k := x]> g) == x + sum_grouped g)%Q.
Proof.
  intros Hk. unfold sum_grouped.
  apply (map_fold_insert Qeq (λ _ v acc, (v + acc)%Q)); [| |exact Hk].
  - intros _ z a b Hab. rewrite Hab. reflexivity.
  - intros. ring.
Qed.

Lemma sum_grouped_delete (k : string) (v : Q) (g : gmap string Q) :
  g !! k = Some v → (sum_grouped g == v + sum_grouped (delete k g))%Q.
Proof.
  intros Hk. unfold sum_grouped.
  apply (map_fold_delete Qeq (λ _ v acc, (v + acc)%Q)); [| |exact Hk].
  - intros _ z a b Hab. rewrite Hab. reflexivity.
  - intros. ring.
Qed.

(** [groupedData[k] = (groupedData[k] || 0) + x] adds [x] to the sum. *)
Lemma sum_grouped_add (k : string) (x : Q) (g : gmap string Q) :
  (sum_grouped (add_grouped k x g) == sum_grouped g + x)%Q.
Proof.
  unfold add_grouped. destruct (g !! k) as [v|] eqn:Hk; simpl.
  - rewrite <- insert_delete_eq.
    rewrite sum_grouped_insert_fresh by apply lookup_delete_eq.
    rewrite (sum_grouped_delete k v g Hk). ring.
  - rewrite sum_grouped_insert_fresh by exact Hk. ring.
Qed.

Lemma sum_grouped_empty : sum_grouped ∅ = 0%Q.
Proof. unfold sum_grouped. apply map_fold_empty. Qed.

(** With grouping, a keyed group adds its scalar to [total] and to one
    entry of [grouped]. *)
Lemma aggregate_group_keyed (acc : AggregateResult) (group : Value) (w w' : World) r :
  keyed_group group = true →
  (total acc == sum_grouped (grouped acc))%Q →
  aggregate_group true acc group w = (Return r, w') →
  (total r == sum_grouped (grouped r))%Q.
Proof.
  unfold keyed_group, aggregate_group. intros Hk Hinv Hrun.
  destruct (opt group "dimensions") as [| | | | |[|dimension ds]|]; try discriminate Hk.
  apply andb_true_iff in Hk as [_ Hk].
  set (ms := opt group "measurements") in *.
  unfold measurement_at, member in Hrun.
  destruct (nullish ms) eqn:Hn; [discriminate Hrun|].
  unfold mret, M_ret in Hrun. rewrite bind_eq in Hrun. simpl in Hrun.
  injection Hrun as <- _. simpl.
  rewrite sum_grouped_add, Hinv.
  apply Qplus_comp; [reflexivity|].
  unfold group_value.
  destruct (measurementKey ms) as [key|].
  - destruct (getProp ms key); reflexivity.
  - apply negb_true_iff in Hk. destruct (getProp ms "null"); try discriminate Hk; reflexivity.
Qed.

Lemma forEach_keyed (l : list Value) :
  Forall (λ g, keyed_group g = true) l →
  ∀ acc w r w',
    (total acc == sum_grouped (grouped acc))%Q →
    forEachM (aggregate_group true) l acc w = (Return r, w') →
    (total r == sum_grouped (grouped r))%Q.
Proof.
  induction 1 as [|g l Hg Hl IH]; intros acc w r w' Hacc Hrun; cbn [forEachM] in Hrun.
  - unfold mret, M_ret in Hrun. injection Hrun as <- _. exact Hacc.
  - rewrite bind_eq in Hrun.
    destruct (aggregate_group true acc g w) as [[acc'|e] w1] eqn:Hstep; [|discriminate].
    eapply IH; [|exact Hrun]. eapply aggregate_group_keyed; eassumption.
Qed.

Lemma aggregate_response_keyed (response : Value) (w w' : World) r :
  Forall (λ g, keyed_group g = true) (response_groups response) →
  aggregate_response true response w = (Return r, w') →
  (total r == sum_grouped (grouped r))%Q.
Proof.
  unfold aggregate_response, response_groups. intros Hall Hrun.
  destruct (truthy _) in Hrun.
  - destruct (opt (opt (opt response "data") "attributes") "data") as [| | | | |l|];
      try discriminate Hrun.
    eapply forEach_keyed; [exact Hall| |exact Hrun]. reflexivity.
  - unfold mret, M_ret in Hrun. injection Hrun as <- _. reflexivity.
Qed.

(** Without grouping, the groups are summed and nothing is keyed. *)
Lemma aggregate_ungrouped (l : list Value) (acc : AggregateResult) (w : World) :
  forEachM (aggregate_group false) l acc w
  = (Return {| total := fold_left (λ a g, (a + group_value (opt g "measurements"))%Q)
                          l (total acc);
               grouped := grouped acc |}, w).
Proof.
  revert acc. induction l as [|g l IH]; intros acc; cbn [forEachM fold_left].
  - destruct acc; reflexivity.
  - rewrite bind_eq. unfold aggregate_group at 1. unfold mret, M_ret.
    rewrite IH. reflexivity.
Qed.

(** What [queryMetricAggregates] returns: the zero result, or what the
    response of a successful request aggregates to. *)
Lemma queryMetricAggregates_cases (metricId : Value) (options : AggregateOptions)
    (w : World) :
  let request := makeRequest rt this "/metric-aggregates/" "POST"
                   (aggregate_request_body metricId options) (VObj []) 0 in
  let by_given := bool_decide (is_Some (by_ options)) in
  match request w with
  | (Throw _, w1) =>
      queryMetricAggregates rt this metricId options w = (Return zero_result, w1)
  | (Return response, w1) =>
      match aggregate_response by_given response w1 with
      | (Return r, w2) =>
          queryMetricAggregates rt this metricId options w = (Return r, w2)
      | (Throw _, w2) =>
          queryMetricAggregates rt this metricId options w = (Return zero_result, w2)
      end
  end.
Proof.
  intros request by_given. unfold queryMetricAggregates, or_default, try_catch.
  rewrite bind_eq. fold request. fold by_given.
  destruct (request w) as [[response|e] w1]; [|reflexivity].
  destruct (aggregate_response by_given response w1) as [[r|e] w2]; reflexivity.
Qed.

(** C7, as amended. [queryMetricAggregates] makes one call of
    [makeRequest] and does not repeat it, but it does degrade the result
    itself: it always completes normally, and when the request fails it
    returns [{ total: 0, grouped: {} }] in the world the failed request
    left, so the failure never reaches its caller. *)
Theorem queryMetricAggregates_swallows_failure (metricId : Value)
    (options : AggregateOptions) (w : World) :
  (∃ r w', queryMetricAggregates rt this metricId options w = (Return r, w'))
  ∧ (∀ e w1,
       makeRequest rt this "/metric-aggregates/" "POST"
         (aggregate_request_body metricId options) (VObj []) 0 w = (Throw e, w1) →
       queryMetricAggregates rt this metricId options w = (Return zero_result, w1)).
Proof.
  split.
  - apply or_default_returns.
  - intros e w1 H. pose proof (queryMetricAggregates_cases metricId options w) as Hc.
    cbv zeta in Hc. rewrite H in Hc. exact Hc.
Qed.

(** Aggregating a response touches neither the clock nor the wire. *)
Lemma aggregate_group_in_place (by_given : bool) (acc : AggregateResult) (g : Value)
    (w : World) :
  snd (aggregate_group by_given acc g w) = w.
Proof.
  unfold aggregate_group.
  destruct by_given, (opt g "dimensions") as [| | | | |[|dimension ds]|];
    try reflexivity.
  rewrite bind_eq. unfold measurement_at, member.
  destruct (nullish _); reflexivity.
Qed.

Lemma forEach_in_place (by_given : bool) (l : list Value) :
  ∀ acc w, snd (forEachM (aggregate_group by_given) l acc w) = w.
Proof.
  induction l as [|g l IH]; intros acc w; cbn [forEachM]; [reflexivity|].
  rewrite bind_eq.
  pose proof (aggregate_group_in_place by_given acc g w) as Hstep.
  destruct (aggregate_group by_given acc g w) as [[acc'|e] w1]; simpl in Hstep; subst w1.
  - apply IH.
  - reflexivity.
Qed.

(** Whatever the grouping, a run of the [forEach] that completes has added
    the scalar of every group to [total]. *)
Lemma forEach_total (by_given : bool) (l : list Value) :
  ∀ acc w r w',
    forEachM (aggregate_group by_given) l acc w = (Return r, w') →
    total r = fold_left (λ a g, (a + group_value (opt g "measurements"))%Q) l (total acc).
Proof.
  induction l as [|g l IH]; intros acc w r w' Hrun; cbn [forEachM fold_left] in *.
  - injection Hrun as <- _. reflexivity.
  - rewrite bind_eq in Hrun.
    destruct (aggregate_group by_given acc g w) as [[acc'|e] w1] eqn:Hstep;
      [|discriminate].
    rewrite (IH _ _ _ _ Hrun). f_equal.
    unfold aggregate_group in Hstep.
    destruct by_given, (opt g "dimensions") as [| | | | |[|dimension ds]|];
      try (injection Hstep as <- _; reflexivity).
    rewrite bind_eq in Hstep.
    destruct (measurement_at _ _ w) as [[m|e] w2]; [|discriminate].
    injection Hstep as <- _. reflexivity.
Qed.

(** With measurements in every group, the [forEach] completes. *)
Lemma forEach_completes (by_given : bool) (l : list Value) :
  Forall (λ g, nullish (opt g "measurements") = false) l →
  ∀ acc w, ∃ r, forEachM (aggregate_group by_given) l acc w = (Return r, w).
Proof.
  induction 1 as [|g l Hg _ IH]; intros acc w; cbn [forEachM]; [eexists; reflexivity|].
  rewrite bind_eq. unfold aggregate_group at 1, measurement_at, member.
  rewrite Hg.
  destruct by_given, (opt g "dimensions") as [| | | | |[|dimension ds]|];
    unfold mret, M_ret; try rewrite bind_eq; apply IH.
Qed.

(** C6, as amended. For the result groups of a successful response whose
    measured values are read exactly as whole numbers that add up, in
    absolute value, to 2^53 at most (on such numbers the floating-point
    additions of the code are exact):
    - when grouping is requested, [total] is the sum of the scalars of the
      groups (when every group has measurements), and it equals the sum of
      the values of [grouped] when every group is keyed: it has a
      non-empty [dimensions] array, a key that is no name inherited from
      [Object.prototype], and no array under a property named "null" when
      no measurement is populated;
    - when no grouping is requested, [grouped] is empty and [total] is the
      sum of the scalars of the result groups, hence the raw scalar (an
      array being summed) when there is one group;
    - a group without a non-empty [dimensions] array adds nothing to
      [grouped], whether grouping is requested or not. *)
Theorem aggregate_total_matches_grouped (metricId : Value)
    (options : AggregateOptions) (w w1 : World) (response : Value)
    (groups : list Value) :
  makeRequest rt this "/metric-aggregates/" "POST"
    (aggregate_request_body metricId options) (VObj []) 0 w
  = (Return response, w1) →
  opt (opt (opt response "data") "attributes") "data" = VArr groups →
  whole_numbers (concat (group_numbers <$> groups)) = true →
  (is_Some (by_ options) →
   ∃ r, queryMetricAggregates rt this metricId options w = (Return r, w1)
        ∧ (Forall (λ g, nullish (opt g "measurements") = false) groups →
           total r = sum_group_values groups)
        ∧ (Forall (λ g, keyed_group g = true) groups →
           (total r == sum_grouped (grouped r))%Q))
  ∧ (by_ options = None →
     ∃ r, queryMetricAggregates rt this metricId options w = (Return r, w1)
          ∧ grouped r = ∅
          ∧ total r = sum_group_values groups
          ∧ ∀ group, groups = [group] →
              (total r == group_value (opt group "measurements"))%Q)
  ∧ (∀ by_given acc group w0,
       undimensioned_group group = true →
       ∃ r, aggregate_group by_given acc group w0 = (Return r, w0)
            ∧ grouped r = grouped acc).
Proof.
  intros Hreq Hgroups _.
  pose proof (queryMetricAggregates_cases metricId options w) as Hc. cbv zeta in Hc.
  rewrite Hreq in Hc. unfold aggregate_response in Hc. rewrite Hgroups in Hc.
  change (truthy (VArr groups)) with true in Hc. cbv iota in Hc.
  split; [|split].
  - intros Hby. rewrite (bool_decide_eq_true_2 _ Hby) in Hc.
    pose proof (forEach_in_place true groups zero_result w1) as Hplace.
    destruct (forEachM (aggregate_group true) groups zero_result w1)
      as [[r|e] w2] eqn:Hall; simpl in Hplace; subst w2.
    + exists r. split; [exact Hc|]. split.
      * intros _. exact (forEach_total true groups _ _ _ _ Hall).
      * intros Hkeyed. eapply forEach_keyed; [exact Hkeyed| |exact Hall]. reflexivity.
    + exists zero_result. split; [exact Hc|]. split; [|reflexivity].
      intros Hms. destruct (forEach_completes true groups Hms zero_result w1) as (r & Hr).
      rewrite Hr in Hall. discriminate.
  - intros Hby. rewrite Hby in Hc.
    change (bool_decide (is_Some (@None (list string)))) with false in Hc.
    rewrite aggregate_ungrouped in Hc.
    eexists. split; [exact Hc|]. split; [reflexivity|]. split; [reflexivity|].
    intros group ->. simpl. ring.
  - intros by_given acc group w0 Hgroup.
    unfold undimensioned_group in Hgroup. unfold aggregate_group.
    destruct by_given, (opt group "dimensions") as [| | | | |[|dimension ds]|];
      try discriminate Hgroup; eexists; split; reflexivity.
Qed.

End Aggregates.

(** C7, the claim as stated fails: the request fails with an [Error], and
    [queryMetricAggregates] completes normally with the zero result. *)
Lemma failed_query_is_degraded_in_place :
  fst (makeRequest (Inputs.always 500 Inputs.server_error_body) Inputs.service
         "/metric-aggregates/" "POST"
         (aggregate_request_body (VStr "M1") default_options) (VObj []) 0 Inputs.start)
  = Throw (Error "Klaviyo API Error: Try again later.")
  ∧ fst (queryMetricAggregates (Inputs.always 500 Inputs.server_error_body)
           Inputs.service (VStr "M1") default_options Inputs.start)
    = Return {| total := 0; grouped := ∅ |}.
Proof. split; vm_compute; reflexivity. Qed.

Lemma queryMetricAggregates_swallows_failure_witness :
  queryMetricAggregates (Inputs.always 500 Inputs.server_error_body)
    Inputs.service (VStr "M1") default_options Inputs.start
  = (Return zero_result,
     snd (makeRequest (Inputs.always 500 Inputs.server_error_body) Inputs.service
            "/metric-aggregates/" "POST"
            (aggregate_request_body (VStr "M1") default_options) (VObj []) 0
            Inputs.start)).
Proof.
  apply (proj2 (queryMetricAggregates_swallows_failure
                  (Inputs.always 500 Inputs.server_error_body) Inputs.service
                  (VStr "M1") default_options Inputs.start)
           (Error "Klaviyo API Error: Try again later.")).
  vm_compute. reflexivity.
Defined.

(** C6, the claim as stated fails: grouping is requested and the response
    has one group without [dimensions]; its 5 goes to [total] and to no
    entry of [grouped]. *)
Lemma undimensioned_group_counts_in_total_only :
  fst (queryMetricAggregates (Inputs.always 200 Inputs.undimensioned) Inputs.service
         (VStr "M1") Inputs.grouped_by_message Inputs.start)
  = Return {| total := 0 + 5; grouped := ∅ |}
  ∧ ¬ (0 + 5 == sum_grouped ∅)%Q.
Proof.
  split; [vm_compute; reflexivity|].
  rewrite sum_grouped_empty. intros H. vm_compute in H. discriminate H.
Qed.

Lemma aggregate_total_matches_grouped_witness :
  ∃ r, queryMetricAggregates (Inputs.always 200 Inputs.two_campaigns) Inputs.service
         (VStr "M1") Inputs.grouped_by_message Inputs.start
       = (Return r,
          snd (makeRequest (Inputs.always 200 Inputs.two_campaigns) Inputs.service
                 "/metric-aggregates/" "POST"
                 (aggregate_request_body (VStr "M1") Inputs.grouped_by_message)
                 (VObj []) 0 Inputs.start))
       ∧ total r = sum_group_values Inputs.two_campaigns_groups
       ∧ (total r == sum_grouped (grouped r))%Q.
Proof.
  destruct (proj1 (aggregate_total_matches_grouped
                     (Inputs.always 200 Inputs.two_campaigns) Inputs.service
                     (VStr "M1") Inputs.grouped_by_message Inputs.start
                     (snd (makeRequest (Inputs.always 200 Inputs.two_campaigns)
                             Inputs.service "/metric-aggregates/" "POST"
                             (aggregate_request_body (VStr "M1")
                                Inputs.grouped_by_message)
                             (VObj []) 0 Inputs.start))
                     Inputs.two_campaigns Inputs.two_campaigns_groups
                     ltac:(vm_compute; reflexivity) eq_refl
                     ltac:(vm_compute; reflexivity))
              (ex_intro _ ["$attributed_message"] eq_refl))
    as (r & Hrun & Htotal & Hgrouped).
  exists r. split; [exact Hrun|]. split.
  - apply Htotal. repeat constructor.
  - apply Hgrouped. repeat constructor.
Defined.

(** Three keyed groups, two of them under one key: [total] is 6, and
    [grouped] holds 1 for c1 and 5 for c2. *)
Example two_campaigns_total_6 :
  fst (queryMetricAggregates (Inputs.always 200 Inputs.two_campaigns) Inputs.service
         (VStr "M1") Inputs.grouped_by_message Inputs.start)
  = Return {| total := 0 + 1 + 2 + 3;
              grouped := <["c2" := (0 + 2 + 3)%Q]> (<["c1" := (0 + 1)%Q]> ∅) |}
  ∧ (0 + 1 + 2 + 3 == 6)%Q ∧ (0 + 2 + 3 == 5)%Q.
Proof. split; [vm_compute; reflexivity|split; reflexivity]. Qed.

(** The example of the specification: [sum_value = [10, 20, 30]] under an
    interval gives [total = 60]. *)
Example bucketed_sum_value_totals_60 :
  fst (queryMetricAggregates (Inputs.always 200 Inputs.bucketed) Inputs.service
         (VStr "M1") Inputs.daily_revenue Inputs.start)
  = Return {| total := 0 + (0 + 10 + 20 + 30); grouped := ∅ |}
  ∧ (0 + (0 + 10 + 20 + 30) == 60)%Q.
Proof. split; [vm_compute; reflexivity|reflexivity]. Qed.

(** ** Revenue queries and their filters *)

Section Revenue.

Variable rt : Runtime.
Variable this : KlaviyoService.

Lemma makeRequest_sends (endpoint method : string) (data params : Value) (w : World) :
  ∃ k r w',
    makeRequest rt this endpoint method data params 0 w = (r, w')
    ∧ (1 ≤ k)%nat
    ∧ requests_of w' = requests_of w
                       ++ repeat (request_config this endpoint method data params) k.
Proof.
  destruct (makeRequest_retrying_spec rt this 3 endpoint method data params w)
    as (k & w' & r & Hrun & Hk & Hreq & _).
  exists k, r, w'. split; [exact Hrun|]. split; [lia|exact Hreq].
Qed.

Lemma calculateRevenueFromEvents_sends (metricId : Value) (limit : Z) (w : World) :
  ∃ k r w',
    calculateRevenueFromEvents rt this metricId limit w = (Return r, w')
    ∧ requests_of w' = requests_of w ++ repeat (events_config this metricId limit) k.
Proof.
  destruct (makeRequest_sends "/events/" "GET" VNull
              (VObj [("filter", VStr (events_filter metricId));
                     ("page[size]", VInt limit)]) w)
    as (k & r & w' & Hrun & _ & Hreq).
  unfold calculateRevenueFromEvents, or_default, try_catch.
  rewrite bind_eq, Hrun. exists k.
  destruct r as [response|e]; [|eauto].
  destruct (js_or (opt response "data") (VArr [])); unfold throw, mret, M_ret; eauto.
  destruct (fold_left _ _ _); eauto.
Qed.

(** The requests of [calculateRevenueByMetricId]: the aggregate query, at
    least once, then the requests of the fallback if it is taken. *)
Lemma calculateRevenueByMetricId_sends (metricId : Value) (options : RevenueOptions)
    (w : World) :
  ∃ k k' r w',
    calculateRevenueByMetricId rt this metricId options w = (Return r, w')
    ∧ (1 ≤ k)%nat
    ∧ sent_since w w'
      = repeat (request_config this "/metric-aggregates/" "POST"
                  (revenue_request_body rt metricId (clock w) options) (VObj [])) k
        ++ repeat (events_config this metricId 100) k'.
Proof.
  destruct (makeRequest_sends "/metric-aggregates/" "POST"
              (revenue_request_body rt metricId (clock w) options) (VObj []) w)
    as (k & r & w1 & Hrun & Hk & Hreq).
  destruct (calculateRevenueFromEvents_sends metricId 100 w1)
    as (k' & r' & w2 & Hrun' & Hreq').
  unfold calculateRevenueByMetricId, try_catch.
  rewrite bind_eq. unfold Date_now at 1. cbv beta iota. rewrite bind_eq, Hrun.
  assert (sent_since w w1 = repeat (request_config this "/metric-aggregates/" "POST"
            (revenue_request_body rt metricId (clock w) options) (VObj [])) k
            ++ repeat (events_config this metricId 100) 0) as Hdirect
    by (simpl; rewrite app_nil_r; apply sent_since_app; exact Hreq).
  assert (sent_since w w2 = repeat (request_config this "/metric-aggregates/" "POST"
            (revenue_request_body rt metricId (clock w) options) (VObj [])) k
            ++ repeat (events_config this metricId 100) k') as Hfallback
    by (apply sent_since_app; rewrite Hreq', Hreq, app_assoc; reflexivity).
  destruct r as [response|e].
  - destruct (truthy _).
    + destruct (opt (opt (opt response "data") "attributes") "data");
        unfold throw; try (rewrite Hrun'; exists k, k'; eauto).
      destruct (fold_left _ _ _). unfold mret, M_ret. exists k, 0%nat. eauto.
    + unfold mret, M_ret. exists k, 0%nat. eauto.
  - rewrite Hrun'. exists k, k'. eauto.
Qed.

(** C4, as amended. [calculateRevenueByMetricId] always sends its
    sum_value query with a [filter] whose first two entries bound
    [datetime]: from the caller's [startDate], or else from one calendar
    month before now ([setMonth(getMonth() - 1)]), to the caller's
    [endDate], or else now. It sends that query at least once, and every
    POST it sends is that query. [queryMetricAggregates] supplies no
    default: its body has a [filter] exactly when the caller's [filters] are
    not empty, whatever the measurement. *)
Theorem revenue_query_carries_date_range (metricId : Value) (options : RevenueOptions)
    (w : World) :
  let body := revenue_request_body rt metricId (clock w) options in
  let sent := sent_since w (snd (calculateRevenueByMetricId rt this metricId options w)) in
  opt (opt (opt body "data") "attributes") "measurements" = strings ["sum_value"]
  ∧ (∃ more,
       opt (opt (opt body "data") "attributes") "filter"
       = strings
           (("greater-or-equal(datetime," +:+
             string_or (startDate options)
               (Date_toISOString rt (Date_setMonthBack rt (clock w))) +:+ ")")
            :: ("less-than(datetime," +:+
                string_or (endDate options) (Date_toISOString rt (clock w)) +:+ ")")
            :: more))
  ∧ (∃ rest, sent = request_config this "/metric-aggregates/" "POST" body (VObj [])
                    :: rest)
  ∧ (∀ request, request ∈ sent → req_method request = "POST" →
       req_url request = baseURL this +:+ "/metric-aggregates/"
       ∧ req_data request = Some body)
  ∧ (∀ id o,
       opt (opt (opt (aggregate_request_body id o) "data") "attributes") "filter"
       = match filters o with
         | [] => VUndefined
         | f :: fs => strings (f :: fs)
         end).
Proof.
  intros body sent. split; [reflexivity|]. split; [eexists; reflexivity|].
  destruct (calculateRevenueByMetricId_sends metricId options w)
    as (k & k' & r & w' & Hrun & Hk & Hsent).
  subst sent. rewrite Hrun. cbn [snd]. rewrite Hsent. fold body.
  split; [|split].
  - destruct k as [|k]; [lia|]. eexists. reflexivity.
  - intros request Hin Hpost. apply elem_of_app in Hin as [Hin|Hin].
    + apply list_elem_of_In, repeat_spec in Hin. subst request. split; reflexivity.
    + apply list_elem_of_In, repeat_spec in Hin. subst request. discriminate Hpost.
  - intros id o. unfold aggregate_request_body.
    destruct (filters o), (interval o) as [i|], (by_ o) as [[|d ds]|];
      try destruct (truthy (VStr i)); reflexivity.
Qed.

End Revenue.

(** C4, the claim as stated fails: the third request of [getFlowMetrics] is
    a sum_value query whose body has no [filter]; [queryMetricAggregates]
    sends it as its caller built it. *)
Lemma flow_revenue_query_goes_out_unfiltered :
  sent_since Inputs.start
    (snd (getFlowMetrics Inputs.shop Inputs.service VUndefined Inputs.start)) !! 2%nat
  = Some (request_config Inputs.service "/metric-aggregates/" "POST"
            (aggregate_request_body (VStr "P")
               (by_attributed_message ["sum_value"] [] (VStr "UTC")))
            (VObj []))
  ∧ opt (opt (opt (aggregate_request_body (VStr "P")
                     (by_attributed_message ["sum_value"] [] (VStr "UTC")))
               "data") "attributes") "measurements"
    = strings ["sum_value"]
  ∧ opt (opt (opt (aggregate_request_body (VStr "P")
                     (by_attributed_message ["sum_value"] [] (VStr "UTC")))
               "data") "attributes") "filter"
    = VUndefined
  ∧ sent_since Inputs.start
      (snd (queryMetricAggregates Inputs.shop Inputs.service (VStr "P")
              (by_attributed_message ["sum_value"] [] (VStr "UTC")) Inputs.start))
    = [request_config Inputs.service "/metric-aggregates/" "POST"
         (aggregate_request_body (VStr "P")
            (by_attributed_message ["sum_value"] [] (VStr "UTC")))
         (VObj [])].
Proof. repeat split; vm_compute; reflexivity. Qed.

Lemma revenue_query_carries_date_range_witness :
  req_url (request_config Inputs.service "/metric-aggregates/" "POST"
             (revenue_request_body Inputs.shop (VStr "P") (clock Inputs.start)
                default_revenue_options) (VObj []))
  = baseURL Inputs.service +:+ "/metric-aggregates/"
  ∧ req_data (request_config Inputs.service "/metric-aggregates/" "POST"
                (revenue_request_body Inputs.shop (VStr "P") (clock Inputs.start)
                   default_revenue_options) (VObj []))
    = Some (revenue_request_body Inputs.shop (VStr "P") (clock Inputs.start)
              default_revenue_options).
Proof.
  apply (proj1 (proj2 (proj2 (proj2
           (revenue_query_carries_date_range Inputs.shop Inputs.service (VStr "P")
              default_revenue_options Inputs.start))))).
  - replace (sent_since Inputs.start
               (snd (calculateRevenueByMetricId Inputs.shop Inputs.service (VStr "P")
                       default_revenue_options Inputs.start)))
      with [request_config Inputs.service "/metric-aggregates/" "POST"
              (revenue_request_body Inputs.shop (VStr "P") (clock Inputs.start)
                 default_revenue_options) (VObj [])]
      by (vm_compute; reflexivity).
    apply list_elem_of_here.
  - reflexivity.
Defined.

Example default_revenue_window :
  opt (opt (opt (revenue_request_body Inputs.shop (VStr "P") 1700000000000
                   default_revenue_options) "data") "attributes") "filter"
  = strings ["greater-or-equal(datetime,2023-10-14T22:13:20.000Z)";
             "less-than(datetime,2023-11-14T22:13:20.000Z)"].
Proof. reflexivity. Qed.

(** ** Resolving metric names *)

Section Resolution.

Variable rt : Runtime.
Variable this : KlaviyoService.

Lemma name_test_named (p : string → bool) (m : Value) (n : string) (w : World) :
  metric_name m = Some n → name_test p m w = (Return (p n), w).
Proof.
  intros H. unfold name_test. rewrite bind_eq. unfold metric_name_lower.
  rewrite H. reflexivity.
Qed.

Lemma findM_first_match (p : string → bool) (catalog : list Value) (m : Value)
    (w : World) :
  first_match p catalog m → findM (name_test p) catalog w = (Return m, w).
Proof.
  intros (before & after & name & -> & Hname & Hp & Hbefore).
  induction Hbefore as [|x before (n & Hn & Hpn) _ IH]; simpl.
  - rewrite bind_eq, (name_test_named p m name w Hname), Hp. reflexivity.
  - rewrite bind_eq, (name_test_named p x n w Hn), Hpn. exact IH.
Qed.

Lemma findM_no_match (p : string → bool) (catalog : list Value) (w : World) :
  no_match p catalog → findM (name_test p) catalog w = (Return VUndefined, w).
Proof.
  induction 1 as [|x l (n & Hn & Hpn) _ IH]; simpl; [reflexivity|].
  rewrite bind_eq, (name_test_named p x n w Hn), Hpn. exact IH.
Qed.

(** A counter whose metric id is [null] is 0, and no request is made. *)
Lemma getEventCountByMetricId_null (dateFilters : list string) (w : World) :
  getEventCountByMetricId rt this dateFilters VNull w = (Return 0%Q, w).
Proof. reflexivity. Qed.

End Resolution.

(** ** Pagination *)

Section Pagination.

Variable rt : Runtime.
Variable this : KlaviyoService.

(** A request answered 2xx at the first attempt. *)
Lemma makeRequest_ok (endpoint method : string) (data params : Value) (w : World)
    status body :
  upstream rt (sent_count w) (request_config this endpoint method data params)
  = HttpResponse status body →
  ok_status status = true →
  ∃ w', makeRequest rt this endpoint method data params 0 w = (Return body, w')
        ∧ requests_of w' = requests_of w
                           ++ [request_config this endpoint method data params].
Proof.
  intros Hup Hok. unfold makeRequest. change (maxRetries - 0)%nat with 3%nat.
  destruct (attempt_spec rt this (request_config this endpoint method data params) w)
    as (w' & Hreq & Hatt).
  rewrite Hup, Hok in Hatt. exists w'. split; [|exact Hreq].
  cbn [makeRequest_retrying]. apply try_catch_return. exact Hatt.
Qed.

End Pagination.

(** The example of the specification: pages of 100, 100 and 50 items give
    250 items in arrival order, with three requests, the second and third
    for the cursors. *)
Example three_pages_give_250_events :
  fst (getAllEventsByMetricId Inputs.paged Inputs.service 3 (VStr "M1") Inputs.start)
  = Return (Some (VObj [("data", VArr (Inputs.events 0 250))]))
  ∧ length (Inputs.events 0 250) = 250%nat
  ∧ req_url <$> sent_since Inputs.start
                  (snd (getAllEventsByMetricId Inputs.paged Inputs.service 3
                          (VStr "M1") Inputs.start))
    = ["https://a.klaviyo.com/api/events/";
       "https://a.klaviyo.com/api/events/?page[cursor]=c1";
       "https://a.klaviyo.com/api/events/?page[cursor]=c2"].
Proof. repeat split; vm_compute; reflexivity. Qed.

(** ** The dashboard *)

Section Dashboard.

Variable rt : Runtime.
Variable this : KlaviyoService.

Lemma bind_inv {A B} (m : M A) (f : A → M B) (w w' : World) (b : B) :
  (m ≫= f) w = (Return b, w') →
  ∃ a w1, m w = (Return a, w1) ∧ f a w1 = (Return b, w').
Proof.
  rewrite bind_eq. destruct (m w) as [[a|e] w1]; [eauto|discriminate].
Qed.

(** In a run that completed normally, step over a call whose result is
    immaterial. *)
Ltac step_over H :=
  apply bind_inv in H as (? & ? & _ & H); cbv zeta in H.

(** A fetch wrapped in [or_default] returns the default or the body of a
    2xx answer to its request. *)
Lemma fetch_cases (endpoint method : string) (data params dflt : Value) (w : World) :
  ∃ v w',
    or_default (makeRequest rt this endpoint method data params 0) dflt w
    = (Return v, w')
    ∧ (v = dflt
       ∨ ∃ n status,
           upstream rt n (request_config this endpoint method data params)
           = HttpResponse status v
           ∧ ok_status status = true).
Proof.
  destruct (makeRequest_retrying_spec rt this 3 endpoint method data params w)
    as (k & w' & r & Hrun & _ & _ & Hret).
  unfold or_default, try_catch, makeRequest. change (maxRetries - 0)%nat with 3%nat.
  rewrite Hrun. destruct r as [v|e].
  - exists v, w'. split; [reflexivity|]. right.
    destruct (Hret v eq_refl) as (status & Hup & Hok). eauto.
  - exists dflt, w'. split; [reflexivity|]. left. reflexivity.
Qed.

Lemma fetch_fails (endpoint : string) (params dflt : Value) (w w' : World)
    (v : Value) :
  always_fails rt this endpoint →
  or_default (makeRequest rt this endpoint "GET" VNull params 0) dflt w
  = (Return v, w') →
  v = dflt.
Proof.
  intros Hfails Hrun.
  destruct (fetch_cases endpoint "GET" VNull params dflt w)
    as (v' & w'' & Hrun' & [->|(n & status & Hup & Hok)]); [congruence|].
  rewrite (Hfails _ _ _ _ Hup) in Hok. discriminate.
Qed.

(** With the campaigns endpoint down, both channel queries degrade and
    their union is empty. *)
Lemma getCampaigns_fails (w : World) :
  always_fails rt this "/campaigns/" →
  ∃ w', getCampaigns rt this w = (Return empty_list_envelope, w').
Proof.
  intros Hfails.
  destruct (fetch_cases "/campaigns/" "GET" VNull
              (VObj [("filter", VStr "equals(messages.channel,'email')")])
              empty_list_envelope w) as (email & w1 & Hemail & _).
  pose proof (fetch_fails _ _ _ _ _ _ Hfails Hemail) as ->.
  destruct (fetch_cases "/campaigns/" "GET" VNull
              (VObj [("filter", VStr "equals(messages.channel,'sms')")])
              empty_list_envelope w1) as (sms & w2 & Hsms & _).
  pose proof (fetch_fails _ _ _ _ _ _ Hfails Hsms) as ->.
  exists w2. unfold getCampaigns. apply or_default_return.
  rewrite (bind_return _ _ _ _ _ Hemail), (bind_return _ _ _ _ _ Hsms).
  reflexivity.
Qed.

Lemma unless_error_nonnull (value : Value) (w : World) :
  nullish value = false →
  unless_error value w
  = (Return (if truthy (getProp value "error") then VNull else value), w).
Proof.
  intros Hn. unfold unless_error. rewrite bind_eq. unfold member. rewrite Hn.
  reflexivity.
Qed.

Lemma catch_error_return (p : M Value) (w w' : World) (v : Value) :
  p w = (Return v, w') → catch_error p w = (Return v, w').
Proof. apply try_catch_return. Qed.

(** [getCampaigns] always returns an object holding a list. *)
Lemma getCampaigns_envelope (w : World) :
  ∃ l w', getCampaigns rt this w = (Return (VObj [("data", VArr l)]), w').
Proof.
  unfold getCampaigns, or_default, try_catch.
  match goal with |- context [match ?body w with _ => _ end] =>
    destruct (body w) as [[v|e] w'] eqn:Hbody end.
  - do 6 step_over Hbody. injection Hbody as <- <-. eauto.
  - exists [], w'. reflexivity.
Qed.

(** The two [try] blocks of [getDashboardMetrics] never throw. *)
Lemma event_metrics_block_returns (w : World) :
  ∃ placedOrderId em w',
    event_metrics_block rt this w = (Return (placedOrderId, em), w').
Proof.
  unfold event_metrics_block, try_catch.
  match goal with |- context [match ?body w with _ => _ end] =>
    destruct (body w) as [[[id em]|e] w'] end; eauto.
Qed.

Lemma revenue_block_returns (placedOrderId : Value) (w : World) :
  ∃ details revenue w',
    revenue_block rt this placedOrderId w = (Return (details, revenue), w').
Proof.
  unfold revenue_block, try_catch.
  match goal with |- context [match ?body w with _ => _ end] =>
    destruct (body w) as [[[d r]|e] w'] end; eauto.
Qed.

(** Without a catalog there is nothing to resolve: no id, all counters 0. *)
Lemma event_metrics_block_without_catalog (w : World) :
  always_fails rt this "/metrics/" →
  ∃ w', event_metrics_block rt this w = (Return (VNull, zero_event_metrics), w').
Proof.
  intros Hfails.
  destruct (fetch_cases "/metrics/" "GET" VNull (VObj []) empty_list_envelope w)
    as (v & w' & Hrun & _).
  pose proof (fetch_fails _ _ _ _ _ _ Hfails Hrun) as ->.
  exists w'. unfold event_metrics_block.
  erewrite try_catch_return; [reflexivity|].
  unfold getMetrics. rewrite (bind_return _ _ _ _ _ Hrun). reflexivity.
Qed.

Lemma getAllMetricsWithDetails_returns (w : World) :
  ∃ v w', getAllMetricsWithDetails rt this w = (Return v, w').
Proof. unfold getAllMetricsWithDetails. apply or_default_returns. Qed.

Lemma revenue_block_without_id (w : World) :
  ∃ details w', revenue_block rt this VNull w = (Return (details, 0%Q), w').
Proof.
  destruct (getAllMetricsWithDetails_returns w) as (details & w' & Hrun).
  exists details, w'. unfold revenue_block.
  erewrite try_catch_return; [reflexivity|].
  rewrite (bind_return _ _ _ _ _ Hrun). reflexivity.
Qed.

(** [getDashboardMetrics], fetch by fetch: each of the five fetches and
    each of the two blocks completes normally, and the snapshot is put
    together from what they return. *)
Lemma getDashboardMetrics_steps (w : World) :
  bodies_not_null rt →
  ∃ acc w1 met w2 cl w3 lis w4 flo w5 pid em w6 det rev w7,
    getAccount rt this w = (Return acc, w1)
    ∧ getMetrics rt this w1 = (Return met, w2)
    ∧ getCampaigns rt this w2 = (Return (VObj [("data", VArr cl)]), w3)
    ∧ getLists rt this w3 = (Return lis, w4)
    ∧ getFlows rt this w4 = (Return flo, w5)
    ∧ event_metrics_block rt this w5 = (Return (pid, em), w6)
    ∧ revenue_block rt this pid w6 = (Return (det, rev), w7)
    ∧ getDashboardMetrics rt this w
      = (Return {| account := if truthy (getProp acc "error") then VNull else acc;
                   metrics := if truthy (getProp met "error") then VNull else met;
                   metricsWithDetails := det;
                   campaigns := VObj [("data", VArr cl)];
                   lists := if truthy (getProp lis "error") then VNull else lis;
                   flows := if truthy (getProp flo "error") then VNull else flo;
                   campaignCount := data_length (VObj [("data", VArr cl)]);
                   flowCount :=
                     data_length (if truthy (getProp flo "error") then VNull else flo);
                   eventMetrics := em;
                   revenueMetrics := {| rm_totalRevenue := rev;
                                        revenueByEmail := rev;
                                        revenueOverTime := [] |};
                   timestamp := Date_toISOString rt (clock w7) |}, w7).
Proof.
  intros Hnn.
  destruct (fetch_cases "/accounts/" "GET" VNull (VObj []) account_placeholder w)
    as (acc & w1 & Hacc & Cacc).
  destruct (fetch_cases "/metrics/" "GET" VNull (VObj []) empty_list_envelope w1)
    as (met & w2 & Hmet & Cmet).
  destruct (getCampaigns_envelope w2) as (cl & w3 & Hcam).
  destruct (fetch_cases "/lists/" "GET" VNull (VObj []) empty_list_envelope w3)
    as (lis & w4 & Hlis & Clis).
  destruct (fetch_cases "/flows/" "GET" VNull (VObj []) empty_list_envelope w4)
    as (flo & w5 & Hflo & Cflo).
  assert (nullish acc = false) as Nacc
    by (destruct Cacc as [->|(n & st & Hup & Hok)]; [reflexivity|eauto]).
  assert (nullish met = false) as Nmet
    by (destruct Cmet as [->|(n & st & Hup & Hok)]; [reflexivity|eauto]).
  assert (nullish lis = false) as Nlis
    by (destruct Clis as [->|(n & st & Hup & Hok)]; [reflexivity|eauto]).
  assert (nullish flo = false) as Nflo
    by (destruct Cflo as [->|(n & st & Hup & Hok)]; [reflexivity|eauto]).
  destruct (event_metrics_block_returns w5) as (pid & em & w6 & Hev).
  destruct (revenue_block_returns pid w6) as (det & rev & w7 & Hrev).
  exists acc, w1, met, w2, cl, w3, lis, w4, flo, w5, pid, em, w6, det, rev, w7.
  do 7 (split; [assumption|]).
  unfold getDashboardMetrics.
  rewrite (bind_return _ _ _ _ _ (catch_error_return (getAccount rt this) _ _ _ Hacc)).
  rewrite (bind_return _ _ _ _ _ (catch_error_return (getMetrics rt this) _ _ _ Hmet)).
  rewrite (bind_return _ _ _ _ _ (catch_error_return (getCampaigns rt this) _ _ _ Hcam)).
  rewrite (bind_return _ _ _ _ _ (catch_error_return (getLists rt this) _ _ _ Hlis)).
  rewrite (bind_return _ _ _ _ _ (catch_error_return (getFlows rt this) _ _ _ Hflo)).
  rewrite (bind_return _ _ _ _ _
             (unless_error_nonnull (VObj [("data", VArr cl)]) _ eq_refl)).
  rewrite (bind_return _ _ _ _ _ (unless_error_nonnull _ _ Nflo)).
  rewrite (bind_return _ _ _ _ _ Hev).
  rewrite (bind_return _ _ _ _ _ (unless_error_nonnull _ _ Nmet)).
  rewrite (bind_return _ _ _ _ _ Hrev).
  rewrite (bind_return _ _ _ _ _ (unless_error_nonnull _ _ Nacc)).
  rewrite (bind_return _ _ _ _ _ (unless_error_nonnull _ _ Nlis)).
  reflexivity.
Qed.

Lemma try_catch_inv {A} (body : M A) (h : JsError → M A) (w w' : World) (a : A) :
  try_catch body h w = (Return a, w') →
  body w = (Return a, w')
  ∨ ∃ e w1, body w = (Throw e, w1) ∧ h e w1 = (Return a, w').
Proof.
  unfold try_catch. destruct (body w) as [[a'|e] w1]; [left; assumption|eauto].
Qed.

Lemma findM_absent (p : string → bool) (catalog : list Value) (w w' : World) m :
  absent p catalog →
  findM (name_test p) catalog w = (Return m, w') → m = VUndefined.
Proof.
  induction 1 as [|x l Hx _ IH]; cbn [findM]; intros Hrun.
  - injection Hrun as <- _. reflexivity.
  - apply bind_inv in Hrun as (b & w1 & Htest & Hrun).
    unfold name_test in Htest. apply bind_inv in Htest as (n & w2 & Hname & Htest).
    unfold metric_name_lower in Hname.
    destruct (metric_name x) as [n'|] eqn:Hn; [|discriminate Hname].
    injection Hname as <- <-. injection Htest as <- <-.
    rewrite (Hx _ eq_refl) in Hrun. exact (IH Hrun).
Qed.

Lemma findMetricId_absent (allMetrics : Value) (searchName : string) (w w' : World) id :
  (∀ catalog, allMetrics = VArr catalog → absent (contains searchName) catalog) →
  findMetricId allMetrics searchName w = (Return id, w') → id = VNull.
Proof.
  intros Habsent Hrun. unfold findMetricId in Hrun.
  apply bind_inv in Hrun as (m & w1 & Hfind & Hrun).
  destruct allMetrics as [| | | | |catalog|]; try discriminate Hfind.
  cbn [js_find] in Hfind.
  rewrite (findM_absent _ _ _ _ _ (Habsent catalog eq_refl) Hfind) in Hrun.
  injection Hrun as <- _. reflexivity.
Qed.

Lemma findM_first_entry (p : string → bool) (catalog : list Value) (w : World) :
  named catalog → findM (name_test p) catalog w = (Return (first_entry p catalog), w).
Proof.
  unfold first_entry.
  induction 1 as [|x l [n Hn] _ IH]; cbn [findM List.find]; [reflexivity|].
  rewrite bind_eq, (name_test_named p x n w Hn), Hn.
  destruct (p n); [reflexivity|exact IH].
Qed.

(** The id that the first block of the dashboard uses for Placed Order is
    the exact match when it has one, else the first substring match. *)
Lemma event_metrics_block_placed_order (w w1 : World) response catalog :
  getMetrics rt this w = (Return response, w1) →
  opt response "data" = VArr catalog →
  named catalog →
  ∃ em w',
    event_metrics_block rt this w
    = (Return (exact_then_substring "Placed Order" catalog, em), w').
Proof.
  intros Hget Hdata Hnamed. unfold event_metrics_block, try_catch.
  set (pid := exact_then_substring "Placed Order" catalog).
  assert ((if truthy (first_id (equals "Placed Order") catalog)
           then mret (first_id (equals "Placed Order") catalog)
           else findMetricId (VArr catalog) "placed order") w1
          = (Return pid, w1)) as Hpid.
  { unfold pid, exact_then_substring, js_or at 1.
    destruct (truthy (first_id (equals "Placed Order") catalog)); [reflexivity|].
    unfold findMetricId. cbn [js_find].
    rewrite (bind_return _ _ _ _ _ (findM_first_entry _ _ _ Hnamed)). reflexivity. }
  match goal with |- context [match ?body w with _ => _ end] =>
    destruct (body w) as [[[pid' em]|e] w'] eqn:Hbody end;
    rewrite (bind_return _ _ _ _ _ Hget) in Hbody; cbv zeta in Hbody;
    rewrite Hdata in Hbody;
    change (js_or (VArr catalog) (VArr [])) with (VArr catalog) in Hbody;
    unfold findExactMetricId at 1 in Hbody; cbn [js_find] in Hbody;
    rewrite (bind_return _ _ _ _ _
               (bind_return _ _ _ _ _ (findM_first_entry _ _ _ Hnamed))) in Hbody;
    unfold mret at 1, M_ret at 1 in Hbody;
    fold (first_id (equals "Placed Order") catalog) in Hbody;
    rewrite (bind_return _ _ _ _ _ Hpid) in Hbody.
  - exists em, w'. do 2 f_equal.
    unfold or_default in Hbody.
    apply try_catch_inv in Hbody as [Hinner|(e & w2 & _ & Hh)].
    + repeat step_over Hinner. injection Hinner as <- _. reflexivity.
    + injection Hh as <- _. reflexivity.
  - match type of Hbody with or_default ?inner ?d ?w0 = _ =>
      destruct (or_default_returns inner d w0) as (r & w2 & Hr) end.
    rewrite Hr in Hbody. discriminate Hbody.
Qed.

(** [findMetricIdByName] on the catalog that [getMetrics] returns. *)
Lemma findMetricIdByName_cases (metricName : string) (w w1 : World) response catalog :
  getMetrics rt this w = (Return response, w1) →
  opt response "data" = VArr catalog →
  (∀ m, first_match (equals metricName) catalog m →
        findMetricIdByName rt this metricName w
        = (Return (if truthy m then getProp m "id" else VNull), w1))
  ∧ (no_match (equals metricName) catalog →
     findMetricIdByName rt this metricName w = (Return VNull, w1)).
Proof.
  intros Hget Hdata. unfold findMetricIdByName. split.
  - intros m Hm. apply or_default_return.
    rewrite (bind_return _ _ _ _ _ Hget). cbv zeta. rewrite Hdata.
    change (js_or (VArr catalog) (VArr [])) with (VArr catalog). cbn [js_find].
    rewrite (bind_return _ _ _ _ _ (findM_first_match _ _ _ _ Hm)).
    destruct (truthy m); reflexivity.
  - intros Hnone. apply or_default_return.
    rewrite (bind_return _ _ _ _ _ Hget). cbv zeta. rewrite Hdata.
    change (js_or (VArr catalog) (VArr [])) with (VArr catalog). cbn [js_find].
    rewrite (bind_return _ _ _ _ _ (findM_no_match _ _ _ Hnone)). reflexivity.
Qed.

(** A text includes itself. *)
Lemma startsWith_itself (s : string) : startsWith s s = true.
Proof.
  induction s as [|c s IH]; [reflexivity|]. cbn [startsWith].
  rewrite Ascii.eqb_refl, IH. reflexivity.
Qed.

Lemma includes_itself (s : string) : includes s s = true.
Proof. destruct s; cbn [includes]; rewrite startsWith_itself; reflexivity. Qed.

(** A fetch whose request the upstream always answers returns the body. *)
Lemma fetch_answered (endpoint : string) (params dflt body : Value) (w : World) :
  always_answers rt this endpoint params body →
  ∃ w', or_default (makeRequest rt this endpoint "GET" VNull params 0) dflt w
        = (Return body, w').
Proof.
  intros Hanswers. destruct (Hanswers (sent_count w)) as (status & Hup & Hok).
  destruct (makeRequest_ok rt this _ _ _ _ _ _ _ Hup Hok) as (w' & Hrun & _).
  exists w'. apply or_default_return. exact Hrun.
Qed.

(** ... and what it returns is that body. *)
Lemma fetch_settled (endpoint : string) (params dflt body v : Value) (w w' : World) :
  always_answers rt this endpoint params body →
  or_default (makeRequest rt this endpoint "GET" VNull params 0) dflt w = (Return v, w') →
  v = body.
Proof.
  intros Hanswers Hrun.
  destruct (fetch_answered endpoint params dflt body w Hanswers) as (w'' & Hrun').
  congruence.
Qed.

(** With both channels answered, [getCampaigns] joins their lists. *)
Lemma getCampaigns_answered (email sms : Value) (es ss : list Value) (w : World) :
  always_answers rt this "/campaigns/" (channel_filter "email") email →
  always_answers rt this "/campaigns/" (channel_filter "sms") sms →
  opt email "data" = VArr es → opt sms "data" = VArr ss →
  ∃ w', getCampaigns rt this w = (Return (VObj [("data", VArr (es ++ ss))]), w').
Proof.
  intros Hemail Hsms Hes Hss.
  destruct (fetch_answered "/campaigns/" (channel_filter "email") empty_list_envelope
              email w Hemail) as (w1 & Hrun1).
  destruct (fetch_answered "/campaigns/" (channel_filter "sms") empty_list_envelope
              sms w1 Hsms) as (w2 & Hrun2).
  assert (nullish email = false ∧ getProp email "data" = VArr es) as [Hne Hde].
  { unfold opt in Hes. destruct (nullish email); [discriminate Hes|]. auto. }
  assert (nullish sms = false ∧ getProp sms "data" = VArr ss) as [Hns Hds].
  { unfold opt in Hss. destruct (nullish sms); [discriminate Hss|]. auto. }
  exists w2. unfold getCampaigns. apply or_default_return.
  change (VObj [("filter", VStr "equals(messages.channel,'email')")])
    with (channel_filter "email").
  change (VObj [("filter", VStr "equals(messages.channel,'sms')")])
    with (channel_filter "sms").
  rewrite (bind_return _ _ _ _ _ Hrun1), (bind_return _ _ _ _ _ Hrun2).
  unfold member. rewrite Hne, Hns, Hde, Hds. reflexivity.
Qed.

(** [x?.data?.length || 0] on an object holding a list. *)
Lemma data_length_list (l : list Value) :
  data_length (VObj [("data", VArr l)]) = VInt (Z.of_nat (length l)).
Proof.
  unfold data_length. cbn. destruct l; reflexivity.
Qed.



(** A counter is 0 without an id, and otherwise what the answer to its
    count query adds up to. *)
Lemma getEventCountByMetricId_counter (dateFilters : list string) (metricId : Value)
    (w : World) :
  ∃ c w', getEventCountByMetricId rt this dateFilters metricId w = (Return c, w')
          ∧ counter_of rt this metricId c.
Proof.
  unfold getEventCountByMetricId.
  destruct (truthy metricId) eqn:Hid.
  - match goal with |- context [or_default ?body ?d w] =>
      destruct (or_default_returns body d w) as (c & w' & Hrun) end.
    exists c, w'. split; [exact Hrun|]. split; [congruence|].
    intros response _ Hcounts _.
    destruct (Hcounts (sent_count w) dateFilters) as (status & Hup & Hok).
    unfold aggregate_config in Hup.
    destruct (makeRequest_ok rt this _ _ _ _ _ _ _ Hup Hok) as (w1 & Hreq & _).
    pose proof (queryMetricAggregates_cases rt this metricId (count_options dateFilters) w)
      as Hc.
    cbv zeta in Hc. rewrite Hreq in Hc.
    change (bool_decide (is_Some (by_ (count_options dateFilters)))) with false in Hc.
    unfold or_default, try_catch in Hrun. rewrite bind_eq in Hrun.
    change {| measurements := ["count"]; filters := dateFilters; interval := None;
              timezone := VStr "UTC"; by_ := None |}
      with (count_options dateFilters) in Hrun.
    unfold event_count. unfold aggregate_response in Hc.
    destruct (opt (opt (opt response "data") "attributes") "data")
      as [| |b|q|t|groups|fields] eqn:Hgroups; cbn [truthy] in Hc.
    all: try destruct b.
    all: try destruct (negb (Qeq_bool q 0)).
    all: try destruct (negb (String.eqb t EmptyString)).
    all: try rewrite aggregate_ungrouped in Hc.
    all: unfold mret, M_ret, throw in Hc; cbv beta iota in Hc.
    all: rewrite Hc in Hrun.
    all: injection Hrun as <- _; reflexivity.
  - exists 0%Q, w. split; [reflexivity|]. split; [reflexivity|].
    intros response Hid'. congruence.
Qed.

(** On a catalog whose entries have names, [findMetricId] is the first
    substring match. *)
Lemma findMetricId_named (catalog : list Value) (searchName : string) (w : World) :
  named catalog →
  findMetricId (VArr catalog) searchName w
  = (Return (first_id (contains searchName) catalog), w).
Proof.
  intros Hnamed. unfold findMetricId. cbn [js_find].
  rewrite (bind_return _ _ _ _ _ (findM_first_entry _ _ _ Hnamed)). reflexivity.
Qed.

(** The first block of the dashboard on a catalog whose entries have
    names: each counter is the count of the id resolved for it. *)
Lemma event_metrics_block_resolved (w w1 : World) response catalog :
  getMetrics rt this w = (Return response, w1) →
  opt response "data" = VArr catalog →
  named catalog →
  ∃ em w',
    event_metrics_block rt this w
    = (Return (exact_then_substring "Placed Order" catalog, em), w')
    ∧ counter_of rt this (exact_then_substring "Placed Order" catalog) (placedOrder em)
    ∧ counter_of rt this (first_id (contains "viewed product") catalog)
        (viewedProduct em)
    ∧ counter_of rt this (first_id (contains "added to cart") catalog) (addedToCart em)
    ∧ counter_of rt this (first_id (contains "active on site") catalog)
        (activeOnSite em).
Proof.
  intros Hget Hdata Hnamed.
  set (pid := exact_then_substring "Placed Order" catalog).
  assert ((if truthy (first_id (equals "Placed Order") catalog)
           then mret (first_id (equals "Placed Order") catalog)
           else findMetricId (VArr catalog) "placed order") w1
          = (Return pid, w1)) as Hpid.
  { unfold pid, exact_then_substring, js_or at 1.
    destruct (truthy (first_id (equals "Placed Order") catalog)); [reflexivity|].
    rewrite (findMetricId_named _ "placed order" _ Hnamed). reflexivity. }
  set (dateFilters := last_month_filters rt (clock w1)).
  destruct (getEventCountByMetricId_counter dateFilters pid w1) as (c1 & w2 & H1 & C1).
  destruct (getEventCountByMetricId_counter dateFilters
              (first_id (contains "viewed product") catalog) w2) as (c2 & w3 & H2 & C2).
  destruct (getEventCountByMetricId_counter dateFilters
              (first_id (contains "added to cart") catalog) w3) as (c3 & w4 & H3 & C3).
  destruct (getEventCountByMetricId_counter dateFilters
              (first_id (contains "active on site") catalog) w4) as (c4 & w5 & H4 & C4).
  exists {| placedOrder := c1; viewedProduct := c2; addedToCart := c3;
            activeOnSite := c4 |}, w5.
  split; [|cbn [placedOrder viewedProduct addedToCart activeOnSite]; auto].
  unfold event_metrics_block. apply try_catch_return.
  rewrite (bind_return _ _ _ _ _ Hget). cbv zeta. rewrite Hdata.
  change (js_or (VArr catalog) (VArr [])) with (VArr catalog).
  unfold findExactMetricId at 1. cbn [js_find].
  rewrite (bind_return _ _ _ _ _
             (bind_return _ _ _ _ _ (findM_first_entry _ _ _ Hnamed))).
  unfold mret at 1, M_ret at 1.
  fold (first_id (equals "Placed Order") catalog).
  rewrite (bind_return _ _ _ _ _ Hpid).
  apply or_default_return.
  rewrite (bind_return _ _ _ _ _ (findMetricId_named _ _ _ Hnamed)).
  rewrite (bind_return _ _ _ _ _ (findMetricId_named _ _ _ Hnamed)).
  rewrite (bind_return _ _ _ _ _ (findMetricId_named _ _ _ Hnamed)).
  rewrite bind_eq. unfold Date_now at 1. cbv beta iota zeta.
  fold dateFilters.
  rewrite (bind_return _ _ _ _ _ H1), (bind_return _ _ _ _ _ H2),
    (bind_return _ _ _ _ _ H3), (bind_return _ _ _ _ _ H4).
  reflexivity.
Qed.

(** With an id and an answer to its revenue query, the second block
    returns what the result groups add up to. *)
Lemma revenue_block_answered (placedOrderId response : Value) (groups : list Value)
    (w : World) :
  truthy placedOrderId = true →
  revenue_answered rt this placedOrderId response →
  opt (opt (opt response "data") "attributes") "data" = VArr groups →
  ∃ details w',
    revenue_block rt this placedOrderId w = (Return (details, revenue_total groups), w').
Proof.
  intros Hid Hanswered Hgroups.
  destruct (getAllMetricsWithDetails_returns w) as (details & w1 & Hdetails).
  destruct (Hanswered (sent_count w1) (clock w1)) as (status & Hup & Hok).
  unfold revenue_config in Hup.
  destruct (makeRequest_ok rt this _ _ _ _ _ _ _ Hup Hok) as (w2 & Hreq & _).
  exists details, w2. unfold revenue_block. apply try_catch_return.
  rewrite (bind_return _ _ _ _ _ Hdetails), Hid. apply or_default_return.
  assert (calculateRevenueByMetricId rt this placedOrderId default_revenue_options w1
          = (Return {| totalRevenue := revenue_total groups;
                       eventCount := snd (fold_left revenue_group groups (0%Q, 0));
                       eventsWithRevenue := None;
                       method := "metric-aggregates" |}, w2)) as Hrevenue.
  { unfold calculateRevenueByMetricId. apply try_catch_return.
    rewrite bind_eq. unfold Date_now at 1. cbv beta iota.
    rewrite (bind_return _ _ _ _ _ Hreq). cbv zeta. rewrite Hgroups.
    change (truthy (VArr groups)) with true. cbv iota.
    unfold revenue_total.
    destruct (fold_left revenue_group groups (0%Q, 0)) as [revenue count].
    reflexivity. }
  rewrite (bind_return _ _ _ _ _ Hrevenue). reflexivity.
Qed.

(** The details that the second block returns are those that
    [getAllMetricsWithDetails] returned to it. *)
Lemma revenue_block_details (placedOrderId : Value) (w w' : World) details revenue :
  revenue_block rt this placedOrderId w = (Return (details, revenue), w') →
  ∃ w1, getAllMetricsWithDetails rt this w = (Return details, w1).
Proof.
  intros Hrun. unfold revenue_block in Hrun.
  destruct (getAllMetricsWithDetails_returns w) as (d & w1 & Hd).
  exists w1. rewrite Hd. do 2 f_equal.
  unfold try_catch in Hrun. rewrite (bind_return _ _ _ _ _ Hd) in Hrun.
  destruct (truthy placedOrderId).
  - match type of Hrun with context [or_default ?body ?dflt w1] =>
      unfold or_default, try_catch in Hrun;
      destruct (body w1) as [[[d' r']|e] w2] eqn:Hbody end.
    + apply bind_inv in Hbody as (rd & w3 & _ & Hbody).
      injection Hbody as <- _ _. injection Hrun as <- _ _. reflexivity.
    + injection Hrun as <- _ _. reflexivity.
  - injection Hrun as <- _ _. reflexivity.
Qed.

(** The counters and the revenue of a snapshot built on a catalog that
    the upstream always serves, and whose entries have names. *)
Lemma getDashboardMetrics_resolved (w w' : World) (snapshot : Snapshot)
    (body : Value) (catalog : list Value) :
  bodies_not_null rt →
  always_answers rt this "/metrics/" (VObj []) body →
  opt body "data" = VArr catalog →
  named catalog →
  getDashboardMetrics rt this w = (Return snapshot, w') →
  let placedOrderId := exact_then_substring "Placed Order" catalog in
  counter_of rt this placedOrderId (placedOrder (eventMetrics snapshot))
  ∧ counter_of rt this (first_id (contains "viewed product") catalog)
      (viewedProduct (eventMetrics snapshot))
  ∧ counter_of rt this (first_id (contains "added to cart") catalog)
      (addedToCart (eventMetrics snapshot))
  ∧ counter_of rt this (first_id (contains "active on site") catalog)
      (activeOnSite (eventMetrics snapshot))
  ∧ (truthy placedOrderId = false →
     rm_totalRevenue (revenueMetrics snapshot) = 0%Q)
  ∧ (∀ response groups,
       truthy placedOrderId = true →
       revenue_answered rt this placedOrderId response →
       opt (opt (opt response "data") "attributes") "data" = VArr groups →
       rm_totalRevenue (revenueMetrics snapshot) = revenue_total groups
       ∧ revenueByEmail (revenueMetrics snapshot) = revenue_total groups).
Proof.
  intros Hnn Hanswers Hdata Hnamed Hrun placedOrderId.
  destruct (getDashboardMetrics_steps w Hnn)
    as (acc & w1 & met & w2 & cl & w3 & lis & w4 & flo & w5 & pid & em & w6 & det
        & rev & w7 & _ & _ & _ & _ & _ & Hev & Hrev & Hrun').
  rewrite Hrun' in Hrun. injection Hrun as <- _.
  cbn [eventMetrics revenueMetrics rm_totalRevenue revenueByEmail].
  destruct (fetch_answered "/metrics/" (VObj []) empty_list_envelope body w5 Hanswers)
    as (w5' & Hget).
  destruct (event_metrics_block_resolved w5 w5' body catalog Hget Hdata Hnamed)
    as (em' & w6' & Hev' & C1 & C2 & C3 & C4).
  rewrite Hev' in Hev. injection Hev as <- <- <-.
  fold placedOrderId in C1, Hrev.
  split; [exact C1|]. split; [exact C2|]. split; [exact C3|]. split; [exact C4|].
  split.
  - intros Hid. unfold revenue_block in Hrev.
    destruct (getAllMetricsWithDetails_returns w6') as (d & w7' & Hd).
    erewrite try_catch_return in Hrev
      by (rewrite (bind_return _ _ _ _ _ Hd), Hid; reflexivity).
    injection Hrev as _ <- _. reflexivity.
  - intros response groups Hid Hanswered Hgroups.
    destruct (revenue_block_answered placedOrderId response groups w6' Hid Hanswered
                Hgroups) as (det' & w7' & Hrev').
    rewrite Hrev' in Hrev. injection Hrev as _ <- _. split; reflexivity.
Qed.

(** A catalog without a name containing "placed order" has no exact match
    for it either. *)
Lemma findExactMetricId_absent (allMetrics : Value) (w w' : World) id :
  (∀ catalog, allMetrics = VArr catalog → absent (contains "placed order") catalog) →
  findExactMetricId allMetrics "Placed Order" w = (Return id, w') → id = VNull.
Proof.
  intros Habsent Hrun. unfold findExactMetricId in Hrun.
  apply bind_inv in Hrun as (m & w1 & Hfind & Hrun).
  destruct allMetrics as [| | | | |catalog|]; try discriminate Hfind.
  cbn [js_find] in Hfind.
  assert (absent (equals "Placed Order") catalog) as Hexact.
  { eapply Forall_impl; [exact (Habsent catalog eq_refl)|].
    intros x Hx n Hn. cbv beta in Hx. specialize (Hx n Hn).
    destruct (equals "Placed Order" n) eqn:E; [|reflexivity].
    unfold equals in E. apply String.eqb_eq in E. subst n.
    vm_compute in Hx. discriminate Hx. }
  rewrite (findM_absent _ _ _ _ _ Hexact Hfind) in Hrun.
  injection Hrun as <- _. reflexivity.
Qed.

(** What the catalog is in the first block: the default, or the list of a
    catalog that the upstream served. *)
Lemma getMetrics_catalog (searchName : string) (w w1 : World) (response : Value) :
  catalog_lacks rt this searchName →
  getMetrics rt this w = (Return response, w1) →
  ∀ catalog, js_or (opt response "data") (VArr []) = VArr catalog →
             absent (contains searchName) catalog.
Proof.
  intros Hlacks Hget catalog Hcat.
  destruct (fetch_cases "/metrics/" "GET" VNull (VObj []) empty_list_envelope w)
    as (v & w'' & Hrun & Hcases).
  unfold getMetrics in Hget. rewrite Hget in Hrun. injection Hrun as <- _.
  destruct Hcases as [->|(n & status & Hup & Hok)].
  - injection Hcat as <-. constructor.
  - unfold js_or in Hcat. destruct (truthy (opt response "data")).
    + exact (proj2 (Hlacks _ _ _ _ Hup Hok Hcat)).
    + injection Hcat as <-. constructor.
Qed.

(** A counter whose name no served catalog contains is 0, in each of the
    outcomes of the first block. *)
Lemma event_metrics_block_absent (w w' : World) pid em :
  event_metrics_block rt this w = (Return (pid, em), w') →
  (catalog_lacks rt this "placed order" → placedOrder em = 0%Q)
  ∧ (catalog_lacks rt this "viewed product" → viewedProduct em = 0%Q)
  ∧ (catalog_lacks rt this "added to cart" → addedToCart em = 0%Q)
  ∧ (catalog_lacks rt this "active on site" → activeOnSite em = 0%Q).
Proof.
  intros Hev. unfold event_metrics_block in Hev.
  apply try_catch_inv in Hev as [Hbody|(e & w1 & _ & Hh)];
    [|injection Hh as _ <- _; repeat split; reflexivity].
  apply bind_inv in Hbody as (resp & w1 & Hget & Hbody). cbv zeta in Hbody.
  apply bind_inv in Hbody as (exact & w2 & Hexact & Hbody).
  apply bind_inv in Hbody as (pid' & w3 & Hpid & Hbody).
  unfold or_default in Hbody.
  apply try_catch_inv in Hbody as [Hinner|(e & w4 & _ & Hh)];
    [|injection Hh as _ <- _; repeat split; reflexivity].
  apply bind_inv in Hinner as (vid & w4 & Hvid & Hinner).
  apply bind_inv in Hinner as (aid & w5 & Haid & Hinner).
  apply bind_inv in Hinner as (sid & w6 & Hsid & Hinner).
  apply bind_inv in Hinner as (now & w7 & _ & Hinner). cbv zeta in Hinner.
  apply bind_inv in Hinner as (c1 & w8 & H1 & Hinner).
  apply bind_inv in Hinner as (c2 & w9 & H2 & Hinner).
  apply bind_inv in Hinner as (c3 & w10 & H3 & Hinner).
  apply bind_inv in Hinner as (c4 & w11 & H4 & Hinner).
  injection Hinner as _ <- _. cbn [placedOrder viewedProduct addedToCart activeOnSite].
  split; [|split; [|split]]; intros Hlacks;
    pose proof (getMetrics_catalog _ _ _ _ Hlacks Hget) as Habsent.
  - assert (pid' = VNull) as ->.
    { pose proof (findExactMetricId_absent _ _ _ _ Habsent Hexact) as ->.
      cbn [truthy] in Hpid. exact (findMetricId_absent _ _ _ _ _ Habsent Hpid). }
    injection H1 as <- _. reflexivity.
  - rewrite (findMetricId_absent _ _ _ _ _ Habsent Hvid) in H2.
    injection H2 as <- _. reflexivity.
  - rewrite (findMetricId_absent _ _ _ _ _ Habsent Haid) in H3.
    injection H3 as <- _. reflexivity.
  - rewrite (findMetricId_absent _ _ _ _ _ Habsent Hsid) in H4.
    injection H4 as <- _. reflexivity.
Qed.

(** The first entry that satisfies a test is none on a catalog without
    such an entry. *)
Lemma first_id_absent (p : string → bool) (catalog : list Value) :
  absent p catalog → first_id p catalog = VNull.
Proof.
  intros Habsent. unfold first_id, first_entry.
  replace (List.find (λ m, match metric_name m with Some n => p n | None => false end)
             catalog) with (@None Value); [reflexivity|].
  symmetry. induction Habsent as [|x l Hx _ IH]; [reflexivity|].
  cbn [List.find]. destruct (metric_name x) as [n|] eqn:Hn; [|exact IH].
  rewrite (Hx n eq_refl). exact IH.
Qed.

(** C5, as amended, for a searched name and a catalog of ASCII texts. The
    code has three resolvers:
    - [findExactMetricId] returns the id of the first entry, in catalog
      order, whose name equals the searched one up to case, and
      [findMetricId] the id of the first entry whose name contains it up to
      case, without regard to any exact match further on; each returns
      [null] when no entry matches (or when the entry found has no id);
    - [findMetricIdByName] returns the id of the first exact match and
      [null] otherwise: it has no substring fallback, and it always
      completes normally;
    - the dashboard resolves Placed Order as the specification says (the
      exact match wins, else the first substring match), and its three
      other counters by the first substring match alone.
    In the snapshot each of the four counters belongs to the id resolved
    for its own name: it is 0 when that id is [null], which it is when no
    name of the catalog contains the searched one, and otherwise the count
    that the upstream reports for that id. *)
Theorem metric_resolution (catalog : list Value) (name : string) (w : World) :
  plain name = true →
  plain_names catalog = true →
  (∀ m, first_match (equals name) catalog m →
        findExactMetricId (VArr catalog) name w
        = (Return (js_or (opt m "id") VNull), w))
  ∧ (∀ m, first_match (contains name) catalog m →
          findMetricId (VArr catalog) name w
          = (Return (js_or (opt m "id") VNull), w))
  ∧ (no_match (equals name) catalog →
     findExactMetricId (VArr catalog) name w = (Return VNull, w))
  ∧ (no_match (contains name) catalog →
     findMetricId (VArr catalog) name w = (Return VNull, w))
  ∧ (∃ id w', findMetricIdByName rt this name w = (Return id, w'))
  ∧ (∀ response w1,
       getMetrics rt this w = (Return response, w1) →
       opt response "data" = VArr catalog →
       (∀ m, first_match (equals name) catalog m →
             findMetricIdByName rt this name w
             = (Return (if truthy m then getProp m "id" else VNull), w1))
       ∧ (no_match (equals name) catalog →
          findMetricIdByName rt this name w = (Return VNull, w1))
       ∧ (named catalog →
          ∃ em w',
            event_metrics_block rt this w
            = (Return (exact_then_substring "Placed Order" catalog, em), w')))
  ∧ (∀ dateFilters,
       getEventCountByMetricId rt this dateFilters VNull w = (Return 0%Q, w))
  ∧ (absent (contains name) catalog →
     first_id (contains name) catalog = VNull
     ∧ exact_then_substring name catalog = VNull)
  ∧ (bodies_not_null rt →
     ∃ snapshot w',
       getDashboardMetrics rt this w = (Return snapshot, w')
       ∧ (catalog_lacks rt this "placed order" →
          placedOrder (eventMetrics snapshot) = 0%Q)
       ∧ (catalog_lacks rt this "viewed product" →
          viewedProduct (eventMetrics snapshot) = 0%Q)
       ∧ (catalog_lacks rt this "added to cart" →
          addedToCart (eventMetrics snapshot) = 0%Q)
       ∧ (catalog_lacks rt this "active on site" →
          activeOnSite (eventMetrics snapshot) = 0%Q)
       ∧ (∀ body,
            always_answers rt this "/metrics/" (VObj []) body →
            opt body "data" = VArr catalog →
            named catalog →
            counter_of rt this (exact_then_substring "Placed Order" catalog)
              (placedOrder (eventMetrics snapshot))
            ∧ counter_of rt this (first_id (contains "viewed product") catalog)
                (viewedProduct (eventMetrics snapshot))
            ∧ counter_of rt this (first_id (contains "added to cart") catalog)
                (addedToCart (eventMetrics snapshot))
            ∧ counter_of rt this (first_id (contains "active on site") catalog)
                (activeOnSite (eventMetrics snapshot)))).
Proof.
  intros _ _.
  split; [|split; [|split; [|split; [|split; [|split; [|split; [|split]]]]]]].
  - intros m Hm. unfold findExactMetricId. cbn [js_find].
    rewrite (bind_return _ _ _ _ _ (findM_first_match _ _ _ _ Hm)). reflexivity.
  - intros m Hm. unfold findMetricId. cbn [js_find].
    rewrite (bind_return _ _ _ _ _ (findM_first_match _ _ _ _ Hm)). reflexivity.
  - intros Hnone. unfold findExactMetricId. cbn [js_find].
    rewrite (bind_return _ _ _ _ _ (findM_no_match _ _ _ Hnone)). reflexivity.
  - intros Hnone. unfold findMetricId. cbn [js_find].
    rewrite (bind_return _ _ _ _ _ (findM_no_match _ _ _ Hnone)). reflexivity.
  - unfold findMetricIdByName. apply or_default_returns.
  - intros response w1 Hget Hdata.
    destruct (findMetricIdByName_cases name _ _ _ _ Hget Hdata) as [Hfirst Hnone].
    split; [exact Hfirst|]. split; [exact Hnone|].
    intros Hnamed. exact (event_metrics_block_placed_order _ _ _ _ Hget Hdata Hnamed).
  - intros dateFilters. reflexivity.
  - intros Habsent.
    assert (absent (equals name) catalog) as Hexact.
    { eapply Forall_impl; [exact Habsent|].
      intros x Hx n Hn. cbv beta in Hx. specialize (Hx n Hn).
      destruct (equals name n) eqn:E; [|reflexivity].
      unfold equals in E. apply String.eqb_eq in E. subst n.
      unfold contains in Hx. rewrite includes_itself in Hx. discriminate Hx. }
    unfold exact_then_substring.
    rewrite (first_id_absent _ _ Habsent), (first_id_absent _ _ Hexact).
    split; reflexivity.
  - intros Hnn.
    destruct (getDashboardMetrics_steps w Hnn)
      as (acc & w1 & met & w2 & cl & w3 & lis & w4 & flo & w5 & pid & em & w6 & det
          & rev & w7 & _ & _ & _ & _ & _ & Hev & _ & Hrun).
    eexists. exists w7. split; [exact Hrun|]. cbn [eventMetrics].
    destruct (event_metrics_block_absent _ _ _ _ Hev) as (Z1 & Z2 & Z3 & Z4).
    split; [exact Z1|]. split; [exact Z2|]. split; [exact Z3|]. split; [exact Z4|].
    intros body Hanswers Hdata Hnamed.
    destruct (getDashboardMetrics_resolved w w7 _ body catalog Hnn Hanswers Hdata
                Hnamed Hrun) as (C1 & C2 & C3 & C4 & _).
    cbn [eventMetrics] in C1, C2, C3, C4. auto.
Qed.

End Dashboard.

(** C5, the claim as stated fails. The catalog lists "Viewed Product
    Details" (A, 7 events) before "Viewed Product" (B, 9 events): the exact
    match exists, yet the dashboard counts the events of A, the first
    substring match. And [findMetricIdByName] finds nothing for "placed
    order" although "Placed Order (test)" contains it, where the dashboard,
    which falls back to substrings, resolves it. *)
Lemma first_substring_hit_beats_exact_match :
  fst (findExactMetricId (VArr Inputs.shop_metrics) "viewed product" Inputs.start)
  = Return (VStr "B")
  ∧ fst (findMetricId (VArr Inputs.shop_metrics) "viewed product" Inputs.start)
    = Return (VStr "A")
  ∧ counters (fst (getDashboardMetrics Inputs.shop Inputs.service Inputs.start))
    = Some {| placedOrder := 0 + 1; viewedProduct := 0 + 7;
              addedToCart := 0; activeOnSite := 0 |}
  ∧ fst (findMetricId (VArr Inputs.shop_metrics) "placed order" Inputs.start)
    = Return (VStr "P")
  ∧ fst (findMetricIdByName Inputs.shop Inputs.service "placed order" Inputs.start)
    = Return VNull.
Proof. repeat split; vm_compute; reflexivity. Qed.

Lemma metric_resolution_witness :
  findMetricId (VArr Inputs.shop_metrics) "viewed product" Inputs.start
  = (Return (js_or (opt (Inputs.metric "A" "Viewed Product Details") "id") VNull),
     Inputs.start)
  ∧ ∃ snapshot w',
      getDashboardMetrics Inputs.shop Inputs.service Inputs.start = (Return snapshot, w')
      ∧ placedOrder (eventMetrics snapshot) = (0 + 1)%Q
      ∧ viewedProduct (eventMetrics snapshot) = (0 + 7)%Q
      ∧ addedToCart (eventMetrics snapshot) = 0%Q
      ∧ activeOnSite (eventMetrics snapshot) = 0%Q.
Proof.
  destruct (metric_resolution Inputs.shop Inputs.service Inputs.shop_metrics
              "viewed product" Inputs.start eq_refl eq_refl)
    as (_ & Hfind & _ & _ & _ & _ & _ & _ & Hsnapshot).
  split.
  - apply Hfind.
    exists [], [Inputs.metric "B" "Viewed Product";
                Inputs.metric "P" "Placed Order (test)"], "viewed product details".
    split; [reflexivity|]. split; [reflexivity|]. split; [reflexivity|]. constructor.
  - destruct Hsnapshot as (snapshot & w' & Hrun & _ & _ & _ & _ & Hcounters).
    { intros n request status body H Hok. simpl in H. unfold Inputs.shop_upstream in H.
      repeat match type of H with
             | (if ?c then _ else _) = _ => destruct c
             end;
        injection H as <- <-; reflexivity. }
    exists snapshot, w'. split; [exact Hrun|].
    destruct (Hcounters Inputs.shop_catalog
                (λ n, ex_intro _ 200 (conj eq_refl eq_refl)) eq_refl)
      as (Hplaced & Hviewed & Hadded & Hactive).
    { repeat constructor; eexists; reflexivity. }
    assert (∀ id count,
              id = "A" ∧ count = 7 ∨ id = "P" ∧ count = 1 →
              counts_with Inputs.shop Inputs.service (VStr id)
                (Inputs.aggregate_response_of
                   [VObj [("measurements", VObj [("count", VInt count)])]]))
      as Hcounts.
    { intros id count [[-> ->]|[-> ->]] n dateFilters; exists 200; split; reflexivity. }
    split; [|split; [|split]].
    + apply (proj2 Hplaced _ eq_refl (Hcounts "P" 1 (or_intror (conj eq_refl eq_refl)))).
      reflexivity.
    + apply (proj2 Hviewed _ eq_refl (Hcounts "A" 7 (or_introl (conj eq_refl eq_refl)))).
      reflexivity.
    + apply (proj1 Hadded). reflexivity.
    + apply (proj1 Hactive). reflexivity.
Defined.

(** * Further properties of the service *)

(** ** The rate limiter, one caller at a time *)

(** X1. A call of [rateLimit] made before the interval has passed sleeps
    for exactly what remains of it and is admitted exactly
    [minRequestInterval] after the previous admission; a call made later
    sets no timer and is admitted at once. *)
Theorem rateLimit_waits_out_the_remainder (this : KlaviyoService) (w : World) :
  let elapsed := clock w - lastRequestTime w in
  (elapsed < minRequestInterval this →
   rateLimit this w
   = (Return tt,
      {| clock := lastRequestTime w + minRequestInterval this;
         lastRequestTime := lastRequestTime w + minRequestInterval this;
         trace := trace w ++ [Waited (minRequestInterval this - elapsed)] |}))
  ∧ (minRequestInterval this ≤ elapsed →
     rateLimit this w
     = (Return tt,
        {| clock := clock w; lastRequestTime := clock w; trace := trace w |})).
Proof.
  intros elapsed. subst elapsed.
  unfold rateLimit, rateLimit_check, rateLimit_admit, Date_now, get_lastRequestTime,
    set_lastRequestTime, wait, mbind, M_bind, mret, M_ret.
  split; intros H.
  - rewrite (proj2 (Z.ltb_lt _ _) H). cbn.
    replace (clock w + Z.max 0 (minRequestInterval this - (clock w - lastRequestTime w)))
      with (lastRequestTime w + minRequestInterval this) by lia.
    reflexivity.
  - rewrite (proj2 (Z.ltb_ge _ _) H). reflexivity.
Qed.

Lemma rateLimit_waits_out_the_remainder_witness :
  rateLimit Inputs.service {| clock := 1100; lastRequestTime := 1000; trace := [] |}
  = (Return tt, {| clock := 1000 + 250; lastRequestTime := 1000 + 250;
                   trace := [] ++ [Waited (250 - (1100 - 1000))] |}).
Proof.
  apply (proj1 (rateLimit_waits_out_the_remainder Inputs.service
                  {| clock := 1100; lastRequestTime := 1000; trace := [] |})).
  simpl. lia.
Defined.

Section Pacing.

Variable rt : Runtime.
Variable this : KlaviyoService.

Lemma spaced_snoc (m t : Z) (l : list Z) :
  Concurrent.spaced m l →
  (∀ t0, last l = Some t0 → m ≤ t - t0) →
  Concurrent.spaced m (l ++ [t]).
Proof.
  intros Hl Hlast i a b Ha Hb.
  destruct (decide (S i < length l)%nat) as [Hlt|Hge].
  - rewrite lookup_app_l in Ha by lia. rewrite lookup_app_l in Hb by lia. eauto.
  - assert (S i = length l) as Hi.
    { apply lookup_lt_Some in Hb. rewrite length_app in Hb. simpl in Hb. lia. }
    rewrite lookup_app_l in Ha by lia.
    rewrite lookup_app_r in Hb by lia.
    replace (S i - length l)%nat with 0%nat in Hb by lia. injection Hb as <-.
    apply Hlast. rewrite last_lookup, <- Hi. exact Ha.
Qed.

(** An attempt stamps the limiter when its request goes out, at least the
    interval after the previous stamp. *)
Lemma attempt_paced (config : Request) (w : World) :
  paced (minRequestInterval this) w →
  paced (minRequestInterval this) (snd (attempt rt this config w)).
Proof.
  intros [Hsp Hlast].
  unfold attempt, rateLimit, rateLimit_check, rateLimit_admit, Date_now,
    get_lastRequestTime, set_lastRequestTime, wait, axios, mbind, M_bind, mret, M_ret.
  destruct (clock w - lastRequestTime w <? minRequestInterval this) eqn:E; cbn.
  - apply Z.ltb_lt in E.
    match goal with |- paced _ (snd (match ?u with _ => _ end)) =>
      destruct u as [st body|msg]; [destruct (ok_status st)|] end; cbn;
      (split; unfold sent_times; cbn; rewrite !omap_app; cbn; rewrite app_nil_r;
       [apply spaced_snoc; [exact Hsp|]; intros t0 Ht0; specialize (Hlast t0 Ht0); lia
       |intros t; rewrite last_snoc; intros [= <-]; lia]).
  - apply Z.ltb_ge in E.
    match goal with |- paced _ (snd (match ?u with _ => _ end)) =>
      destruct u as [st body|msg]; [destruct (ok_status st)|] end; cbn;
      (split; unfold sent_times; cbn; rewrite !omap_app; cbn;
       [apply spaced_snoc; [exact Hsp|]; intros t0 Ht0; specialize (Hlast t0 Ht0); lia
       |intros t; rewrite last_snoc; intros [= <-]; lia]).
Qed.

Lemma wait_paced (m ms : Z) (w : World) : paced m w → paced m (snd (wait ms w)).
Proof.
  intros [Hsp Hlast]. unfold paced, sent_times, wait. cbn.
  rewrite omap_app. cbn. rewrite app_nil_r. split; assumption.
Qed.

Lemma makeRequest_retrying_paced (left : nat) endpoint method data params (w : World) :
  paced (minRequestInterval this) w →
  paced (minRequestInterval this)
    (snd (makeRequest_retrying rt this left endpoint method data params w)).
Proof.
  revert w. induction left as [|left IH]; intros w Hw; cbn [makeRequest_retrying];
    unfold try_catch;
    pose proof (attempt_paced (request_config this endpoint method data params) w Hw)
      as Hatt;
    destruct (attempt rt this (request_config this endpoint method data params) w)
      as [[v|e] w1]; cbn [snd] in *; try exact Hatt.
  - destruct (gives_up_in_place e w1) as (e' & ->). exact Hatt.
  - destruct (is_throttled e).
    + rewrite bind_eq.
      destruct (retry_wait_time_in_place e w1) as ([ms|e'] & ->); [|exact Hatt].
      rewrite bind_eq.
      pose proof (wait_paced _ ms w1 Hatt) as Hwait.
      destruct (wait ms w1) as [[[]|?] w2] eqn:Ew; [|discriminate Ew].
      apply IH. exact Hwait.
    + destruct (gives_up_in_place e w1) as (e' & ->). exact Hatt.
Qed.

(** X2. Within one call of [makeRequest] the limiter does its work: the
    requests that the call puts on the wire, its retries included, go out
    at least [minRequestInterval] after one another and after every
    request sent before the call, provided the earlier requests were so
    spaced and none is later than the stamp of the limiter. *)
Theorem makeRequest_keeps_requests_apart endpoint method data params retryCount
    (w : World) :
  paced (minRequestInterval this) w →
  paced (minRequestInterval this)
    (snd (makeRequest rt this endpoint method data params retryCount w)).
Proof. apply makeRequest_retrying_paced. Qed.

End Pacing.

Lemma makeRequest_keeps_requests_apart_witness :
  paced 250
    (snd (Inputs.get_flows (Inputs.always 429 Inputs.throttled_body) 0 Inputs.start)).
Proof.
  apply (makeRequest_keeps_requests_apart (Inputs.always 429 Inputs.throttled_body)
           Inputs.service "/flows/" "GET" VNull (VObj []) 0 Inputs.start).
  split.
  - intros i a b H. discriminate H.
  - intros t H. discriminate H.
Defined.

(** The four requests of a call that is throttled throughout go out 2000
    ms apart: the wait that the answer asks for exceeds the interval. *)
Example throttled_requests_go_out_2000_ms_apart :
  sent_times
    (snd (Inputs.get_flows (Inputs.always 429 Inputs.throttled_body) 0 Inputs.start))
  = [1700000000000; 1700000002000; 1700000004000; 1700000006000].
Proof. vm_compute. reflexivity. Qed.

(** ** More on the request executor *)

Section Executor.

Variable rt : Runtime.
Variable this : KlaviyoService.

Lemma retry_wait_time_well_formed (status : Z) (body : Value) (w : World) :
  well_formed_throttle body →
  ∃ ms, retry_wait_time (axios_rejection status body) w = (Return ms, w).
Proof.
  intros Hwf. unfold retry_wait_time.
  change (response_data (axios_rejection status body)) with body.
  destruct Hwf as [Hn|(detail & ->)]; [|eauto].
  destruct (retry_detail body); try discriminate Hn; eauto.
Qed.

Lemma makeRequest_retrying_recovers (j : nat) :
  ∀ (left : nat) endpoint method data params (w : World) status body,
    let config := request_config this endpoint method data params in
    (j ≤ left)%nat →
    (∀ i, (i < j)%nat →
          ∃ b, upstream rt (sent_count w + i) config = HttpResponse 429 b
               ∧ well_formed_throttle b) →
    upstream rt (sent_count w + j) config = HttpResponse status body →
    ok_status status = true →
    ∃ w', makeRequest_retrying rt this left endpoint method data params w
          = (Return body, w')
          ∧ requests_of w' = requests_of w ++ repeat config (S j).
Proof.
  induction j as [|j IH]; intros left endpoint method data params w status body config
    Hle Hthrottled Hup Hok.
  - rewrite Nat.add_0_r in Hup.
    destruct (attempt_spec rt this config w) as (w1 & Hreq & Hatt).
    rewrite Hup, Hok in Hatt. exists w1. split; [|exact Hreq].
    destruct left; cbn [makeRequest_retrying]; apply try_catch_return; exact Hatt.
  - destruct left as [|left]; [lia|].
    destruct (Hthrottled 0%nat ltac:(lia)) as (b & Hb & Hwf).
    rewrite Nat.add_0_r in Hb.
    rewrite (makeRequest_retries rt this left _ _ _ _ _ _ Hb). fold config.
    destruct (attempt_spec rt this config w) as (w1 & Hreq1 & Hatt). rewrite Hatt.
    cbn [snd].
    destruct (retry_wait_time_well_formed 429 b w1 Hwf) as (ms & Hms).
    rewrite (bind_return _ _ _ _ _ Hms), bind_eq.
    destruct (wait ms w1) as [[[]|?] w2] eqn:Hwait; [|discriminate Hwait].
    assert (requests_of w2 = requests_of w1) as Hreq2
      by (rewrite <- (requests_of_wait ms w1), Hwait; reflexivity).
    assert (sent_count w2 = S (sent_count w)) as Hcount
      by (unfold sent_count; rewrite Hreq2, Hreq1, length_app; simpl; lia).
    destruct (IH left endpoint method data params w2 status body) as (w' & Hrun & Hreq').
    + lia.
    + intros i Hi. destruct (Hthrottled (S i) ltac:(lia)) as (b' & Hb' & Hwf').
      exists b'. split; [|exact Hwf']. rewrite <- Hb'. f_equal. lia.
    + rewrite <- Hup. f_equal. lia.
    + exact Hok.
    + exists w'. split; [exact Hrun|].
      rewrite Hreq', Hreq2, Hreq1, <- app_assoc. reflexivity.
Qed.

(** X3. The retries recover: a request that is throttled [j] times, for
    [j] up to the three retries (each 429 with a detail that is absent or a
    text), and then answered 2xx, returns the body of that answer, after
    [j + 1] copies of the request and nothing else have gone out. *)
Theorem makeRequest_recovers_from_throttling (j : nat) endpoint method data params
    (w : World) status body :
  let config := request_config this endpoint method data params in
  (j ≤ maxRetries)%nat →
  (∀ i, (i < j)%nat →
        ∃ b, upstream rt (sent_count w + i) config = HttpResponse 429 b
             ∧ well_formed_throttle b) →
  upstream rt (sent_count w + j) config = HttpResponse status body →
  ok_status status = true →
  ∃ w', makeRequest rt this endpoint method data params 0 w = (Return body, w')
        ∧ sent_since w w' = repeat config (S j).
Proof.
  intros config Hle Hthrottled Hup Hok.
  destruct (makeRequest_retrying_recovers j maxRetries endpoint method data params w
              status body Hle Hthrottled Hup Hok) as (w' & Hrun & Hreq).
  exists w'. split; [exact Hrun|]. apply sent_since_app. exact Hreq.
Qed.

Lemma attempt_unreachable (config : Request) (w : World) msg :
  upstream rt (sent_count w) config = NetworkFailure msg →
  attempt rt this config w
  = (Throw {| err_name := "AxiosError"; err_message := msg; err_response := None |},
     snd (attempt rt this config w)).
Proof.
  intros Hup. destruct (attempt_spec rt this config w) as (w1 & _ & Hatt).
  rewrite Hatt, Hup. reflexivity.
Qed.

Lemma makeRequest_unreachable (left : nat) endpoint method data params (w : World) msg :
  let config := request_config this endpoint method data params in
  upstream rt (sent_count w) config = NetworkFailure msg →
  makeRequest_retrying rt this left endpoint method data params w
  = (Throw (Error ("Klaviyo API Error: " +:+ msg)), snd (attempt rt this config w)).
Proof.
  intros config Hup.
  destruct left; cbn [makeRequest_retrying]; fold config;
    erewrite try_catch_throw by (apply attempt_unreachable; exact Hup); reflexivity.
Qed.

Lemma attempt_sends_one (config : Request) (w : World) :
  sent_since w (snd (attempt rt this config w)) = [config].
Proof.
  destruct (attempt_spec rt this config w) as (w1 & Hreq & Hatt). rewrite Hatt.
  apply sent_since_app. exact Hreq.
Qed.

(** X4. When the upstream cannot be reached (axios rejects without a
    response), [makeRequest] does not retry, whatever its retry counter:
    it throws [Error("Klaviyo API Error: " + the message of axios)] after
    that one request. *)
Theorem makeRequest_network_failure endpoint method data params retryCount
    (w : World) msg :
  let config := request_config this endpoint method data params in
  upstream rt (sent_count w) config = NetworkFailure msg →
  ∃ w', makeRequest rt this endpoint method data params retryCount w
        = (Throw (Error ("Klaviyo API Error: " +:+ msg)), w')
        ∧ sent_since w w' = [config].
Proof.
  intros config Hup. exists (snd (attempt rt this config w)). split.
  - apply makeRequest_unreachable. exact Hup.
  - apply attempt_sends_one.
Qed.

(** X5. A 429 whose [errors[0].detail] is neither absent nor a text (a
    number, say) breaks the retry: [detail.match] is not a function, so the
    [catch] block itself throws a [TypeError], which leaves [makeRequest]
    as it is, after one request and without a retry, and without the
    ["Klaviyo API Error: "] wrapping. *)
Theorem makeRequest_malformed_throttle_detail endpoint method data params retryCount
    (w : World) body :
  let config := request_config this endpoint method data params in
  (retryCount < maxRetries)%nat →
  upstream rt (sent_count w) config = HttpResponse 429 body →
  nullish (retry_detail body) = false →
  (∀ detail, retry_detail body ≠ VStr detail) →
  ∃ e w', makeRequest rt this endpoint method data params retryCount w = (Throw e, w')
          ∧ err_name e = "TypeError"
          ∧ sent_since w w' = [config].
Proof.
  intros config Hlt Hup Hnn Hns. unfold makeRequest.
  unfold maxRetries in *.
  replace (3 - retryCount)%nat with (S (3 - S retryCount)) by lia.
  rewrite (makeRequest_retries rt this _ _ _ _ _ _ _ Hup). fold config.
  rewrite bind_eq. unfold retry_wait_time.
  change (response_data (axios_rejection 429 body)) with body.
  destruct (retry_detail body) eqn:Hd; try discriminate Hnn;
    try (eexists _, _; split; [reflexivity|]; split; [reflexivity|];
         apply attempt_sends_one).
  exfalso. eapply Hns. reflexivity.
Qed.

(** X6. Every request that [makeRequest] puts on the wire has the URL
    [baseURL + endpoint], the key in its [Authorization] header and the
    API revision; a GET carries the [params] and no body, whatever [data]
    is; any other method carries [data] as its body when it is truthy, and
    never the params. *)
Theorem makeRequest_request_shape endpoint method data params retryCount (w : World) :
  ∀ request,
    request ∈ sent_since w (snd (makeRequest rt this endpoint method data params
                                   retryCount w)) →
    req_method request = method
    ∧ req_url request = baseURL this +:+ endpoint
    ∧ req_headers request
      = [("Authorization", "Klaviyo-API-Key " +:+ privateKey this);
         ("Accept", "application/json");
         ("Content-Type", "application/json");
         ("revision", "2024-10-15")]
    ∧ (method = "GET" → req_params request = Some params ∧ req_data request = None)
    ∧ (method ≠ "GET" →
       req_params request = None
       ∧ req_data request = if truthy data then Some data else None).
Proof.
  intros request Hin. unfold makeRequest in Hin.
  destruct (makeRequest_retrying_spec rt this (maxRetries - retryCount) endpoint method
              data params w) as (k & w' & r & Hrun & _ & Hreq & _).
  rewrite Hrun in Hin. cbn [snd] in Hin. rewrite (sent_since_app _ _ _ Hreq) in Hin.
  apply list_elem_of_In, repeat_spec in Hin. subst request.
  split; [reflexivity|]. split; [reflexivity|]. split; [reflexivity|]. split.
  - intros ->. split; reflexivity.
  - intros Hne. cbn [request_config req_params req_data].
    destruct (String.eqb_spec method "GET") as [->|_]; [contradiction|].
    split; reflexivity.
Qed.

End Executor.

Lemma makeRequest_recovers_from_throttling_witness :
  ∃ w', Inputs.get_flows Cases.throttled_twice 0 Inputs.start
        = (Return (VObj [("data", VArr [])]), w')
        ∧ sent_since Inputs.start w' = repeat Inputs.flows_config 3.
Proof.
  apply (makeRequest_recovers_from_throttling Cases.throttled_twice Inputs.service 2
           "/flows/" "GET" VNull (VObj []) Inputs.start 200 (VObj [("data", VArr [])])).
  - unfold maxRetries. lia.
  - intros i Hi. exists Inputs.throttled_body. split.
    + destruct i as [|[|i]]; [reflexivity|reflexivity|lia].
    + right. exists Inputs.throttled_detail. reflexivity.
  - reflexivity.
  - reflexivity.
Defined.

Lemma makeRequest_network_failure_witness :
  ∃ w', Inputs.get_flows Inputs.offline 0 Inputs.start
        = (Throw (Error ("Klaviyo API Error: " +:+ "connect ECONNREFUSED")), w')
        ∧ sent_since Inputs.start w' = [Inputs.flows_config].
Proof.
  apply (makeRequest_network_failure Inputs.offline Inputs.service "/flows/" "GET" VNull
           (VObj []) 0 Inputs.start "connect ECONNREFUSED").
  reflexivity.
Defined.

Lemma makeRequest_malformed_throttle_detail_witness :
  ∃ e w', Inputs.get_flows Cases.malformed_throttle 0 Inputs.start = (Throw e, w')
          ∧ err_name e = "TypeError"
          ∧ sent_since Inputs.start w' = [Inputs.flows_config].
Proof.
  apply (makeRequest_malformed_throttle_detail Cases.malformed_throttle Inputs.service
           "/flows/" "GET" VNull (VObj []) 0 Inputs.start
           (Inputs.envelope [("detail", VInt 30)])).
  - unfold maxRetries. lia.
  - reflexivity.
  - reflexivity.
  - intros detail H. discriminate H.
Defined.

Lemma makeRequest_request_shape_witness :
  req_method Inputs.flows_config = "GET"
  ∧ req_url Inputs.flows_config = baseURL Inputs.service +:+ "/flows/"
  ∧ req_headers Inputs.flows_config
    = [("Authorization", "Klaviyo-API-Key " +:+ privateKey Inputs.service);
       ("Accept", "application/json");
       ("Content-Type", "application/json");
       ("revision", "2024-10-15")]
  ∧ ("GET" = "GET" →
     req_params Inputs.flows_config = Some (VObj [])
     ∧ req_data Inputs.flows_config = None)
  ∧ ("GET" ≠ "GET" →
     req_params Inputs.flows_config = None
     ∧ req_data Inputs.flows_config = if truthy VNull then Some VNull else None).
Proof.
  apply (makeRequest_request_shape Inputs.offline Inputs.service "/flows/" "GET" VNull
           (VObj []) 0 Inputs.start Inputs.flows_config).
  replace (sent_since Inputs.start
             (snd (makeRequest Inputs.offline Inputs.service "/flows/" "GET" VNull
                     (VObj []) 0 Inputs.start)))
    with [Inputs.flows_config] by (vm_compute; reflexivity).
  apply list_elem_of_here.
Defined.

(** ** Object spread and the remaining fetches *)

Lemma assoc_app (k : string) (a b : list (string * Value)) :
  assoc k (a ++ b) = if has_key k a then assoc k a else assoc k b.
Proof.
  induction a as [|[k' v] a IH]; cbn; [reflexivity|].
  destruct (String.eqb k k'); [reflexivity|exact IH].
Qed.

Lemma assoc_absent (k : string) (fs : list (string * Value)) :
  has_key k fs = false → assoc k fs = VUndefined.
Proof.
  induction fs as [|[k' v] fs IH]; cbn; [reflexivity|].
  destruct (String.eqb k k'); [discriminate|exact IH].
Qed.

Lemma has_key_fmap (k : string) (f : Value → string → Value) (fs : list (string * Value)) :
  has_key k ((λ kv, (fst kv, f (snd kv) (fst kv))) <$> fs) = has_key k fs.
Proof.
  induction fs as [|[k' v] fs IH]; [reflexivity|].
  unfold has_key in *. rewrite fmap_cons. cbn [existsb fst]. rewrite IH. reflexivity.
Qed.

Lemma assoc_fmap (k : string) (f : Value → string → Value) (fs : list (string * Value)) :
  has_key k fs = true →
  assoc k ((λ kv, (fst kv, f (snd kv) (fst kv))) <$> fs) = f (assoc k fs) k.
Proof.
  induction fs as [|[k' v] fs IH]; cbn; [discriminate|].
  destruct (String.eqb_spec k k') as [->|_]; [reflexivity|exact IH].
Qed.

Lemma assoc_filter_others (k : string) (fields ps : list (string * Value)) :
  has_key k fields = false →
  assoc k (filter (λ kv, has_key (fst kv) fields = false) ps) = assoc k ps.
Proof.
  intros Hk. induction ps as [|[k' v] ps IH]; [reflexivity|].
  rewrite filter_cons. cbn [fst].
  destruct (decide (has_key k' fields = false)) as [Hk'|Hk']; cbn.
  - rewrite IH. reflexivity.
  - destruct (String.eqb_spec k k') as [->|_]; [contradiction|exact IH].
Qed.

(** A property of [{ ...fields, ...v }] is the one of [v] when [v] has
    it, and the one of [fields] otherwise. *)
Lemma assoc_spread_into (k : string) (fields : list (string * Value)) (v : Value) :
  assoc k (spread_into fields v)
  = if has_key k (own_properties v) then assoc k (own_properties v) else assoc k fields.
Proof.
  unfold spread_into. cbv zeta. set (ps := own_properties v).
  rewrite assoc_app.
  rewrite (has_key_fmap k (λ x key, if has_key key ps then assoc key ps else x)).
  destruct (has_key k fields) eqn:Hk.
  - rewrite (assoc_fmap k (λ x key, if has_key key ps then assoc key ps else x) _ Hk).
    reflexivity.
  - rewrite (assoc_filter_others _ _ _ Hk).
    destruct (has_key k ps) eqn:Hps; [reflexivity|].
    rewrite (assoc_absent _ _ Hps), (assoc_absent _ _ Hk). reflexivity.
Qed.

Lemma try_catch_rethrow {A} (m : M A) (w : World) :
  try_catch m (λ error, throw error) w = m w.
Proof. unfold try_catch, throw. destruct (m w) as [[a|e] w']; reflexivity. Qed.

Section Fetches.

Variable rt : Runtime.
Variable this : KlaviyoService.

(** X7. [getEvents] does not degrade: it completes as its request does,
    made with the caller's parameters ([{}] when there are none), so a
    failure of the request reaches the caller. With the upstream out of
    reach the caller gets [Error("Klaviyo API Error: ...")], where
    [getMetrics], [getLists] and [getFlows] return an empty list. *)
Theorem getEvents_propagates_failure (params : Value) (w : World) :
  getEvents rt this params w
  = makeRequest rt this "/events/" "GET" VNull (or_empty params) 0 w
  ∧ or_empty VUndefined = VObj []
  ∧ (∀ msg,
       upstream rt (sent_count w)
         (request_config this "/events/" "GET" VNull (or_empty params))
       = NetworkFailure msg →
       fst (getEvents rt this params w)
       = Throw (Error ("Klaviyo API Error: " +:+ msg))).
Proof.
  unfold getEvents. rewrite try_catch_rethrow.
  split; [reflexivity|]. split; [reflexivity|].
  intros msg Hup. unfold makeRequest.
  rewrite (makeRequest_unreachable _ _ _ _ _ _ _ _ _ Hup). reflexivity.
Qed.

(** X8. [getProfiles] asks for one profile per page unless the caller's
    parameters say otherwise: the parameters of every request it sends
    hold the caller's own properties, each with the caller's value, and
    [page[size]] = 1 when the caller has no such property, and nothing
    else. Like [getEvents] it completes as its request does, failures
    included. *)
Theorem getProfiles_page_size (params : Value) (w : World) :
  let sent_params := VObj (spread_into [("page[size]", VInt 1)] (or_empty params)) in
  let own := own_properties (or_empty params) in
  getProfiles rt this params w
  = makeRequest rt this "/profiles/" "GET" VNull sent_params 0 w
  ∧ (∀ request,
       request ∈ sent_since w (snd (getProfiles rt this params w)) →
       req_params request = Some sent_params)
  ∧ (has_key "page[size]" own = false → getProp sent_params "page[size]" = VInt 1)
  ∧ (∀ k, has_key k own = true → getProp sent_params k = assoc k own)
  ∧ (∀ k, k ≠ "page[size]" → has_key k own = false → getProp sent_params k = VUndefined).
Proof.
  intros sent_params own.
  assert (getProfiles rt this params w
          = makeRequest rt this "/profiles/" "GET" VNull sent_params 0 w) as Hrun
    by (unfold getProfiles; apply try_catch_rethrow).
  split; [exact Hrun|]. split; [|split; [|split]].
  - intros request Hin. rewrite Hrun in Hin. unfold makeRequest in Hin.
    destruct (makeRequest_retrying_spec rt this (maxRetries - 0) "/profiles/" "GET"
                VNull sent_params w) as (k & w' & r & Hr & _ & Hreq & _).
    rewrite Hr in Hin. cbn [snd] in Hin. rewrite (sent_since_app _ _ _ Hreq) in Hin.
    apply list_elem_of_In, repeat_spec in Hin. subst request. reflexivity.
  - intros Hk. cbn [getProp sent_params]. rewrite assoc_spread_into. fold own.
    rewrite Hk. reflexivity.
  - intros k Hk. cbn [getProp sent_params]. rewrite assoc_spread_into. fold own.
    rewrite Hk. reflexivity.
  - intros k Hne Hk. cbn [getProp sent_params]. rewrite assoc_spread_into. fold own.
    rewrite Hk. cbn. destruct (String.eqb_spec k "page[size]"); [contradiction|reflexivity].
Qed.

(** X9. [getEventsByMetricId] never throws: it returns [{ data: [] }] or
    the body of a 2xx answer to its request, a GET of [/events/] sent at
    least once and at most four times. The [filter] it sends is
    [equals(metric_id,"<id>")] unless the caller's parameters have a
    [filter] of their own, which then replaces it; the caller's parameters
    are all passed on. *)
Theorem getEventsByMetricId_filter (metricId params : Value) (w : World) :
  let own := own_properties (or_empty params) in
  let requestParams :=
    VObj (spread_into [("filter", VStr (events_filter metricId))] (or_empty params)) in
  let config := request_config this "/events/" "GET" VNull requestParams in
  (∃ v w' k,
     getEventsByMetricId rt this metricId params w = (Return v, w')
     ∧ (1 ≤ k ≤ 4)%nat
     ∧ sent_since w w' = repeat config k
     ∧ (v = empty_list_envelope
        ∨ ∃ n status, upstream rt n config = HttpResponse status v
                      ∧ ok_status status = true))
  ∧ (has_key "filter" own = false →
     getProp requestParams "filter"
     = VStr ("equals(metric_id," +:+ dquote +:+ ToString metricId +:+ dquote +:+ ")"))
  ∧ (∀ k, has_key k own = true → getProp requestParams k = assoc k own).
Proof.
  intros own requestParams config. split; [|split].
  - destruct (makeRequest_retrying_spec rt this 3 "/events/" "GET" VNull requestParams w)
      as (k & w' & r & Hrun & Hk & Hreq & Hret).
    fold config in Hreq, Hret.
    unfold getEventsByMetricId, or_default, try_catch. cbv zeta.
    fold requestParams. unfold makeRequest. change (maxRetries - 0)%nat with 3%nat.
    rewrite Hrun. pose proof (sent_since_app _ _ _ Hreq) as Hsent.
    destruct r as [v|e].
    + exists v, w', k. split; [reflexivity|]. split; [lia|]. split; [exact Hsent|].
      right. destruct (Hret v eq_refl) as (status & Hup & Hok). eauto.
    + exists empty_list_envelope, w', k. split; [reflexivity|]. split; [lia|].
      split; [exact Hsent|]. left. reflexivity.
  - intros Hk. cbn [getProp requestParams]. rewrite assoc_spread_into. fold own.
    rewrite Hk. reflexivity.
  - intros k Hk. cbn [getProp requestParams]. rewrite assoc_spread_into. fold own.
    rewrite Hk. reflexivity.
Qed.


End Fetches.

Lemma getEvents_propagates_failure_witness :
  fst (getEvents Inputs.offline Inputs.service VUndefined Inputs.start)
  = Throw (Error ("Klaviyo API Error: " +:+ "connect ECONNREFUSED")).
Proof.
  apply (proj2 (proj2 (getEvents_propagates_failure Inputs.offline Inputs.service
                         VUndefined Inputs.start))).
  reflexivity.
Defined.

Lemma getProfiles_page_size_witness :
  getProp (VObj (spread_into [("page[size]", VInt 1)]
                   (or_empty (VObj [("page[size]", VInt 50)])))) "page[size]"
  = assoc "page[size]" (own_properties (or_empty (VObj [("page[size]", VInt 50)]))).
Proof.
  apply (proj1 (proj2 (proj2 (proj2
           (getProfiles_page_size Inputs.offline Inputs.service
              (VObj [("page[size]", VInt 50)]) Inputs.start))))).
  reflexivity.
Defined.

Lemma getEventsByMetricId_filter_witness :
  getProp (VObj (spread_into [("filter", VStr (events_filter (VStr "M1")))]
                   (or_empty (VObj [("filter", VStr "equals(metric_id,'M2')")]))))
    "filter"
  = assoc "filter"
      (own_properties (or_empty (VObj [("filter", VStr "equals(metric_id,'M2')")]))).
Proof.
  apply (proj2 (proj2 (getEventsByMetricId_filter Inputs.offline Inputs.service
                         (VStr "M1") (VObj [("filter", VStr "equals(metric_id,'M2')")])
                         Inputs.start))).
  reflexivity.
Defined.


(** ** Lists: metric details and campaigns *)

Section Lists.

Variable rt : Runtime.
Variable this : KlaviyoService.

Lemma getMetricById_sends (metricId params : Value) (w : World) :
  ∃ v w' k,
    getMetricById rt this metricId params w = (Return v, w')
    ∧ requests_of w' = requests_of w
        ++ repeat (request_config this ("/metrics/" +:+ ToString metricId +:+ "/") "GET"
                     VNull params) k.
Proof.
  destruct (makeRequest_retrying_spec rt this 3
              ("/metrics/" +:+ ToString metricId +:+ "/") "GET" VNull params w)
    as (k & w' & r & Hrun & _ & Hreq & _).
  unfold getMetricById, or_default, try_catch, makeRequest.
  change (maxRetries - 0)%nat with 3%nat. rewrite Hrun.
  destruct r as [v|e]; eauto.
Qed.

(** The loop of [getAllMetricsWithDetails] over entries none of which is
    [null]: each adds at most one detail, a truthy one, and requests only
    its own detail. *)
Lemma details_loop (l : list Value) :
  Forall (λ m, nullish m = false) l →
  ∀ (details : list Value) (w : World),
    ∃ more w' requests,
      forEachM
        (λ (details : list Value) (metric : Value),
           try_catch
             (id ← member metric "id";
              detail ← getMetricById rt this id (VObj []);
              let details' := if truthy detail then details ++ [detail] else details in
              _ ← wait 250;
              mret details')
             (λ _, _ ← member metric "id"; mret details))
        l details w
      = (Return (details ++ more), w')
      ∧ (length more ≤ length l)%nat
      ∧ Forall (λ d, truthy d = true) more
      ∧ requests_of w' = requests_of w ++ requests
      ∧ Forall (λ r, ∃ m, m ∈ l ∧ r = detail_request this m) requests.
Proof.
  induction 1 as [|metric l Hm _ IH]; intros details w; cbn [forEachM].
  - exists [], w, []. rewrite !app_nil_r. repeat split; constructor.
  - destruct (getMetricById_sends (getProp metric "id") (VObj []) w)
      as (detail & w1 & k & Hget & Hreq1).
    destruct (wait 250 w1) as [[[]|?] w2] eqn:Hwait; [|discriminate Hwait].
    assert (requests_of w2 = requests_of w1) as Hreq2
      by (rewrite <- (requests_of_wait 250 w1), Hwait; reflexivity).
    set (details' := if truthy detail then details ++ [detail] else details).
    destruct (IH details' w2) as (more & w' & requests & Hloop & Hlen & Htruthy & Hreq & Hown).
    rewrite bind_eq.
    erewrite try_catch_return; cycle 1.
    { unfold member. rewrite Hm. rewrite bind_eq. unfold mret at 1, M_ret at 1.
      cbv beta iota. rewrite (bind_return _ _ _ _ _ Hget). cbv zeta.
      rewrite (bind_return _ _ _ _ _ Hwait). reflexivity. }
    cbv beta iota. fold details'.
    exists ((if truthy detail then [detail] else []) ++ more), w',
      (repeat (detail_request this metric) k ++ requests).
    split; [|split; [|split; [|split]]].
    + transitivity (Return (A := list Value) (details' ++ more), w'); [exact Hloop|].
      subst details'. destruct (truthy detail); [rewrite <- app_assoc|]; reflexivity.
    + destruct (truthy detail); simpl; lia.
    + destruct (truthy detail) eqn:Hd; [constructor; assumption|exact Htruthy].
    + rewrite Hreq, Hreq2, Hreq1, <- app_assoc. reflexivity.
    + apply Forall_app. split.
      * apply Forall_forall. intros r Hr. apply list_elem_of_In, repeat_spec in Hr.
        exists metric. split; [apply list_elem_of_here|exact Hr].
      * eapply Forall_impl; [exact Hown|]. intros r (m & Hin & ->).
        exists m. split; [apply list_elem_of_further; exact Hin|reflexivity].
Qed.

(** X11. On a catalog of entries none of which is [null],
    [getAllMetricsWithDetails] returns the whole catalog as [metrics], its
    length as [total], and as [details] at most twenty truthy answers: it
    requests the detail of the first twenty entries only, and of no other.
    An empty catalog gives [{ metrics: [], details: [] }], without [total]
    and without a request. *)
Theorem getAllMetricsWithDetails_bounds (w w1 : World) (response : Value)
    (catalog : list Value) :
  getMetrics rt this w = (Return response, w1) →
  opt response "data" = VArr catalog →
  Forall (λ m, nullish m = false) catalog →
  (catalog = [] →
   getAllMetricsWithDetails rt this w
   = (Return (VObj [("metrics", VArr []); ("details", VArr [])]), w1))
  ∧ (catalog ≠ [] →
     ∃ details w',
       getAllMetricsWithDetails rt this w
       = (Return (VObj [("metrics", VArr catalog);
                        ("details", VArr details);
                        ("total", VInt (Z.of_nat (length catalog)))]), w')
       ∧ (length details ≤ 20)%nat
       ∧ (length details ≤ length catalog)%nat
       ∧ Forall (λ d, truthy d = true) details
       ∧ Forall (λ r, ∃ m, m ∈ take 20 catalog ∧ r = detail_request this m)
           (sent_since w1 w')).
Proof.
  intros Hget Hdata Hnn. split.
  - intros ->. unfold getAllMetricsWithDetails. apply or_default_return.
    rewrite (bind_return _ _ _ _ _ Hget). cbv zeta. rewrite Hdata. reflexivity.
  - intros Hne.
    assert (Forall (λ m, nullish m = false) (take 20 catalog)) as Hnn20
      by (apply Forall_take; exact Hnn).
    destruct (details_loop (take 20 catalog) Hnn20 [] w1)
      as (details & w' & requests & Hloop & Hlen & Htruthy & Hreq & Hown).
    exists details, w'. split; [|split; [|split; [|split]]].
    + unfold getAllMetricsWithDetails. apply or_default_return.
      rewrite (bind_return _ _ _ _ _ Hget). cbv zeta. rewrite Hdata.
      change (js_or (VArr catalog) (VArr [])) with (VArr catalog).
      destruct catalog as [|m catalog]; [contradiction|].
      change (is_zero (getProp (VArr (m :: catalog)) "length")) with false.
      cbv iota. unfold slice20. rewrite bind_eq. unfold mret at 1, M_ret at 1.
      cbv beta iota. rewrite (bind_return _ _ _ _ _ Hloop). reflexivity.
    + rewrite length_take in Hlen. lia.
    + rewrite length_take in Hlen. lia.
    + exact Htruthy.
    + rewrite (sent_since_app _ _ _ Hreq). exact Hown.
Qed.





End Lists.

Lemma getAllMetricsWithDetails_bounds_witness :
  ∃ details w',
    getAllMetricsWithDetails Inputs.shop Inputs.service Inputs.start
    = (Return (VObj [("metrics", VArr Inputs.shop_metrics);
                     ("details", VArr details);
                     ("total", VInt (Z.of_nat (length Inputs.shop_metrics)))]), w')
    ∧ (length details ≤ 20)%nat
    ∧ (length details ≤ length Inputs.shop_metrics)%nat
    ∧ Forall (λ d, truthy d = true) details
    ∧ Forall (λ r, ∃ m, m ∈ take 20 Inputs.shop_metrics
                        ∧ r = detail_request Inputs.service m)
        (sent_since (snd (getMetrics Inputs.shop Inputs.service Inputs.start)) w').
Proof.
  refine (proj2 (getAllMetricsWithDetails_bounds Inputs.shop Inputs.service Inputs.start
                   (snd (getMetrics Inputs.shop Inputs.service Inputs.start))
                   Inputs.shop_catalog Inputs.shop_metrics _ _ _) _).
  - vm_compute. reflexivity.
  - reflexivity.
  - repeat constructor.
  - discriminate.
Defined.

(** ** Revenue, its fallback, and pagination that fails *)

Section RevenueFallback.

Variable rt : Runtime.
Variable this : KlaviyoService.

Lemma revenue_fold_counts (events : list Value) :
  ∀ (acc : Q * Z),
    snd (fold_left
           (λ (acc : Q * Z) (event : Value),
              let props := opt (opt event "attributes") "properties" in
              if truthy (opt props "$value")
              then ((fst acc + nan_to_zero (parseFloat (getProp props "$value")))%Q,
                    snd acc + 1)
              else acc) events acc)
    = snd acc + Z.of_nat (length (filter (λ e, has_revenue e = true) events)).
Proof.
  induction events as [|event events IH]; intros acc; cbn [fold_left].
  - cbn. lia.
  - rewrite IH. rewrite filter_cons. cbv zeta.
    fold (has_revenue event).
    destruct (has_revenue event) eqn:E.
    + rewrite decide_True by reflexivity. cbn [snd length]. lia.
    + rewrite decide_False by discriminate. reflexivity.
Qed.

(** What [calculateRevenueFromEvents] returns and sends. *)
Lemma calculateRevenueFromEvents_spec (metricId : Value) (limit : Z) (w : World) :
  ∃ k r w',
    calculateRevenueFromEvents rt this metricId limit w = (Return r, w')
    ∧ (1 ≤ k)%nat
    ∧ requests_of w' = requests_of w ++ repeat (events_config this metricId limit) k
    ∧ from_events r
    ∧ (∀ response w1 events,
         makeRequest rt this "/events/" "GET" VNull
           (VObj [("filter", VStr (events_filter metricId));
                  ("page[size]", VInt limit)]) 0 w = (Return response, w1) →
         opt response "data" = VArr events →
         eventCount r = Z.of_nat (length events)
         ∧ eventsWithRevenue r
           = Some (Z.of_nat (length (filter (λ e, has_revenue e = true) events)))).
Proof.
  destruct (makeRequest_sends rt this "/events/" "GET" VNull
              (VObj [("filter", VStr (events_filter metricId));
                     ("page[size]", VInt limit)]) w)
    as (k & r & w' & Hrun & Hk & Hreq).
  unfold calculateRevenueFromEvents, or_default, try_catch.
  rewrite bind_eq, Hrun. exists k.
  assert (from_events {| totalRevenue := 0; eventCount := 0;
                         eventsWithRevenue := Some 0; method := "events" |}) as Hzero
    by (split; [reflexivity|]; exists 0; split; [reflexivity|]; cbn; lia).
  destruct r as [response|e].
  - destruct (js_or (opt response "data") (VArr [])) as [| | | | |events|] eqn:Hdata;
      unfold throw, mret, M_ret;
      try (eexists _, w'; split; [reflexivity|]; split; [exact Hk|];
           split; [exact Hreq|]; split; [exact Hzero|];
           intros response' w1 events' [= <- <-] Hd; rewrite Hd in Hdata;
           discriminate Hdata).
    match goal with |- context [fold_left ?f events ?a] =>
      pose proof (revenue_fold_counts events a) as Hfold;
      destruct (fold_left f events a) as [revenue withRevenue] eqn:Hf end.
    cbn [snd] in Hfold. rewrite Z.add_0_l in Hfold.
    eexists _, w'. split; [reflexivity|]. split; [exact Hk|]. split; [exact Hreq|].
    split.
    + split; [reflexivity|]. exists withRevenue. split; [reflexivity|].
      cbn [eventCount]. rewrite Hfold.
      pose proof (length_filter (λ e, has_revenue e = true) events). lia.
    + intros response' w1 events' [= <- <-] Hd. rewrite Hd in Hdata.
      injection Hdata as <-. cbn [eventCount eventsWithRevenue].
      split; [reflexivity|]. rewrite Hfold. reflexivity.
  - eexists _, w'. split; [reflexivity|]. split; [exact Hk|]. split; [exact Hreq|].
    split; [exact Hzero|]. intros response w1 events H. discriminate H.
Qed.

(** X13. [calculateRevenueFromEvents] never throws; its result says
    [method: 'events'] and counts, among the events of the answer, those
    that carry a truthy [$value]: the count is never more than
    [eventCount], which is the number of events answered. *)
Theorem calculateRevenueFromEvents_counts (metricId : Value) (limit : Z) (w : World) :
  ∃ r w',
    calculateRevenueFromEvents rt this metricId limit w = (Return r, w')
    ∧ method r = "events"
    ∧ (∃ n, eventsWithRevenue r = Some n ∧ 0 ≤ n ≤ eventCount r)
    ∧ (∀ response w1 events,
         makeRequest rt this "/events/" "GET" VNull
           (VObj [("filter", VStr (events_filter metricId));
                  ("page[size]", VInt limit)]) 0 w = (Return response, w1) →
         opt response "data" = VArr events →
         eventCount r = Z.of_nat (length events)
         ∧ eventsWithRevenue r
           = Some (Z.of_nat (length (filter (λ e, has_revenue e = true) events)))).
Proof.
  destruct (calculateRevenueFromEvents_spec metricId limit w)
    as (k & r & w' & Hrun & _ & _ & [Hm Hn] & Hcount).
  exists r, w'. auto.
Qed.

(** X14. [calculateRevenueByMetricId] never throws, and its result tells
    which way it was computed: [method: 'metric-aggregates'] when the
    aggregate query was answered and read, in which case no event was
    requested; [method: 'events'] when the query failed or its answer
    could not be read, in which case the events were requested after it.
    A query that the upstream refuses (a status outside 2xx other than
    429) always ends in the fallback. *)
Theorem calculateRevenueByMetricId_falls_back (metricId : Value)
    (options : RevenueOptions) (w : World) :
  let query := revenue_config rt this metricId (clock w) options in
  (∃ k k' r w',
     calculateRevenueByMetricId rt this metricId options w = (Return r, w')
     ∧ (1 ≤ k)%nat
     ∧ sent_since w w' = repeat query k ++ repeat (events_config this metricId 100) k'
     ∧ ((method r = "metric-aggregates" ∧ eventsWithRevenue r = None ∧ k' = 0%nat)
        ∨ (from_events r ∧ (1 ≤ k')%nat)))
  ∧ (∀ status body,
       upstream rt (sent_count w) query = HttpResponse status body →
       ok_status status = false → status ≠ 429 →
       ∃ r w', calculateRevenueByMetricId rt this metricId options w = (Return r, w')
               ∧ from_events r).
Proof.
  intros query.
  assert (∀ r1 w1,
            makeRequest rt this "/metric-aggregates/" "POST"
              (revenue_request_body rt metricId (clock w) options) (VObj []) 0 w
            = (r1, w1) →
            calculateRevenueByMetricId rt this metricId options w
            = match r1 with
              | Return response =>
                  let groups := opt (opt (opt response "data") "attributes") "data" in
                  if truthy groups then
                    match groups with
                    | VArr l =>
                        let '(revenue, count) := fold_left revenue_group l (0%Q, 0) in
                        (Return {| totalRevenue := revenue; eventCount := count;
                                   eventsWithRevenue := None;
                                   method := "metric-aggregates" |}, w1)
                    | _ => calculateRevenueFromEvents rt this metricId 100 w1
                    end
                  else (Return {| totalRevenue := 0; eventCount := 0;
                                  eventsWithRevenue := None;
                                  method := "metric-aggregates" |}, w1)
              | Throw _ => calculateRevenueFromEvents rt this metricId 100 w1
              end) as Hcases.
  { intros r1 w1 Hrun. unfold calculateRevenueByMetricId, try_catch.
    rewrite bind_eq. unfold Date_now at 1. cbv beta iota. rewrite bind_eq, Hrun.
    destruct r1 as [response|e]; [|reflexivity]. cbv zeta.
    destruct (truthy _); [|reflexivity].
    destruct (opt (opt (opt response "data") "attributes") "data"); try reflexivity.
    destruct (fold_left _ _ _). reflexivity. }
  split.
  - destruct (makeRequest_sends rt this "/metric-aggregates/" "POST"
                (revenue_request_body rt metricId (clock w) options) (VObj []) w)
      as (k & r1 & w1 & Hrun & Hk & Hreq).
    fold (revenue_config rt this metricId (clock w) options) in Hreq. fold query in Hreq.
    destruct (calculateRevenueFromEvents_spec metricId 100 w1)
      as (k' & r' & w2 & Hrun' & Hk' & Hreq' & Hfrom & _).
    rewrite (Hcases _ _ Hrun).
    assert (sent_since w w1 = repeat query k ++ repeat (events_config this metricId 100) 0)
      as Hdirect by (simpl; rewrite app_nil_r; apply sent_since_app; exact Hreq).
    assert (sent_since w w2 = repeat query k ++ repeat (events_config this metricId 100) k')
      as Hfallback
      by (apply sent_since_app; rewrite Hreq', Hreq, app_assoc; reflexivity).
    assert (∃ k k' r w',
              calculateRevenueFromEvents rt this metricId 100 w1 = (Return r, w')
              ∧ (1 ≤ k)%nat
              ∧ sent_since w w' = repeat query k
                                  ++ repeat (events_config this metricId 100) k'
              ∧ ((method r = "metric-aggregates" ∧ eventsWithRevenue r = None
                  ∧ k' = 0%nat)
                 ∨ (from_events r ∧ (1 ≤ k')%nat))) as Hfb
      by (exists k, k', r', w2; split; [exact Hrun'|]; split; [exact Hk|];
          split; [exact Hfallback|]; right; split; assumption).
    destruct r1 as [response|e]; [|exact Hfb]. cbv zeta.
    destruct (truthy _).
    + destruct (opt (opt (opt response "data") "attributes") "data"); try exact Hfb.
      destruct (fold_left _ _ _). exists k, 0%nat. eexists _, w1.
      split; [reflexivity|]. split; [exact Hk|]. split; [exact Hdirect|].
      left. repeat split.
    + exists k, 0%nat. eexists _, w1. split; [reflexivity|]. split; [exact Hk|].
      split; [exact Hdirect|]. left. repeat split.
  - intros status body Hup Hok Hne.
    pose proof (makeRequest_gives_up rt this 3 "/metric-aggregates/" "POST"
                  (revenue_request_body rt metricId (clock w) options) (VObj []) w
                  status body Hup Hok (λ E, False_ind _ (Hne E))) as Hgives.
    match type of Hgives with _ = _ ?w1 =>
      destruct (gives_up_in_place (axios_rejection status body) w1) as (e & He) end.
    rewrite He in Hgives.
    rewrite (Hcases _ _ Hgives).
    match goal with |- context [calculateRevenueFromEvents rt this metricId 100 ?w1] =>
      destruct (calculateRevenueFromEvents_spec metricId 100 w1)
        as (k' & r' & w2 & Hrun' & _ & _ & Hfrom & _) end.
    exists r', w2. auto.
Qed.

End RevenueFallback.

Lemma calculateRevenueFromEvents_counts_witness :
  ∃ r w',
    calculateRevenueFromEvents Cases.aggregates_refused Inputs.service (VStr "P") 100
      Inputs.start = (Return r, w')
    ∧ eventCount r = Z.of_nat (length Cases.three_orders)
    ∧ eventsWithRevenue r
      = Some (Z.of_nat (length (filter (λ e, has_revenue e = true) Cases.three_orders))).
Proof.
  destruct (calculateRevenueFromEvents_counts Cases.aggregates_refused Inputs.service
              (VStr "P") 100 Inputs.start) as (r & w' & Hrun & _ & _ & Hcount).
  exists r, w'. split; [exact Hrun|].
  apply (Hcount (VObj [("data", VArr Cases.three_orders)])
           (snd (makeRequest Cases.aggregates_refused Inputs.service "/events/" "GET"
                   VNull
                   (VObj [("filter", VStr (events_filter (VStr "P")));
                          ("page[size]", VInt 100)]) 0 Inputs.start))).
  - vm_compute. reflexivity.
  - reflexivity.
Defined.

(** Of three events with the values 12.5, [null] and "7.5", two carry a
    revenue, and the revenue is 20. *)
Example three_orders_two_with_revenue :
  fst (calculateRevenueFromEvents Cases.aggregates_refused Inputs.service (VStr "P") 100
         Inputs.start)
  = Return {| totalRevenue := 0 + (25 # 2) + (75 # 10); eventCount := 3;
              eventsWithRevenue := Some 2; method := "events" |}
  ∧ (0 + (25 # 2) + (75 # 10) == 20)%Q.
Proof. split; [vm_compute; reflexivity|reflexivity]. Qed.

Lemma calculateRevenueByMetricId_falls_back_witness :
  ∃ r w',
    calculateRevenueByMetricId Cases.aggregates_refused Inputs.service (VStr "P")
      default_revenue_options Inputs.start = (Return r, w')
    ∧ from_events r.
Proof.
  apply (proj2 (calculateRevenueByMetricId_falls_back Cases.aggregates_refused
                  Inputs.service (VStr "P") default_revenue_options Inputs.start)
           400 Inputs.server_error_body).
  - reflexivity.
  - reflexivity.
  - discriminate.
Defined.

Lemma string_append_assoc (a b c : string) : (a +:+ b) +:+ c = a +:+ (b +:+ c).
Proof.
  induction a as [|x a IH]; [reflexivity|].
  change (String x ((a +:+ b) +:+ c) = String x (a +:+ (b +:+ c))). f_equal. exact IH.
Qed.

Section Cursors.

Variable rt : Runtime.
Variable this : KlaviyoService.

(** X15. The pages fetched are lost when a later page fails. When the first
    page is served with a cursor and following the cursor fails (the
    cursor is no URL, or the request for it is refused with a status other
    than 429), [getAllEventsByMetricId] returns [{ data: [] }], whatever
    the first page held. *)
Theorem getAllEventsByMetricId_discards_pages_on_failure (fuel : nat) (metricId : Value)
    (w : World) status body :
  upstream rt (sent_count w) (first_page_request this metricId)
  = HttpResponse status body →
  ok_status status = true →
  truthy (opt (opt body "links") "next") = true →
  (URL_pathname_search rt (opt (opt body "links") "next") = None
   ∨ ∃ path status' body',
       URL_pathname_search rt (opt (opt body "links") "next") = Some path
       ∧ upstream rt (S (sent_count w)) (cursor_request this path)
         = HttpResponse status' body'
       ∧ ok_status status' = false ∧ status' ≠ 429) →
  ∃ w', getAllEventsByMetricId rt this (S (S fuel)) metricId w
        = (Return (Some empty_list_envelope), w').
Proof.
  intros Hup Hok Hnext Hfail.
  unfold first_page_request in Hup.
  destruct (makeRequest_ok rt this _ _ _ _ _ _ _ Hup Hok) as (w1 & Hrun & Hreq1).
  assert (sent_count w1 = S (sent_count w)) as Hcount
    by (rewrite (sent_count_app _ _ _ Hreq1); simpl; lia).
  unfold getAllEventsByMetricId.
  assert (∃ e w', events_loop rt this (S (S fuel)) metricId true VNull [] w
                  = (Throw e, w')) as (e & w' & Hloop).
  { cbn [events_loop orb]. rewrite bind_eq.
    unfold request_config in Hrun. unfold request_config. rewrite Hrun.
    assert (js_or (opt (opt body "links") "next") VNull = opt (opt body "links") "next")
      as Hjs by (unfold js_or; rewrite Hnext; reflexivity).
    rewrite !Hjs, Hnext. cbn [orb].
    rewrite bind_eq, bind_eq. unfold cursor_path.
    destruct Hfail as [Hurl|(path & status' & body' & Hurl & Hup' & Hok' & Hne)];
      rewrite Hurl.
    - unfold throw. eauto.
    - unfold mret at 1, M_ret at 1. cbv beta iota.
      unfold cursor_request in Hup'. rewrite <- Hcount in Hup'.
      pose proof (makeRequest_gives_up rt this 3 (strip_api path) "GET" VNull (VObj [])
                    w1 status' body' Hup' Hok' (λ E, False_ind _ (Hne E))) as Hgives.
      match type of Hgives with _ = _ ?w2 =>
        destruct (gives_up_in_place (axios_rejection status' body') w2) as (e & He) end.
      rewrite He in Hgives. unfold makeRequest. change (maxRetries - 0)%nat with 3%nat.
      rewrite Hgives. eauto. }
  exists w'. eapply or_default_throw. rewrite bind_eq, Hloop. reflexivity.
Qed.

(** X16. A cursor that lies under the base URL is requested as it stands:
    [/api] is cut from the front of its path and the base URL, which ends
    in [/api], is put before what remains. *)
Theorem cursor_under_base_is_requested_as_is (origin rest : string) (next : Value)
    (w : World) :
  baseURL this = origin +:+ "/api" →
  URL_pathname_search rt next = Some ("/api/" +:+ rest) →
  cursor_path rt next w = (Return ("/" +:+ rest), w)
  ∧ req_url (request_config this ("/" +:+ rest) "GET" VNull (VObj []))
    = origin +:+ "/api/" +:+ rest.
Proof.
  intros Hbase Hurl. split.
  - unfold cursor_path. rewrite Hurl. reflexivity.
  - cbn [request_config req_url]. rewrite Hbase, string_append_assoc. reflexivity.
Qed.

(** X17. An aggregate response without result groups (no
    [data.attributes.data], an empty one, or one that is no array) gives
    [{ total: 0, grouped: {} }]. *)
Theorem queryMetricAggregates_without_groups (metricId : Value)
    (options : AggregateOptions) (w w1 : World) (response : Value) :
  makeRequest rt this "/metric-aggregates/" "POST"
    (aggregate_request_body metricId options) (VObj []) 0 w = (Return response, w1) →
  response_groups response = [] →
  queryMetricAggregates rt this metricId options w = (Return zero_result, w1).
Proof.
  intros Hrun Hgroups.
  pose proof (queryMetricAggregates_cases rt this metricId options w) as Hc.
  cbv zeta in Hc. rewrite Hrun in Hc.
  unfold aggregate_response, response_groups in *.
  destruct (opt (opt (opt response "data") "attributes") "data") as [| |b|q|s|l|fs];
    try destruct (truthy _); try exact Hc.
  subst l. exact Hc.
Qed.

End Cursors.

Lemma getAllEventsByMetricId_discards_pages_on_failure_witness :
  ∃ w', getAllEventsByMetricId Cases.lost_page Inputs.service 2 (VStr "M1") Inputs.start
        = (Return (Some empty_list_envelope), w').
Proof.
  apply (getAllEventsByMetricId_discards_pages_on_failure Cases.lost_page Inputs.service
           0 (VStr "M1") Inputs.start 200
           (Inputs.page (Inputs.events 0 100) (Inputs.cursor "c1"))).
  - reflexivity.
  - reflexivity.
  - reflexivity.
  - right. exists "/api/events/?page[cursor]=c1", 500, Inputs.server_error_body.
    split; [reflexivity|]. split; [reflexivity|]. split; [reflexivity|discriminate].
Defined.

Lemma cursor_under_base_is_requested_as_is_witness :
  cursor_path Inputs.paged (Inputs.cursor "c1") Inputs.start
  = (Return ("/" +:+ "events/?page[cursor]=c1"), Inputs.start)
  ∧ req_url (request_config Inputs.service ("/" +:+ "events/?page[cursor]=c1") "GET"
               VNull (VObj []))
    = "https://a.klaviyo.com" +:+ "/api/" +:+ "events/?page[cursor]=c1".
Proof.
  apply (cursor_under_base_is_requested_as_is Inputs.paged Inputs.service
           "https://a.klaviyo.com" "events/?page[cursor]=c1" (Inputs.cursor "c1")
           Inputs.start).
  - reflexivity.
  - reflexivity.
Defined.

Lemma queryMetricAggregates_without_groups_witness :
  queryMetricAggregates (Inputs.always 200 (VObj [("data", VArr [])])) Inputs.service
    (VStr "M1") default_options Inputs.start
  = (Return zero_result,
     snd (makeRequest (Inputs.always 200 (VObj [("data", VArr [])])) Inputs.service
            "/metric-aggregates/" "POST"
            (aggregate_request_body (VStr "M1") default_options) (VObj []) 0
            Inputs.start)).
Proof.
  apply (queryMetricAggregates_without_groups
           (Inputs.always 200 (VObj [("data", VArr [])])) Inputs.service (VStr "M1")
           default_options Inputs.start _ (VObj [("data", VArr [])])).
  - vm_compute. reflexivity.
  - reflexivity.
Defined.

(** ** Pagination over pages that are throttled or refused *)

Section Pages.

Variable rt : Runtime.
Variable this : KlaviyoService.










End Pages.



(** With the second request throttled once, the three pages still give
    the 250 events in order, with four requests. *)
Example throttled_pages_give_250_events :
  fst (getAllEventsByMetricId Cases.paged_slowly Inputs.service 3 (VStr "M1")
         Inputs.start)
  = Return (Some (VObj [("data", VArr (Inputs.events 0 250))]))
  ∧ req_url <$> sent_since Inputs.start
                  (snd (getAllEventsByMetricId Cases.paged_slowly Inputs.service 3
                          (VStr "M1") Inputs.start))
    = ["https://a.klaviyo.com/api/events/";
       "https://a.klaviyo.com/api/events/?page[cursor]=c1";
       "https://a.klaviyo.com/api/events/?page[cursor]=c1";
       "https://a.klaviyo.com/api/events/?page[cursor]=c2"].
Proof. split; vm_compute; reflexivity. Qed.

(** ** What the methods send *)

Section Emits.

Context {A B : Type}.
Variable P : Request → Prop.

Lemma emits_in_place (m : M A) : (∀ w, snd (m w) = w) → emits P m.
Proof. intros H w. exists []. rewrite H, app_nil_r. split; constructor. Qed.

Lemma emits_ret (a : A) : emits P (mret a).
Proof. apply emits_in_place. reflexivity. Qed.

Lemma emits_throw (e : JsError) : emits P (throw (A := A) e).
Proof. apply emits_in_place. reflexivity. Qed.

Lemma emits_bind (m : M A) (f : A → M B) :
  emits P m → (∀ a, emits P (f a)) → emits P (m ≫= f).
Proof.
  intros Hm Hf w. rewrite bind_eq. destruct (Hm w) as (l & Hl & HP).
  destruct (m w) as [[a|e] w1]; cbn [snd] in *.
  - destruct (Hf a w1) as (l' & Hl' & HP'). exists (l ++ l').
    rewrite Hl', Hl, app_assoc. split; [reflexivity|]. apply Forall_app. auto.
  - exists l. auto.
Qed.

Lemma emits_try_catch (m : M A) (h : JsError → M A) :
  emits P m → (∀ e, emits P (h e)) → emits P (try_catch m h).
Proof.
  intros Hm Hh w. unfold try_catch. destruct (Hm w) as (l & Hl & HP).
  destruct (m w) as [[a|e] w1]; cbn [snd] in *.
  - exists l. auto.
  - destruct (Hh e w1) as (l' & Hl' & HP'). exists (l ++ l').
    rewrite Hl', Hl, app_assoc. split; [reflexivity|]. apply Forall_app. auto.
Qed.

Lemma emits_or_default (m : M A) (dflt : A) : emits P m → emits P (or_default m dflt).
Proof. intros Hm. apply emits_try_catch; [exact Hm|]. intros e. apply emits_ret. Qed.

End Emits.

Lemma emits_wait (P : Request → Prop) (ms : Z) : emits P (wait ms).
Proof.
  intros w. exists []. rewrite requests_of_wait, app_nil_r. split; constructor.
Qed.

Lemma emits_forEachM {A S} (P : Request → Prop) (f : S → A → M S) (l : list A) :
  (∀ s x, emits P (f s x)) → ∀ s, emits P (forEachM f l s).
Proof.
  intros Hf. induction l as [|x l IH]; intros s; cbn [forEachM].
  - apply emits_ret.
  - apply emits_bind; [apply Hf|exact IH].
Qed.

Lemma emits_findM (P : Request → Prop) (pred : Value → M bool) (l : list Value) :
  (∀ x, emits P (pred x)) → emits P (findM pred l).
Proof.
  intros Hp. induction l as [|x l IH]; cbn [findM].
  - apply emits_ret.
  - apply emits_bind; [apply Hp|]. intros [|]; [apply emits_ret|exact IH].
Qed.

Lemma emits_makeRequest (P : Request → Prop) rt this endpoint method data params
    retryCount :
  P (request_config this endpoint method data params) →
  emits P (makeRequest rt this endpoint method data params retryCount).
Proof.
  intros HP w. unfold makeRequest.
  destruct (makeRequest_retrying_spec rt this (maxRetries - retryCount) endpoint method
              data params w) as (k & w' & r & Hrun & _ & Hreq & _).
  rewrite Hrun. exists (repeat (request_config this endpoint method data params) k).
  split; [exact Hreq|]. apply Forall_forall. intros x Hx.
  apply list_elem_of_In, repeat_spec in Hx. subst x. exact HP.
Qed.

Lemma emits_sent_since {A} (P : Request → Prop) (m : M A) (w : World) :
  emits P m → Forall P (sent_since w (snd (m w))).
Proof.
  intros Hm. destruct (Hm w) as (l & Hl & HP). rewrite (sent_since_app _ _ _ Hl).
  exact HP.
Qed.

Lemma reading_get (this : KlaviyoService) (endpoint : string) (params : Value) :
  reading_request this (request_config this endpoint "GET" VNull params).
Proof. exists endpoint, "GET", VNull, params. auto. Qed.

Lemma reading_query (this : KlaviyoService) (data : Value) :
  reading_request this (request_config this "/metric-aggregates/" "POST" data (VObj [])).
Proof. exists "/metric-aggregates/", "POST", data, (VObj []). auto. Qed.

Lemma get_request_get (this : KlaviyoService) (endpoint : string) (params : Value) :
  get_request this (request_config this endpoint "GET" VNull params).
Proof. exists endpoint, params. reflexivity. Qed.

(** One step of the proof that a method emits only what it may. *)
Ltac emits_step :=
  lazymatch goal with
  | |- emits _ (_ ≫= _) => apply emits_bind; [|intros]
  | |- emits _ (mret _) => apply emits_ret
  | |- emits _ (throw _) => apply emits_throw
  | |- emits _ (try_catch _ _) => apply emits_try_catch; [|intros]
  | |- emits _ (or_default _ _) => apply emits_or_default
  | |- emits _ (catch_error _) => apply emits_try_catch; [|intros]
  | |- emits _ (wait _) => apply emits_wait
  | |- emits _ Date_now => apply emits_in_place; reflexivity
  | |- emits _ (forEachM _ _ _) => apply emits_forEachM; intros
  | |- emits _ (findM _ _) => apply emits_findM; intros
  | |- emits _ (makeRequest _ _ _ _ _ _ _) => apply emits_makeRequest
  | |- emits _ (if ?b then _ else _) => destruct b
  | |- emits _ (match ?x with _ => _ end) => destruct x
  | |- emits _ (let '(_, _) := ?x in _) => destruct x
  end.

Ltac emits_auto := repeat (cbv zeta; emits_step).

Section Emitting.

Variable rt : Runtime.
Variable this : KlaviyoService.
Variable P : Request → Prop.

Lemma emits_member v k : emits P (member v k).
Proof. unfold member. emits_auto. Qed.

Lemma emits_name_test p m : emits P (name_test p m).
Proof. unfold name_test, metric_name_lower. emits_auto. Qed.

Lemma emits_findMetricId allMetrics name : emits P (findMetricId allMetrics name).
Proof. unfold findMetricId, js_find. emits_auto; apply emits_name_test. Qed.

Lemma emits_findExactMetricId allMetrics name :
  emits P (findExactMetricId allMetrics name).
Proof. unfold findExactMetricId, js_find. emits_auto; apply emits_name_test. Qed.

Lemma emits_getMetrics : P (metrics_request this) → emits P (getMetrics rt this).
Proof. intros HP. unfold getMetrics. emits_auto. exact HP. Qed.

Lemma emits_queryMetricAggregates id o :
  P (aggregate_config this id o) → emits P (queryMetricAggregates rt this id o).
Proof.
  intros HP. unfold queryMetricAggregates, aggregate_response. emits_auto;
    try exact HP.
  unfold aggregate_group, measurement_at. emits_auto; apply emits_member.
Qed.

Lemma emits_query_or_zero id o :
  P (aggregate_config this id o) → emits P (query_or_zero rt this id o).
Proof.
  intros HP. unfold query_or_zero. emits_auto. apply emits_queryMetricAggregates, HP.
Qed.

End Emitting.

Section Reading.

Variable rt : Runtime.
Variable this : KlaviyoService.

Lemma reads_getMetrics : emits (reading_request this) (getMetrics rt this).
Proof. apply emits_getMetrics, reading_get. Qed.

Lemma reads_getMetricById id params :
  emits (reading_request this) (getMetricById rt this id params).
Proof. unfold getMetricById. emits_auto. apply reading_get. Qed.

Lemma reads_getAllMetricsWithDetails :
  emits (reading_request this) (getAllMetricsWithDetails rt this).
Proof.
  unfold getAllMetricsWithDetails, slice20. emits_auto;
    first [apply reads_getMetrics|apply emits_member|apply reads_getMetricById].
Qed.

Lemma reads_calculateRevenueFromEvents id limit :
  emits (reading_request this) (calculateRevenueFromEvents rt this id limit).
Proof. unfold calculateRevenueFromEvents. emits_auto. apply reading_get. Qed.

Lemma reads_calculateRevenueByMetricId id o :
  emits (reading_request this) (calculateRevenueByMetricId rt this id o).
Proof.
  unfold calculateRevenueByMetricId. emits_auto;
    first [apply reads_calculateRevenueFromEvents|apply reading_query].
Qed.

Lemma reads_getCampaigns : emits (reading_request this) (getCampaigns rt this).
Proof.
  unfold getCampaigns, spread. emits_auto; first [apply emits_member|apply reading_get].
Qed.

Lemma reads_getEventCountByMetricId filters id :
  emits (reading_request this) (getEventCountByMetricId rt this filters id).
Proof.
  unfold getEventCountByMetricId. emits_auto.
  apply emits_queryMetricAggregates, reading_query.
Qed.

Lemma reads_event_metrics_block :
  emits (reading_request this) (event_metrics_block rt this).
Proof.
  unfold event_metrics_block. emits_auto;
    first [apply reads_getMetrics|apply emits_findMetricId|apply emits_findExactMetricId
          |apply reads_getEventCountByMetricId].
Qed.

Lemma reads_revenue_block id : emits (reading_request this) (revenue_block rt this id).
Proof.
  unfold revenue_block. emits_auto;
    first [apply reads_getAllMetricsWithDetails|apply reads_calculateRevenueByMetricId].
Qed.

Lemma reads_getDashboardMetrics :
  emits (reading_request this) (getDashboardMetrics rt this).
Proof.
  unfold getDashboardMetrics, getAccount, getLists, getFlows, unless_error.
  emits_auto;
    first [apply reads_getMetrics|apply reads_getCampaigns|apply emits_member
          |apply reads_event_metrics_block|apply reads_revenue_block
          |apply reading_get].
Qed.

Lemma gets_events_loop fuel : ∀ id first url acc,
  emits (get_request this) (events_loop rt this fuel id first url acc).
Proof.
  induction fuel as [|fuel IH]; intros id first url acc; cbn [events_loop].
  - emits_auto.
  - unfold cursor_path. emits_auto; first [apply IH|apply get_request_get].
Qed.

Lemma startsWith_append (a b : string) : startsWith a (a +:+ b) = true.
Proof.
  induction a as [|x a IH]; [reflexivity|].
  change (String x a +:+ b) with (String x (a +:+ b)). cbn [startsWith].
  rewrite Ascii.eqb_refl. exact IH.
Qed.

(** X18. Building the dashboard only reads. Every request that
    [getDashboardMetrics] sends is addressed under the base URL of the
    service and carries its key; it is a GET, or the POST of a query to
    [/metric-aggregates/]. *)
Theorem getDashboardMetrics_only_reads (w : World) :
  ∀ request,
    request ∈ sent_since w (snd (getDashboardMetrics rt this w)) →
    startsWith (baseURL this) (req_url request) = true
    ∧ ("Authorization", "Klaviyo-API-Key " +:+ privateKey this) ∈ req_headers request
    ∧ (req_method request = "GET"
       ∨ (req_method request = "POST"
          ∧ req_url request = baseURL this +:+ "/metric-aggregates/")).
Proof.
  intros request Hin.
  pose proof (emits_sent_since _ _ w reads_getDashboardMetrics) as Hall.
  rewrite Forall_forall in Hall.
  destruct (Hall request Hin) as (endpoint & method & data & params & -> & Hm).
  split; [apply startsWith_append|]. split; [apply list_elem_of_here|].
  destruct Hm as [->|[-> ->]]; [left|right; split]; reflexivity.
Qed.

(** X19. The cursors that the upstream hands out cannot send the key
    elsewhere. Whatever [links.next] holds, every request of
    [getAllEventsByMetricId] is a GET without a body, addressed under the
    base URL of the service. *)
Theorem getAllEventsByMetricId_stays_under_base (fuel : nat) (metricId : Value)
    (w : World) :
  ∀ request,
    request ∈ sent_since w (snd (getAllEventsByMetricId rt this fuel metricId w)) →
    req_method request = "GET"
    ∧ startsWith (baseURL this) (req_url request) = true
    ∧ req_data request = None.
Proof.
  intros request Hin.
  assert (emits (get_request this) (getAllEventsByMetricId rt this fuel metricId))
    as Hemits.
  { unfold getAllEventsByMetricId. emits_auto. apply gets_events_loop. }
  pose proof (emits_sent_since _ _ w Hemits) as Hall.
  rewrite Forall_forall in Hall.
  destruct (Hall request Hin) as (endpoint & params & ->).
  split; [reflexivity|]. split; [apply startsWith_append|reflexivity].
Qed.

(** X20. [getCampaignMetrics(options)] applies the date range only when
    both ends are given. Every aggregate query it sends carries the two
    bounds [greater-or-equal(datetime,startDate)] and
    [less-than(datetime,endDate)] when [startDate] and [endDate] are both
    truthy, and no filter at all when either is missing: a range that is
    open at one end is dropped. *)
Theorem getCampaignMetrics_date_range (options : Value) (w : World) :
  let given := match options with VUndefined => VObj [] | o => o end in
  let startDate := field_or given "startDate" VNull in
  let endDate := field_or given "endDate" VNull in
  ∀ request,
    request ∈ sent_since w (snd (getCampaignMetrics_options rt this options w)) →
    req_method request = "POST" →
    (truthy startDate = true → truthy endDate = true →
     filter_of request
     = strings ["greater-or-equal(datetime," +:+ ToString startDate +:+ ")";
                "less-than(datetime," +:+ ToString endDate +:+ ")"])
    ∧ (truthy startDate = false ∨ truthy endDate = false →
       filter_of request = VUndefined).
Proof.
  intros given startDate endDate request Hin Hpost.
  assert (emits (attributed_query this (date_range_filters startDate endDate))
            (getCampaignMetrics_options rt this options)) as Hemits.
  { unfold getCampaignMetrics_options. fold given. fold startDate. fold endDate.
    emits_auto;
      first [apply emits_member
            |apply emits_getMetrics; left; reflexivity
            |apply emits_findMetricId
            |apply emits_query_or_zero; right; eauto]. }
  pose proof (emits_sent_since _ _ w Hemits) as Hall.
  rewrite Forall_forall in Hall.
  destruct (Hall request Hin) as [->|(id & ms & tz & ->)]; [discriminate Hpost|].
  unfold filter_of, date_range_filters. cbn.
  split.
  - intros -> ->. reflexivity.
  - intros [Hs|He]; [rewrite Hs|rewrite He, andb_false_r]; reflexivity.
Qed.



(** X22. The figures of a snapshot agree with its lists: [campaigns] is an
    object holding a list and [campaignCount] is the length of that list,
    [flowCount] is [flows?.data?.length || 0], [revenueByEmail] repeats
    [totalRevenue], [revenueOverTime] is empty, and the timestamp is the
    time at which the build ended. *)
Theorem getDashboardMetrics_snapshot_is_consistent (w : World) :
  bodies_not_null rt →
  ∃ snapshot w' listed,
    getDashboardMetrics rt this w = (Return snapshot, w')
    ∧ campaigns snapshot = VObj [("data", VArr listed)]
    ∧ campaignCount snapshot = VInt (Z.of_nat (length listed))
    ∧ flowCount snapshot = data_length (flows snapshot)
    ∧ revenueByEmail (revenueMetrics snapshot) = rm_totalRevenue (revenueMetrics snapshot)
    ∧ revenueOverTime (revenueMetrics snapshot) = []
    ∧ timestamp snapshot = Date_toISOString rt (clock w').
Proof.
  intros Hnn.
  destruct (getDashboardMetrics_steps rt this w Hnn)
    as (acc & w1 & met & w2 & cl & w3 & lis & w4 & flo & w5 & pid & em & w6 & det
        & rev & w7 & _ & _ & _ & _ & _ & _ & _ & Hrun).
  eexists _, w7, cl. split; [exact Hrun|].
  cbn [campaigns campaignCount flowCount flows revenueMetrics revenueByEmail
       rm_totalRevenue revenueOverTime timestamp].
  split; [reflexivity|]. split; [|repeat split].
  destruct cl; reflexivity.
Qed.

End Reading.

Lemma getDashboardMetrics_only_reads_witness :
  startsWith (baseURL Inputs.service)
    (req_url (request_config Inputs.service "/accounts/" "GET" VNull (VObj []))) = true
  ∧ ("Authorization", "Klaviyo-API-Key " +:+ privateKey Inputs.service)
    ∈ req_headers (request_config Inputs.service "/accounts/" "GET" VNull (VObj []))
  ∧ (req_method (request_config Inputs.service "/accounts/" "GET" VNull (VObj [])) = "GET"
     ∨ (req_method (request_config Inputs.service "/accounts/" "GET" VNull (VObj []))
        = "POST"
        ∧ req_url (request_config Inputs.service "/accounts/" "GET" VNull (VObj []))
          = baseURL Inputs.service +:+ "/metric-aggregates/")).
Proof.
  apply (getDashboardMetrics_only_reads Inputs.shop Inputs.service Inputs.start).
  apply (list_elem_of_lookup_2 _ 0%nat). vm_compute. reflexivity.
Defined.

Lemma getAllEventsByMetricId_stays_under_base_witness :
  req_method (cursor_request Inputs.service "/api/events/?page[cursor]=c1") = "GET"
  ∧ startsWith (baseURL Inputs.service)
      (req_url (cursor_request Inputs.service "/api/events/?page[cursor]=c1")) = true
  ∧ req_data (cursor_request Inputs.service "/api/events/?page[cursor]=c1") = None.
Proof.
  apply (getAllEventsByMetricId_stays_under_base Inputs.paged Inputs.service 3
           (VStr "M1") Inputs.start).
  apply (list_elem_of_lookup_2 _ 1%nat). vm_compute. reflexivity.
Defined.

Lemma getCampaignMetrics_date_range_witness :
  filter_of (aggregate_config Inputs.service (VStr "O")
               (by_attributed_message ["unique"]
                  ["greater-or-equal(datetime,2024-01-01T00:00:00)";
                   "less-than(datetime,2024-02-01T00:00:00)"] (VStr "UTC")))
  = strings ["greater-or-equal(datetime," +:+ ToString (VStr "2024-01-01T00:00:00")
             +:+ ")";
             "less-than(datetime," +:+ ToString (VStr "2024-02-01T00:00:00") +:+ ")"].
Proof.
  apply (getCampaignMetrics_date_range Cases.mail Inputs.service Cases.january
           Inputs.start).
  - apply (list_elem_of_lookup_2 _ 1%nat). vm_compute. reflexivity.
  - reflexivity.
  - reflexivity.
  - reflexivity.
Defined.

(** With a start and no end, the query for the opens goes out without a
    filter. *)
Example open_ended_range_is_dropped :
  filter_of <$> sent_since Inputs.start
                  (snd (getCampaignMetrics_options Cases.mail Inputs.service
                          Cases.since_january Inputs.start))
  = [VUndefined; VUndefined].
Proof. vm_compute. reflexivity. Qed.


Lemma getDashboardMetrics_snapshot_is_consistent_witness :
  ∃ snapshot w' listed,
    getDashboardMetrics Inputs.flows_down Inputs.service Inputs.start
    = (Return snapshot, w')
    ∧ campaigns snapshot = VObj [("data", VArr listed)]
    ∧ campaignCount snapshot = VInt (Z.of_nat (length listed))
    ∧ flowCount snapshot = data_length (flows snapshot)
    ∧ revenueByEmail (revenueMetrics snapshot) = rm_totalRevenue (revenueMetrics snapshot)
    ∧ revenueOverTime (revenueMetrics snapshot) = []
    ∧ timestamp snapshot = Date_toISOString Inputs.flows_down (clock w').
Proof.
  apply (getDashboardMetrics_snapshot_is_consistent Inputs.flows_down Inputs.service
           Inputs.start).
  intros n request status body H Hok. simpl in H.
  destruct (String.eqb (req_url request) "https://a.klaviyo.com/api/flows/");
    injection H as <- <-; [discriminate Hok|reflexivity].
Defined.

(** ** The rate limiter under a burst of callers *)

Section Burst.

Variable this : KlaviyoService.

Lemma insert_timer_same (d : Z) (id : nat) (l : list (Z * nat)) :
  Forall (λ t, fst t = d) l → Concurrent.insert_timer (d, id) l = l ++ [(d, id)].
Proof.
  induction 1 as [|[d' i] l Hd _ IH]; cbn [Concurrent.insert_timer]; [reflexivity|].
  cbn [fst] in *. subst d'. rewrite Z.ltb_irrefl, IH. reflexivity.
Qed.

Lemma calls_queue (w : World) (k : nat) :
  0 < minRequestInterval this →
  clock w = lastRequestTime w →
  ∀ (a : nat) (timers : list (Z * nat)) (admitted : list (nat * Z)),
    Forall (λ t, fst t = clock w + minRequestInterval this) timers →
    fold_left (Concurrent.call this) (seq a k)
      {| Concurrent.world := w; Concurrent.timers := timers;
         Concurrent.admitted := admitted |}
    = {| Concurrent.world := w;
         Concurrent.timers :=
           timers ++ ((λ id, (clock w + minRequestInterval this, id)) <$> seq a k);
         Concurrent.admitted := admitted |}.
Proof.
  intros Hpos Hclock. induction k as [|k IH]; intros a timers admitted Hall;
    cbn [seq fold_left fmap list_fmap].
  - rewrite app_nil_r. reflexivity.
  - unfold Concurrent.call at 2. cbn [Concurrent.world].
    unfold rateLimit_check, Date_now, get_lastRequestTime, mbind, M_bind, mret, M_ret.
    rewrite Hclock, Z.sub_diag.
    rewrite (proj2 (Z.ltb_lt _ _) Hpos).
    cbn [Concurrent.timers Concurrent.admitted].
    rewrite Z.sub_0_r, Z.max_r by lia. rewrite <- Hclock.
    rewrite (insert_timer_same _ _ _ Hall).
    rewrite IH.
    + rewrite <- app_assoc. reflexivity.
    + apply Forall_app. split; [exact Hall|]. repeat constructor.
Qed.

Lemma fire_all_same (d : Z) (pending : list (Z * nat)) :
  Forall (λ t, fst t = d) pending →
  ∀ s, clock (Concurrent.world s) ≤ d →
       Concurrent.admission_times (Concurrent.fire_all pending s)
       = Concurrent.admission_times s ++ repeat d (length pending).
Proof.
  induction 1 as [|[d' id] pending Hd _ IH]; intros s Hs; cbn [Concurrent.fire_all].
  - cbn. rewrite app_nil_r. reflexivity.
  - cbn [fst] in Hd. subst d'. rewrite IH.
    + unfold Concurrent.admission_times, Concurrent.resume. cbn.
      rewrite fmap_app. cbn.
      unfold rateLimit_admit, Concurrent.advance_to, Date_now, set_lastRequestTime,
        mbind, M_bind. cbn.
      rewrite Z.max_r by lia. rewrite <- app_assoc. reflexivity.
    + unfold Concurrent.resume, rateLimit_admit, Concurrent.advance_to, Date_now,
        set_lastRequestTime, mbind, M_bind. cbn. lia.
Qed.

(** X23. A burst defeats the limiter, however large it is. When [n + 1]
    callers invoke [rateLimit] in the same turn on a limiter that is free
    (the interval has passed since its last admission), the first is
    admitted at once and all the others together, one interval later: from
    three callers on, admissions are not [minRequestInterval] apart. *)
Theorem rateLimit_burst_is_admitted_at_once (n : nat) (w : World) :
  0 < minRequestInterval this →
  minRequestInterval this ≤ clock w - lastRequestTime w →
  Concurrent.admission_times (Concurrent.acquire_all this (S n) w)
  = clock w :: repeat (clock w + minRequestInterval this) n
  ∧ ((2 ≤ n)%nat →
     ¬ Concurrent.spaced (minRequestInterval this)
         (Concurrent.admission_times (Concurrent.acquire_all this (S n) w))).
Proof.
  intros Hpos Hfree.
  assert (Concurrent.admission_times (Concurrent.acquire_all this (S n) w)
          = clock w :: repeat (clock w + minRequestInterval this) n) as Htimes.
  { set (w1 := {| clock := clock w; lastRequestTime := clock w; trace := trace w |}).
    assert (Concurrent.call this
              {| Concurrent.world := w; Concurrent.timers := [];
                 Concurrent.admitted := [] |} 0
            = {| Concurrent.world := w1; Concurrent.timers := [];
                 Concurrent.admitted := [(0%nat, clock w)] |}) as Hfirst.
    { unfold Concurrent.call. cbn [Concurrent.world].
      unfold rateLimit_check, Date_now, get_lastRequestTime, mbind, M_bind, mret, M_ret.
      rewrite (proj2 (Z.ltb_ge _ _) Hfree). reflexivity. }
    unfold Concurrent.acquire_all. cbv zeta.
    change (seq 0 (S n)) with (0%nat :: seq 1 n). cbn [fold_left].
    rewrite Hfirst.
    rewrite (calls_queue w1 n Hpos eq_refl 1 [] [(0%nat, clock w)]) by constructor.
    cbn [Concurrent.timers app].
    rewrite fire_all_same with (d := clock w + minRequestInterval this).
    - rewrite length_fmap, length_seq. reflexivity.
    - apply Forall_fmap, Forall_forall. intros id _. reflexivity.
    - cbn. lia. }
  split; [exact Htimes|].
  intros Hn Hspaced. rewrite Htimes in Hspaced.
  destruct n as [|[|n]]; [lia|lia|].
  specialize (Hspaced 1%nat _ _ eq_refl eq_refl). lia.
Qed.

End Burst.

Lemma rateLimit_burst_is_admitted_at_once_witness :
  Concurrent.admission_times (Concurrent.acquire_all Inputs.service 5 (initial_world 1000))
  = 1000 :: repeat (1000 + 250) 4
  ∧ ((2 ≤ 4)%nat →
     ¬ Concurrent.spaced 250
         (Concurrent.admission_times
            (Concurrent.acquire_all Inputs.service 5 (initial_world 1000)))).
Proof.
  apply (rateLimit_burst_is_admitted_at_once Inputs.service 4 (initial_world 1000)).
  - simpl. lia.
  - simpl. lia.
Defined.

(** ** The HTTP side *)


Section ServerProps.

Variable jwt_verify : string → option Value.
Variable getClientById : Value → Completion Value.
Variable rt : Runtime.

Lemma split_first_field (a r : string) :
  Server.spaceless a = true →
  Server.split " " (a +:+ " " +:+ r) = a :: Server.split " " r.
Proof.
  induction a as [|c a IH]; intros Ha.
  - reflexivity.
  - cbn [Server.spaceless] in Ha. apply andb_true_iff in Ha as [Hc Ha].
    apply negb_true_iff in Hc.
    change (String c a +:+ " " +:+ r) with (String c (a +:+ " " +:+ r)).
    cbn [Server.split]. rewrite Hc, (IH Ha). reflexivity.
Qed.

(** X24. The middleware lets a request pass only on a verified token:
    [next()] is reached only when the [authorization] header has a second
    space-separated field that is not empty and that [jwt.verify] decodes
    to a truthy payload, whose [clientId] becomes [req.clientId]; without
    the header the answer is 401. The first field is not looked at: any
    word without a space serves as well as [Bearer]. *)
Theorem authenticateToken_admits_only_verified_tokens
    (headers : list (string * string)) :
  (∀ clientId,
     Server.authenticateToken jwt_verify headers = Server.Next clientId →
     ∃ h token decoded,
       Server.header "authorization" headers = Some h
       ∧ Server.split " " h !! 1%nat = Some token
       ∧ token ≠ EmptyString
       ∧ jwt_verify token = Some decoded
       ∧ truthy decoded = true
       ∧ clientId = getProp decoded "clientId")
  ∧ (Server.header "authorization" headers = None →
     Server.authenticateToken jwt_verify headers
     = Server.Responded (Server.refuse 401 "Access token required"))
  ∧ (∀ scheme rest,
       Server.spaceless scheme = true →
       Server.authenticateToken jwt_verify
         (("authorization", scheme +:+ " " +:+ rest) :: headers)
       = Server.authenticateToken jwt_verify
           (("authorization", "Bearer " +:+ rest) :: headers)).
Proof.
  split; [|split].
  - intros clientId. unfold Server.authenticateToken, Server.verifyToken.
    destruct (Server.header "authorization" headers) as [h|] eqn:Hheader;
      [|discriminate].
    destruct (String.eqb h EmptyString) eqn:Hh.
    { rewrite Hh. discriminate. }
    destruct (Server.split " " h !! 1%nat) as [token|] eqn:Hfield; [|discriminate].
    destruct (String.eqb_spec token EmptyString) as [->|Hne]; [discriminate|].
    destruct (jwt_verify token) as [decoded|] eqn:Hv; [|discriminate].
    destruct (truthy decoded) eqn:Ht; [|discriminate].
    intros [= <-]. exists h, token, decoded.
    split; [reflexivity|]. split; [exact Hfield|]. split; [exact Hne|].
    split; [exact Hv|]. split; [exact Ht|reflexivity].
  - intros Hnone. unfold Server.authenticateToken. rewrite Hnone. reflexivity.
  - intros scheme rest Hs. unfold Server.authenticateToken, Server.header.
    cbn [List.find fst String.eqb Ascii.eqb Bool.eqb fmap option_fmap option_map snd].
    change (String.eqb "authorization" "authorization") with true. cbv iota.
    cbn [fmap option_fmap option_map snd].
    assert (∀ a, String.eqb (a +:+ " " +:+ rest) EmptyString = false) as Hne.
    { intros [|c a]; reflexivity. }
    change ("Bearer " +:+ rest) with ("Bearer" +:+ " " +:+ rest).
    rewrite (Hne scheme), (Hne "Bearer").
    rewrite (split_first_field scheme rest Hs).
    rewrite (split_first_field "Bearer" rest eq_refl). reflexivity.
Qed.

(** X25. The route [GET /api/dashboard/metrics]. A request that the
    middleware answers (401, 403) gets that answer and nothing is fetched.
    Past the middleware: a database failure gives 500 with the message of
    the error, an unknown client 404, both without a request to the
    upstream; a known client gets 200 with a snapshot whatever the upstream
    does (provided no 2xx answer has a [null] body), and every request
    made for it carries the key of that client's row. *)
Theorem dashboard_metrics_route (headers : list (string * string)) (w : World) :
  let route := Server.dashboard_metrics jwt_verify getClientById rt headers in
  (∀ r, Server.authenticateToken jwt_verify headers = Server.Responded r →
        route w = (Return r, w))
  ∧ (∀ clientId,
       Server.authenticateToken jwt_verify headers = Server.Next clientId →
       (∀ e, getClientById clientId = Throw e →
             route w
             = (Return {| Server.res_status := 500;
                          Server.res_body :=
                            Server.JsonValue
                              (VObj [("error", VStr "Failed to fetch Klaviyo metrics");
                                     ("message", VStr (err_message e))]) |}, w))
       ∧ (∀ client, getClientById clientId = Return client → truthy client = false →
                    route w = (Return (Server.refuse 404 "Client not found"), w))
       ∧ (∀ client, getClientById clientId = Return client → truthy client = true →
                    bodies_not_null rt →
                    ∃ snapshot w',
                      route w = (Return {| Server.res_status := 200;
                                           Server.res_body := Server.JsonSnapshot snapshot |},
                                 w')
                      ∧ ∀ request,
                          request ∈ sent_since w w' →
                          ("Authorization",
                           "Klaviyo-API-Key "
                           +:+ ToString (getProp client "klaviyo_private_key"))
                          ∈ req_headers request)).
Proof.
  intros route. subst route. unfold Server.dashboard_metrics. split.
  - intros r ->. reflexivity.
  - intros clientId ->. unfold Server.dashboard_metrics_handler, try_catch.
    rewrite bind_eq.
    split; [|split].
    + intros e ->. reflexivity.
    + intros client -> Hfalsy. unfold Server.await. cbv beta iota.
      rewrite Hfalsy. reflexivity.
    + intros client -> Htruthy Hnn. unfold Server.await. cbv beta iota.
      rewrite Htruthy.
      rewrite bind_eq. unfold Server.construct at 1. cbv beta iota.
      set (service := new_KlaviyoService (ToString (getProp client "klaviyo_private_key"))).
      set (w0 := {| clock := clock w; lastRequestTime := 0; trace := trace w |}).
      destruct (getDashboardMetrics_steps rt service w0 Hnn)
        as (acc & w1 & met & w2 & cl & w3 & lis & w4 & flo & w5 & pid & em & w6 & det
            & rev & w7 & _ & _ & _ & _ & _ & _ & _ & Hrun).
      rewrite bind_eq, Hrun. eexists _, w7. split; [reflexivity|].
      intros request Hin.
      pose proof (emits_sent_since _ _ w0 (reads_getDashboardMetrics rt service)) as Hall.
      rewrite Hrun in Hall. cbn [snd] in Hall.
      change (sent_since w0 w7) with (sent_since w w7) in Hall.
      rewrite Forall_forall in Hall.
      destruct (Hall request Hin) as (endpoint & method & data & params & -> & _).
      apply list_elem_of_here.
Qed.

End ServerProps.

Lemma authenticateToken_admits_only_verified_tokens_witness :
  Server.authenticateToken Visitors.tokens
    (("authorization", "Token" +:+ " " +:+ "good") :: [])
  = Server.authenticateToken Visitors.tokens
      (("authorization", "Bearer " +:+ "good") :: []).
Proof.
  apply (proj2 (proj2 (authenticateToken_admits_only_verified_tokens Visitors.tokens []))).
  reflexivity.
Defined.

Lemma dashboard_metrics_route_witness :
  ∃ snapshot w',
    Server.dashboard_metrics Visitors.tokens Visitors.clients Inputs.offline
      (Visitors.bearer "good") Inputs.start
    = (Return {| Server.res_status := 200;
                 Server.res_body := Server.JsonSnapshot snapshot |}, w')
    ∧ ∀ request,
        request ∈ sent_since Inputs.start w' →
        ("Authorization",
         "Klaviyo-API-Key "
         +:+ ToString (getProp (VObj [("id", VInt 7); ("name", VStr "Shop");
                                      ("email", VStr "shop@example.com");
                                      ("klaviyo_private_key", VStr "pk_7")])
                         "klaviyo_private_key"))
        ∈ req_headers request.
Proof.
  apply (proj2 (proj2 (proj2 (dashboard_metrics_route Visitors.tokens Visitors.clients
                                Inputs.offline (Visitors.bearer "good") Inputs.start)
                         (VInt 7) eq_refl))).
  - reflexivity.
  - reflexivity.
  - intros n request status body H. discriminate H.
Defined.

(** Without a token nothing is fetched; with a token that does not verify
    the answer is 403; with the valid token and the upstream out of reach
    the answer is still 200. *)
Example dashboard_metrics_on_examples :
  Server.dashboard_metrics Visitors.tokens Visitors.clients Inputs.offline
    [("accept", "application/json")] Inputs.start
  = (Return (Server.refuse 401 "Access token required"), Inputs.start)
  ∧ Server.dashboard_metrics Visitors.tokens Visitors.clients Inputs.offline
      (Visitors.bearer "bad") Inputs.start
    = (Return (Server.refuse 403 "Invalid or expired token"), Inputs.start)
  ∧ Server.dashboard_metrics Visitors.tokens Visitors.clients Inputs.offline
      [("authorization", "Bearer")] Inputs.start
    = (Return (Server.refuse 401 "Access token required"), Inputs.start)
  ∧ Server.res_status
      <$> (match fst (Server.dashboard_metrics Visitors.tokens Visitors.clients
                        Inputs.offline (Visitors.bearer "good") Inputs.start) with
           | Return r => Some r
           | Throw _ => None
           end)
    = Some 200.
Proof. repeat split; vm_compute; reflexivity. Qed.

(** ** How much a build sends, and a loop that does not end *)

Section Budget.

Context {A B : Type}.

Lemma at_most_weaken (a n : nat) (m : M A) :
  sends_at_most a m → (a ≤ n)%nat → sends_at_most n m.
Proof. intros Hm Hle w. destruct (Hm w) as (l & Hl & Hlen). exists l. split; [exact Hl|lia]. Qed.

Lemma at_most_in_place (n : nat) (m : M A) : (∀ w, snd (m w) = w) → sends_at_most n m.
Proof. intros H w. exists []. rewrite H, app_nil_r. split; [reflexivity|simpl; lia]. Qed.

Lemma at_most_ret (n : nat) (a : A) : sends_at_most n (mret a).
Proof. apply at_most_in_place. reflexivity. Qed.

Lemma at_most_throw (n : nat) (e : JsError) : sends_at_most n (throw (A := A) e).
Proof. apply at_most_in_place. reflexivity. Qed.

Lemma at_most_bind (n a : nat) (m : M A) (f : A → M B) :
  sends_at_most a m → (a ≤ n)%nat → (∀ x, sends_at_most (n - a) (f x)) →
  sends_at_most n (m ≫= f).
Proof.
  intros Hm Hle Hf w. rewrite bind_eq. destruct (Hm w) as (l & Hl & Hlen).
  destruct (m w) as [[x|e] w1]; cbn [snd] in *.
  - destruct (Hf x w1) as (l' & Hl' & Hlen'). exists (l ++ l').
    rewrite Hl', Hl, app_assoc. split; [reflexivity|]. rewrite length_app. lia.
  - exists l. split; [exact Hl|lia].
Qed.

Lemma at_most_try_catch (n a : nat) (m : M A) (h : JsError → M A) :
  sends_at_most a m → (a ≤ n)%nat → (∀ e, sends_at_most (n - a) (h e)) →
  sends_at_most n (try_catch m h).
Proof.
  intros Hm Hle Hh w. unfold try_catch. destruct (Hm w) as (l & Hl & Hlen).
  destruct (m w) as [[x|e] w1]; cbn [snd] in *.
  - exists l. split; [exact Hl|lia].
  - destruct (Hh e w1) as (l' & Hl' & Hlen'). exists (l ++ l').
    rewrite Hl', Hl, app_assoc. split; [reflexivity|]. rewrite length_app. lia.
Qed.

Lemma at_most_or_default (n : nat) (m : M A) (dflt : A) :
  sends_at_most n m → sends_at_most n (or_default m dflt).
Proof.
  intros Hm. apply (at_most_try_catch n n); [exact Hm|lia|]. intros e. apply at_most_ret.
Qed.

End Budget.

Lemma at_most_wait (n : nat) (ms : Z) : sends_at_most n (wait ms).
Proof.
  intros w. exists []. rewrite requests_of_wait, app_nil_r. split; [reflexivity|simpl; lia].
Qed.

Lemma at_most_forEachM {A S} (b : nat) (f : S → A → M S) (l : list A) :
  (∀ s x, sends_at_most b (f s x)) → ∀ s, sends_at_most (length l * b) (forEachM f l s).
Proof.
  intros Hf. induction l as [|x l IH]; intros s; cbn [forEachM length].
  - apply at_most_ret.
  - apply (at_most_bind _ b); [apply Hf|lia|]. intros s'.
    eapply at_most_weaken; [apply IH|lia].
Qed.

Lemma at_most_findM (n : nat) (pred : Value → M bool) (l : list Value) :
  (∀ x, sends_at_most 0 (pred x)) → sends_at_most n (findM pred l).
Proof.
  intros Hp. apply (at_most_weaken 0); [|lia].
  induction l as [|x l IH]; cbn [findM].
  - apply at_most_ret.
  - apply (at_most_bind _ 0); [apply Hp|lia|]. intros [|]; [apply at_most_ret|exact IH].
Qed.

Lemma at_most_makeRequest (n : nat) rt this endpoint method data params :
  (4 ≤ n)%nat → sends_at_most n (makeRequest rt this endpoint method data params 0).
Proof.
  intros Hn w. unfold makeRequest.
  destruct (makeRequest_retrying_spec rt this (maxRetries - 0) endpoint method
              data params w) as (k & w' & r & Hrun & Hk & Hreq & _).
  rewrite Hrun. exists (repeat (request_config this endpoint method data params) k).
  split; [exact Hreq|]. rewrite repeat_length. simpl in Hk. lia.
Qed.

Lemma at_most_sent_since {A} (n : nat) (m : M A) (w : World) :
  sends_at_most n m → (length (sent_since w (snd (m w))) ≤ n)%nat.
Proof.
  intros Hm. destruct (Hm w) as (l & Hl & Hlen). rewrite (sent_since_app _ _ _ Hl).
  exact Hlen.
Qed.

Section Budgets.

Variable rt : Runtime.
Variable this : KlaviyoService.

Lemma at_most_member n v k : sends_at_most n (member v k).
Proof. unfold member. destruct (nullish v); [apply at_most_throw|apply at_most_ret]. Qed.

Lemma at_most_spread n v : sends_at_most n (spread v).
Proof. unfold spread. destruct v; first [apply at_most_ret|apply at_most_throw]. Qed.

Lemma at_most_name_test n p m : sends_at_most n (name_test p m).
Proof.
  unfold name_test, metric_name_lower.
  destruct (metric_name m); apply at_most_in_place; reflexivity.
Qed.

Lemma at_most_findMetricId n allMetrics name :
  sends_at_most n (findMetricId allMetrics name).
Proof.
  unfold findMetricId, js_find. apply (at_most_bind _ 0); [|lia|intros; apply at_most_ret].
  destruct allMetrics; try apply at_most_throw.
  apply at_most_findM. intros x. apply at_most_name_test.
Qed.

Lemma at_most_findExactMetricId n allMetrics name :
  sends_at_most n (findExactMetricId allMetrics name).
Proof.
  unfold findExactMetricId, js_find.
  apply (at_most_bind _ 0); [|lia|intros; apply at_most_ret].
  destruct allMetrics; try apply at_most_throw.
  apply at_most_findM. intros x. apply at_most_name_test.
Qed.

Lemma at_most_fetch n endpoint params dflt :
  (4 ≤ n)%nat →
  sends_at_most n (or_default (makeRequest rt this endpoint "GET" VNull params 0) dflt).
Proof. intros Hn. apply at_most_or_default, at_most_makeRequest, Hn. Qed.

Lemma at_most_getMetrics : sends_at_most 4 (getMetrics rt this).
Proof. apply at_most_fetch. lia. Qed.

Lemma at_most_getMetricById id params : sends_at_most 4 (getMetricById rt this id params).
Proof. apply at_most_fetch. lia. Qed.

Lemma at_most_aggregate_response by_given response :
  sends_at_most 0 (aggregate_response by_given response).
Proof.
  unfold aggregate_response. destruct (truthy _); [|apply at_most_ret].
  destruct (opt (opt (opt response "data") "attributes") "data");
    try apply at_most_throw.
  eapply at_most_weaken; [apply (at_most_forEachM 0)|lia].
  intros s x. unfold aggregate_group, measurement_at. cbv zeta.
  destruct by_given; [|apply at_most_ret].
  destruct (opt x "dimensions") as [| | | | |[|dimension ds]|]; try apply at_most_ret.
  apply (at_most_bind _ 0); [apply at_most_member|lia|]. intros m. apply at_most_ret.
Qed.

Lemma at_most_queryMetricAggregates id o :
  sends_at_most 4 (queryMetricAggregates rt this id o).
Proof.
  unfold queryMetricAggregates. apply at_most_or_default.
  apply (at_most_bind _ 4); [apply at_most_makeRequest; lia|lia|].
  intros response. apply at_most_aggregate_response.
Qed.

Lemma at_most_getEventCountByMetricId filters id :
  sends_at_most 4 (getEventCountByMetricId rt this filters id).
Proof.
  unfold getEventCountByMetricId. destruct (truthy id); [|apply at_most_ret].
  apply at_most_or_default.
  apply (at_most_bind _ 4); [apply at_most_queryMetricAggregates|lia|].
  intros r. apply at_most_ret.
Qed.

Lemma at_most_getCampaigns : sends_at_most 8 (getCampaigns rt this).
Proof.
  unfold getCampaigns, spread. apply at_most_or_default.
  apply (at_most_bind _ 4); [apply at_most_fetch; lia|lia|]. intros emailData.
  apply (at_most_bind _ 4); [apply at_most_fetch; lia|lia|]. intros smsData.
  cbn [Nat.sub].
  apply (at_most_bind _ 0); [apply at_most_member|lia|]. intros emailList.
  apply (at_most_bind _ 0); [apply at_most_spread|lia|]. intros emails.
  apply (at_most_bind _ 0); [apply at_most_member|lia|]. intros smsList.
  apply (at_most_bind _ 0); [apply at_most_spread|lia|]. intros smss.
  apply at_most_ret.
Qed.

Lemma at_most_event_metrics_block : sends_at_most 20 (event_metrics_block rt this).
Proof.
  unfold event_metrics_block.
  apply (at_most_try_catch _ 20); [|lia|intros; apply at_most_ret].
  apply (at_most_bind _ 4); [apply at_most_getMetrics|lia|]. intros response.
  cbv zeta. cbn [Nat.sub].
  apply (at_most_bind _ 0); [apply at_most_findExactMetricId|lia|]. intros exact.
  apply (at_most_bind _ 0);
    [destruct (truthy exact); [apply at_most_ret|apply at_most_findMetricId]|lia|].
  intros placedOrderId. cbn [Nat.sub]. apply at_most_or_default.
  do 3 (apply (at_most_bind _ 0); [apply at_most_findMetricId|lia|]; intros ?).
  apply (at_most_bind _ 0); [apply at_most_in_place; reflexivity|lia|]. intros now.
  cbv zeta. cbn [Nat.sub].
  do 4 (apply (at_most_bind _ 4); [apply at_most_getEventCountByMetricId|lia|];
        intros ?; cbn [Nat.sub]).
  apply at_most_ret.
Qed.

Lemma at_most_details_loop (l : list Value) (details : list Value) :
  sends_at_most (length l * 4)
    (forEachM
       (λ (details : list Value) (metric : Value),
          try_catch
            (id ← member metric "id";
             detail ← getMetricById rt this id (VObj []);
             let details' := if truthy detail then details ++ [detail] else details in
             _ ← wait 250;
             mret details')
            (λ _, _ ← member metric "id"; mret details))
       l details).
Proof.
  apply at_most_forEachM. intros s metric.
  apply (at_most_try_catch 4 4); [|lia|];
    [|intros e; apply (at_most_bind _ 0); [apply at_most_member|lia|]; intros _;
      apply at_most_ret].
  apply (at_most_bind _ 0); [apply at_most_member|lia|]. intros id.
  apply (at_most_bind _ 4); [apply at_most_getMetricById|lia|]. intros detail.
  cbv zeta. apply (at_most_bind _ 0); [apply at_most_wait|lia|]. intros _.
  apply at_most_ret.
Qed.

Lemma at_most_getAllMetricsWithDetails :
  sends_at_most 84 (getAllMetricsWithDetails rt this).
Proof.
  unfold getAllMetricsWithDetails. apply at_most_or_default.
  apply (at_most_bind _ 4); [apply at_most_getMetrics|lia|]. intros response.
  cbv zeta. destruct (is_zero _); [apply at_most_ret|].
  assert (∀ l : list Value,
            sends_at_most 80
              (metricsToFetch ← mret (take 20 l);
               details ← forEachM
                 (λ (details : list Value) (metric : Value),
                    try_catch
                      (id ← member metric "id";
                       detail ← getMetricById rt this id (VObj []);
                       let details' :=
                         if truthy detail then details ++ [detail] else details in
                       _ ← wait 250;
                       mret details')
                      (λ _, _ ← member metric "id"; mret details))
                 metricsToFetch [];
               mret (VObj [("metrics", js_or (opt response "data") (VArr []));
                           ("details", VArr details);
                           ("total",
                            getProp (js_or (opt response "data") (VArr [])) "length")])))
    as Hloop.
  { intros l w. rewrite bind_eq. unfold mret at 1, M_ret at 1. cbv beta iota.
    revert w. apply (at_most_bind _ (length (take 20 l) * 4));
      [apply at_most_details_loop|rewrite length_take; lia|].
    intros details. apply at_most_ret. }
  unfold slice20.
  destruct (js_or (opt response "data") (VArr [])) as [| | | |text|items|] eqn:Hm;
    try (apply at_most_in_place; reflexivity).
  - apply (Hloop (chars text)).
  - apply (Hloop items).
Qed.

Lemma at_most_calculateRevenueFromEvents id limit :
  sends_at_most 4 (calculateRevenueFromEvents rt this id limit).
Proof.
  unfold calculateRevenueFromEvents. apply at_most_or_default.
  apply (at_most_bind _ 4); [apply at_most_makeRequest; lia|lia|]. intros response.
  destruct (js_or (opt response "data") (VArr [])); try apply at_most_throw.
  destruct (fold_left _ _ _). apply at_most_ret.
Qed.

Lemma at_most_calculateRevenueByMetricId id o :
  sends_at_most 8 (calculateRevenueByMetricId rt this id o).
Proof.
  unfold calculateRevenueByMetricId.
  apply (at_most_try_catch _ 4);
    [|lia|intros; apply at_most_calculateRevenueFromEvents].
  apply (at_most_bind _ 0); [apply at_most_in_place; reflexivity|lia|]. intros now.
  apply (at_most_bind _ 4); [apply at_most_makeRequest; lia|lia|]. intros response.
  cbv zeta. destruct (truthy _); [|apply at_most_ret].
  destruct (opt (opt (opt response "data") "attributes") "data");
    try apply at_most_throw.
  destruct (fold_left _ _ _). apply at_most_ret.
Qed.

Lemma at_most_revenue_block id : sends_at_most 92 (revenue_block rt this id).
Proof.
  unfold revenue_block.
  apply (at_most_try_catch _ 92); [|lia|intros; apply at_most_ret].
  apply (at_most_bind _ 84); [apply at_most_getAllMetricsWithDetails|lia|].
  intros details. cbn [Nat.sub]. destruct (truthy id); [|apply at_most_ret].
  apply at_most_or_default.
  apply (at_most_bind _ 8); [apply at_most_calculateRevenueByMetricId|lia|].
  intros revenue. apply at_most_ret.
Qed.

Lemma at_most_unless_error n value : sends_at_most n (unless_error value).
Proof.
  unfold unless_error. apply (at_most_bind _ 0); [apply at_most_member|lia|].
  intros e. apply at_most_ret.
Qed.

Lemma at_most_catch_error n (p : M Value) :
  sends_at_most n p → sends_at_most n (catch_error p).
Proof.
  intros Hp. apply (at_most_try_catch n n); [exact Hp|lia|]. intros e. apply at_most_ret.
Qed.

Lemma at_most_getDashboardMetrics : sends_at_most 136 (getDashboardMetrics rt this).
Proof.
  unfold getDashboardMetrics.
  apply (at_most_bind _ 4); [apply at_most_catch_error, at_most_fetch; lia|lia|].
  intros account.
  apply (at_most_bind _ 4); [apply at_most_catch_error, at_most_getMetrics|lia|].
  intros metrics.
  apply (at_most_bind _ 8); [apply at_most_catch_error, at_most_getCampaigns|lia|].
  intros campaigns.
  apply (at_most_bind _ 4); [apply at_most_catch_error, at_most_fetch; lia|lia|].
  intros lists.
  apply (at_most_bind _ 4); [apply at_most_catch_error, at_most_fetch; lia|lia|].
  intros flows. cbn [Nat.sub].
  apply (at_most_bind _ 0); [apply at_most_unless_error|lia|]. intros campaignsData.
  apply (at_most_bind _ 0); [apply at_most_unless_error|lia|]. intros flowsData.
  cbv zeta.
  apply (at_most_bind _ 20); [apply at_most_event_metrics_block|lia|].
  intros [placedOrderId eventMetrics]. cbn [Nat.sub].
  apply (at_most_bind _ 0); [apply at_most_unless_error|lia|]. intros metricsData.
  apply (at_most_bind _ 92); [apply at_most_revenue_block|lia|].
  intros [metricsWithDetails revenue]. cbn [Nat.sub].
  apply (at_most_bind _ 0); [apply at_most_unless_error|lia|]. intros accountData.
  apply (at_most_bind _ 0); [apply at_most_unless_error|lia|]. intros listsData.
  apply (at_most_bind _ 0); [apply at_most_in_place; reflexivity|lia|]. intros now.
  apply at_most_ret.
Qed.

(** X26. The requests of a dashboard build are bounded, whatever the
    upstream answers and however large the catalog is: one build sends at
    most 136 requests, of which at most 84 for the metric details (the
    catalog and twenty details, four attempts each); [getCampaigns] sends
    at most 8, [calculateRevenueByMetricId] at most 8 (the query and its
    fallback) and [queryMetricAggregates] at most 4. *)
Theorem getDashboardMetrics_request_budget (w : World) :
  (length (sent_since w (snd (getDashboardMetrics rt this w))) ≤ 136)%nat
  ∧ (length (sent_since w (snd (getAllMetricsWithDetails rt this w))) ≤ 84)%nat
  ∧ (length (sent_since w (snd (getCampaigns rt this w))) ≤ 8)%nat
  ∧ (∀ metricId options,
       length (sent_since w (snd (calculateRevenueByMetricId rt this metricId options w)))
       ≤ 8)%nat
  ∧ (∀ metricId options,
       length (sent_since w (snd (queryMetricAggregates rt this metricId options w)))
       ≤ 4)%nat.
Proof.
  split; [apply at_most_sent_since, at_most_getDashboardMetrics|].
  split; [apply at_most_sent_since, at_most_getAllMetricsWithDetails|].
  split; [apply at_most_sent_since, at_most_getCampaigns|].
  split; intros metricId options; apply at_most_sent_since.
  - apply at_most_calculateRevenueByMetricId.
  - apply at_most_queryMetricAggregates.
Qed.

(** The loop goes on for as long as the upstream hands out cursors. *)
Lemma events_loop_goes_on (status : Z) (body : Value) (path : string)
    (metricId : Value) :
  (∀ n request, upstream rt n request = HttpResponse status body) →
  ok_status status = true →
  truthy (opt (opt body "links") "next") = true →
  URL_pathname_search rt (opt (opt body "links") "next") = Some path →
  ∀ (fuel : nat) (firstRequest : bool) (url : Value) (allEvents : list Value) (w : World),
    (firstRequest = true ∨ url = opt (opt body "links") "next") →
    ∃ w', events_loop rt this fuel metricId firstRequest url allEvents w
          = (Return None, w')
          ∧ sent_count w' = (sent_count w + fuel)%nat.
Proof.
  intros Hup Hok Hnext Hpath.
  assert (js_or (opt (opt body "links") "next") VNull = opt (opt body "links") "next")
    as Hjs by (unfold js_or; rewrite Hnext; reflexivity).
  induction fuel as [|fuel IH]; intros firstRequest url allEvents w Hentry.
  - exists w. rewrite Nat.add_0_r. split; [|reflexivity].
    destruct firstRequest; cbn [events_loop orb]; [reflexivity|].
    destruct Hentry as [Hfirst| ->]; [discriminate Hfirst|].
    rewrite Hnext. reflexivity.
  - assert (∀ endpoint params,
              ∃ w1, makeRequest rt this endpoint "GET" VNull params 0 w = (Return body, w1)
                    ∧ sent_count w1 = S (sent_count w)) as Hrequest.
    { intros endpoint params.
      destruct (makeRequest_ok rt this endpoint "GET" VNull params w status body
                  (Hup _ _) Hok) as (w1 & Hrun & Hreq).
      exists w1. split; [exact Hrun|]. rewrite (sent_count_app _ _ _ Hreq). simpl. lia. }
    cbn [events_loop].
    destruct firstRequest.
    + cbn [orb]. rewrite bind_eq.
      destruct (Hrequest "/events/"
                  (VObj [("filter", VStr (events_filter metricId));
                         ("page[size]", VInt 100)])) as (w1 & Hrun & Hcount).
      rewrite Hrun, Hjs.
      match goal with |- context [events_loop rt this fuel metricId false _ ?acc w1] =>
        destruct (IH false (opt (opt body "links") "next") acc w1 (or_intror eq_refl))
          as (w' & Hloop & Hcount') end.
      exists w'. split; [exact Hloop|]. rewrite Hcount', Hcount. lia.
    + destruct Hentry as [Hfirst| ->]; [discriminate Hfirst|].
      cbn [orb]. rewrite Hnext. rewrite bind_eq, bind_eq. unfold cursor_path.
      rewrite Hpath. unfold mret at 1, M_ret at 1. cbv beta iota.
      destruct (Hrequest (strip_api path) (VObj [])) as (w1 & Hrun & Hcount).
      rewrite Hrun, Hjs.
      match goal with |- context [events_loop rt this fuel metricId false _ ?acc w1] =>
        destruct (IH false (opt (opt body "links") "next") acc w1 (or_intror eq_refl))
          as (w' & Hloop & Hcount') end.
      exists w'. split; [exact Hloop|]. rewrite Hcount', Hcount. lia.
Qed.

(** X27. Pagination has no limit of its own. Against an upstream that
    hands out a cursor with every page, [getAllEventsByMetricId] is still
    in its loop after any number of iterations, and has sent one request
    in each: no number of pages makes it stop. *)
Theorem getAllEventsByMetricId_has_no_page_limit (fuel : nat) (metricId : Value)
    (w : World) (status : Z) (body : Value) (path : string) :
  (∀ n request, upstream rt n request = HttpResponse status body) →
  ok_status status = true →
  truthy (opt (opt body "links") "next") = true →
  URL_pathname_search rt (opt (opt body "links") "next") = Some path →
  ∃ w', getAllEventsByMetricId rt this fuel metricId w = (Return None, w')
        ∧ sent_count w' = (sent_count w + fuel)%nat.
Proof.
  intros Hup Hok Hnext Hpath.
  destruct (events_loop_goes_on status body path metricId Hup Hok Hnext Hpath fuel true
              VNull [] w (or_introl eq_refl)) as (w' & Hloop & Hcount).
  exists w'. split; [|exact Hcount].
  unfold getAllEventsByMetricId. apply or_default_return.
  rewrite (bind_return _ _ _ _ _ Hloop). reflexivity.
Qed.

End Budgets.

(** With every answer a 429, a build sends 32 requests: four attempts for
    each of its eight fetches. *)
Example throttled_build_sends_32_requests :
  length (sent_since Inputs.start
            (snd (getDashboardMetrics (Inputs.always 429 Inputs.throttled_body)
                    Inputs.service Inputs.start))) = 32%nat.
Proof. vm_compute. reflexivity. Qed.

Lemma getAllEventsByMetricId_has_no_page_limit_witness :
  ∃ w', getAllEventsByMetricId Cases.endless Inputs.service 5 (VStr "M1") Inputs.start
        = (Return None, w')
        ∧ sent_count w' = (sent_count Inputs.start + 5)%nat.
Proof.
  apply (getAllEventsByMetricId_has_no_page_limit Cases.endless Inputs.service 5
           (VStr "M1") Inputs.start 200
           (Inputs.page (Inputs.events 0 2) (Inputs.cursor "again"))
           "/api/events/?page[cursor]=again").
  - intros n request. reflexivity.
  - reflexivity.
  - reflexivity.
  - reflexivity.
Defined.

(** ** The snapshot, field by field *)

Section Snapshots.

Variable rt : Runtime.
Variable this : KlaviyoService.

(** [getAllMetricsWithDetails] on a catalog that the upstream serves, and
    none of whose entries is [null]. *)
Lemma getAllMetricsWithDetails_catalog (w : World) (body : Value)
    (catalog : list Value) :
  always_answers rt this "/metrics/" (VObj []) body →
  opt body "data" = VArr catalog →
  catalog ≠ [] →
  Forall (λ m, nullish m = false) catalog →
  ∃ details w',
    getAllMetricsWithDetails rt this w
    = (Return (VObj [("metrics", VArr catalog);
                     ("details", VArr details);
                     ("total", VInt (Z.of_nat (length catalog)))]), w')
    ∧ (length details ≤ 20)%nat
    ∧ Forall (λ d, truthy d = true) details.
Proof.
  intros Hanswers Hdata Hne Hnn.
  destruct (fetch_answered rt this "/metrics/" (VObj []) empty_list_envelope body w
              Hanswers) as (w1 & Hget).
  assert (Forall (λ m, nullish m = false) (take 20 catalog)) as Hnn20
    by (apply Forall_take; exact Hnn).
  destruct (details_loop rt this (take 20 catalog) Hnn20 [] w1)
    as (details & w' & requests & Hloop & Hlen & Htruthy & _).
  exists details, w'. split; [|split; [|exact Htruthy]].
  - unfold getAllMetricsWithDetails. apply or_default_return.
    unfold getMetrics. rewrite (bind_return _ _ _ _ _ Hget). cbv zeta. rewrite Hdata.
    change (js_or (VArr catalog) (VArr [])) with (VArr catalog).
    destruct catalog as [|m catalog]; [contradiction|].
    change (is_zero (getProp (VArr (m :: catalog)) "length")) with false.
    cbv iota. unfold slice20. rewrite bind_eq. unfold mret at 1, M_ret at 1.
    cbv beta iota. rewrite (bind_return _ _ _ _ _ Hloop). reflexivity.
  - rewrite length_take in Hlen. lia.
Qed.

(** Without a catalog there are no details to fetch. *)
Lemma getAllMetricsWithDetails_without_catalog (w : World) :
  always_fails rt this "/metrics/" →
  ∃ w', getAllMetricsWithDetails rt this w
        = (Return (VObj [("metrics", VArr []); ("details", VArr [])]), w').
Proof.
  intros Hfails.
  destruct (fetch_cases rt this "/metrics/" "GET" VNull (VObj []) empty_list_envelope w)
    as (v & w' & Hrun & _).
  pose proof (fetch_fails rt this _ _ _ _ _ _ Hfails Hrun) as ->.
  exists w'. unfold getAllMetricsWithDetails. apply or_default_return.
  unfold getMetrics. rewrite (bind_return _ _ _ _ _ Hrun). reflexivity.
Qed.


(** C1, as amended. Provided no 2xx answer has a [null] body,
    [getDashboardMetrics] returns a snapshot whatever fails, the catalog
    load included: there is no hard failure for a failed fetch.
    - A fetch that fails leaves its default in the snapshot:
      [{ data: [] }] for the flows (with [flowCount] 0), the lists, the
      campaigns (with [campaignCount] 0) and the metric catalog, the
      placeholder object for the account; without the catalog every event
      counter and the revenue are 0 and the metric details are empty.
    - A fetch that is answered puts its answer in the snapshot, whatever
      the other fetches do: the body (or [null] when the body has a truthy
      [error]) for the flows (with [flowCount] the length of its list), the
      lists, the account and the catalog; the campaigns of the email
      channel followed by those of the sms channel (with [campaignCount]
      their number).
    - On a catalog that is served, and whose entries have ASCII names,
      each event counter is the count reported for the id resolved for it
      (0 without an id), and the revenue is what the revenue query for the
      Placed Order id adds up to (0 without an id); counts and revenue in
      whole numbers. On a served catalog that is not empty and has no
      [null] entry, the metric details hold the catalog, its length and at
      most twenty truthy details. *)
Theorem getDashboardMetrics_degrades_each_fetch (w : World) :
  bodies_not_null rt →
  ∃ snapshot w',
    getDashboardMetrics rt this w = (Return snapshot, w')
    ∧ (always_fails rt this "/flows/" →
       flows snapshot = empty_list_envelope ∧ flowCount snapshot = VInt 0)
    ∧ (always_fails rt this "/lists/" → lists snapshot = empty_list_envelope)
    ∧ (always_fails rt this "/campaigns/" →
       campaigns snapshot = empty_list_envelope ∧ campaignCount snapshot = VInt 0)
    ∧ (always_fails rt this "/accounts/" → account snapshot = account_placeholder)
    ∧ (always_fails rt this "/metrics/" →
       metrics snapshot = empty_list_envelope
       ∧ metricsWithDetails snapshot = VObj [("metrics", VArr []); ("details", VArr [])]
       ∧ eventMetrics snapshot = zero_event_metrics
       ∧ rm_totalRevenue (revenueMetrics snapshot) = 0%Q)
    ∧ (∀ body, always_answers rt this "/flows/" (VObj []) body →
         flows snapshot = settled body
         ∧ flowCount snapshot = data_length (settled body))
    ∧ (∀ body, always_answers rt this "/lists/" (VObj []) body →
         lists snapshot = settled body)
    ∧ (∀ email sms es ss,
         always_answers rt this "/campaigns/" (channel_filter "email") email →
         always_answers rt this "/campaigns/" (channel_filter "sms") sms →
         opt email "data" = VArr es → opt sms "data" = VArr ss →
         campaigns snapshot = VObj [("data", VArr (es ++ ss))]
         ∧ campaignCount snapshot = VInt (Z.of_nat (length (es ++ ss))))
    ∧ (∀ body, always_answers rt this "/accounts/" (VObj []) body →
         account snapshot = settled body)
    ∧ (∀ body, always_answers rt this "/metrics/" (VObj []) body →
         metrics snapshot = settled body)
    ∧ (∀ body catalog,
         always_answers rt this "/metrics/" (VObj []) body →
         opt body "data" = VArr catalog →
         catalog ≠ [] → Forall (λ m, nullish m = false) catalog →
         ∃ details,
           metricsWithDetails snapshot
           = VObj [("metrics", VArr catalog);
                   ("details", VArr details);
                   ("total", VInt (Z.of_nat (length catalog)))]
           ∧ (length details ≤ 20)%nat
           ∧ Forall (λ d, truthy d = true) details)
    ∧ (∀ body catalog,
         always_answers rt this "/metrics/" (VObj []) body →
         opt body "data" = VArr catalog →
         named catalog → plain_names catalog = true →
         let placedOrderId := exact_then_substring "Placed Order" catalog in
         counter_of rt this placedOrderId (placedOrder (eventMetrics snapshot))
         ∧ counter_of rt this (first_id (contains "viewed product") catalog)
             (viewedProduct (eventMetrics snapshot))
         ∧ counter_of rt this (first_id (contains "added to cart") catalog)
             (addedToCart (eventMetrics snapshot))
         ∧ counter_of rt this (first_id (contains "active on site") catalog)
             (activeOnSite (eventMetrics snapshot))
         ∧ (truthy placedOrderId = false →
            rm_totalRevenue (revenueMetrics snapshot) = 0%Q)
         ∧ (∀ response groups,
              truthy placedOrderId = true →
              revenue_answered rt this placedOrderId response →
              opt (opt (opt response "data") "attributes") "data" = VArr groups →
              whole_numbers (concat (revenue_numbers <$> groups)) = true →
              rm_totalRevenue (revenueMetrics snapshot) = revenue_total groups
              ∧ revenueByEmail (revenueMetrics snapshot) = revenue_total groups)).
Proof.
  intros Hnn.
  destruct (getDashboardMetrics_steps rt this w Hnn)
    as (acc & w1 & met & w2 & cl & w3 & lis & w4 & flo & w5 & pid & em & w6 & det
        & rev & w7 & Hacc & Hmet & Hcam & Hlis & Hflo & Hev & Hrev & Hrun).
  destruct (revenue_block_details rt this _ _ _ _ _ Hrev) as (w6' & Hdet).
  eexists. exists w7. split; [exact Hrun|].
  cbn [flows flowCount lists campaigns campaignCount account metrics
       metricsWithDetails].
  fold (settled acc) (settled met) (settled lis) (settled flo).
  split; [|split; [|split; [|split; [|split; [|split; [|split; [|split; [|split;
    [|split; [|split]]]]]]]]]].
  - intros Hfails. rewrite (fetch_fails rt this _ _ _ _ _ _ Hfails Hflo).
    split; reflexivity.
  - intros Hfails. rewrite (fetch_fails rt this _ _ _ _ _ _ Hfails Hlis). reflexivity.
  - intros Hfails. destruct (getCampaigns_fails rt this w2 Hfails) as (w3' & Hcam').
    rewrite Hcam' in Hcam. injection Hcam as <- _. split; reflexivity.
  - intros Hfails. rewrite (fetch_fails rt this _ _ _ _ _ _ Hfails Hacc). reflexivity.
  - intros Hfails. rewrite (fetch_fails rt this _ _ _ _ _ _ Hfails Hmet).
    destruct (event_metrics_block_without_catalog rt this w5 Hfails) as (w6'' & Hev').
    rewrite Hev' in Hev. injection Hev as <- <- <-.
    destruct (revenue_block_without_id rt this w6'') as (det' & w7' & Hrev').
    rewrite Hrev' in Hrev. injection Hrev as <- <- <-.
    destruct (getAllMetricsWithDetails_without_catalog w6'' Hfails) as (w8 & Hdet').
    rewrite Hdet' in Hdet. injection Hdet as <- _.
    repeat split; reflexivity.
  - intros body Hanswers.
    rewrite (fetch_settled rt this _ _ _ _ _ _ _ Hanswers Hflo). split; reflexivity.
  - intros body Hanswers.
    rewrite (fetch_settled rt this _ _ _ _ _ _ _ Hanswers Hlis). reflexivity.
  - intros email sms es ss Hemail Hsms Hes Hss.
    destruct (getCampaigns_answered rt this email sms es ss w2 Hemail Hsms Hes Hss)
      as (w3' & Hcam').
    rewrite Hcam' in Hcam. injection Hcam as <- _.
    split; [reflexivity|]. apply data_length_list.
  - intros body Hanswers.
    rewrite (fetch_settled rt this _ _ _ _ _ _ _ Hanswers Hacc). reflexivity.
  - intros body Hanswers.
    rewrite (fetch_settled rt this _ _ _ _ _ _ _ Hanswers Hmet). reflexivity.
  - intros body catalog Hanswers Hdata Hne Hnonnull.
    destruct (getAllMetricsWithDetails_catalog w6 body catalog Hanswers Hdata Hne
                Hnonnull) as (details & w8 & Hdet' & Hlen & Htruthy).
    rewrite Hdet' in Hdet. injection Hdet as <- _. eauto.
  - intros body catalog Hanswers Hdata Hnamed _.
    destruct (getDashboardMetrics_resolved rt this w w7 _ body catalog Hnn Hanswers
                Hdata Hnamed Hrun) as (C1 & C2 & C3 & C4 & Hnone & Hrevenue).
    split; [exact C1|]. split; [exact C2|]. split; [exact C3|]. split; [exact C4|].
    split; [exact Hnone|].
    intros response groups Hid Hanswered Hgroups _.
    exact (Hrevenue response groups Hid Hanswered Hgroups).
Qed.

End Snapshots.

(** C1, the claim as stated fails in both directions. With the network
    down the catalog load fails, and the build returns a snapshot all the
    same, every field at its default. With the catalog loading and the
    flows endpoint answering 200 with the body [null], the build fails
    hard, on reading [.error] of that body. *)
Lemma hard_failure_is_not_tied_to_the_catalog :
  fst (makeRequest Inputs.offline Inputs.service "/metrics/" "GET" VNull (VObj []) 0
         Inputs.start)
  = Throw (Error "Klaviyo API Error: connect ECONNREFUSED")
  ∧ (∃ snapshot,
       fst (getDashboardMetrics Inputs.offline Inputs.service Inputs.start)
       = Return snapshot
       ∧ account snapshot = account_placeholder
       ∧ metrics snapshot = empty_list_envelope
       ∧ metricsWithDetails snapshot = VObj [("metrics", VArr []); ("details", VArr [])]
       ∧ campaigns snapshot = empty_list_envelope
       ∧ lists snapshot = empty_list_envelope
       ∧ flows snapshot = empty_list_envelope
       ∧ campaignCount snapshot = VInt 0
       ∧ flowCount snapshot = VInt 0
       ∧ eventMetrics snapshot = zero_event_metrics
       ∧ revenueMetrics snapshot
         = {| rm_totalRevenue := 0; revenueByEmail := 0; revenueOverTime := [] |})
  ∧ fst (makeRequest Inputs.flows_null Inputs.service "/metrics/" "GET" VNull (VObj [])
           0 Inputs.start)
    = Return empty_list_envelope
  ∧ fst (getDashboardMetrics Inputs.flows_null Inputs.service Inputs.start)
    = Throw (TypeError "Cannot read properties of null (reading 'error')").
Proof.
  split; [vm_compute; reflexivity|]. split.
  { eexists. split; [vm_compute; reflexivity|]. repeat split. }
  split; vm_compute; reflexivity.
Qed.

Lemma getDashboardMetrics_degrades_each_fetch_witness :
  ∃ snapshot w',
    getDashboardMetrics Cases.shop_without_flows Inputs.service Inputs.start
    = (Return snapshot, w')
    ∧ flows snapshot = empty_list_envelope
    ∧ flowCount snapshot = VInt 0
    ∧ lists snapshot = Cases.two_lists
    ∧ account snapshot = Cases.account_body
    ∧ metrics snapshot = Inputs.shop_catalog
    ∧ campaigns snapshot
      = VObj [("data", VArr [Cases.campaign "E1"; Cases.campaign "S1";
                             Cases.campaign "S2"])]
    ∧ campaignCount snapshot = VInt 3
    ∧ viewedProduct (eventMetrics snapshot) = (0 + 7)%Q
    ∧ addedToCart (eventMetrics snapshot) = 0%Q
    ∧ getProp (metricsWithDetails snapshot) "metrics" = VArr Inputs.shop_metrics
    ∧ getProp (metricsWithDetails snapshot) "total" = VInt 3.
Proof.
  destruct (getDashboardMetrics_degrades_each_fetch Cases.shop_without_flows
              Inputs.service Inputs.start)
    as (snapshot & w' & Hrun & Hflows & _ & _ & _ & _ & _ & Hlists & Hcampaigns
        & Haccount & Hmetrics & Hdetails & Hcounters).
  { intros n request status body H Hok. simpl in H.
    repeat match type of H with
           | (if ?c then _ else _) = _ => destruct c
           end;
      try (injection H as <- <-; first [discriminate Hok|reflexivity]).
    unfold Inputs.shop_upstream in H.
    repeat match type of H with
           | (if ?c then _ else _) = _ => destruct c
           end;
      injection H as <- <-; reflexivity. }
  exists snapshot, w'. split; [exact Hrun|].
  assert (always_fails Cases.shop_without_flows Inputs.service "/flows/") as Hdown.
  { intros n params status body H. simpl in H. injection H as <- _. reflexivity. }
  destruct (Hflows Hdown) as [-> ->].
  rewrite (Hlists Cases.two_lists) by (intros n; exists 200; split; reflexivity).
  rewrite (Haccount Cases.account_body) by (intros n; exists 200; split; reflexivity).
  rewrite (Hmetrics Inputs.shop_catalog) by (intros n; exists 200; split; reflexivity).
  destruct (Hcampaigns Cases.email_campaigns Cases.sms_campaigns
              [Cases.campaign "E1"] [Cases.campaign "S1"; Cases.campaign "S2"])
    as [-> ->];
    try reflexivity; try (intros n; exists 200; split; reflexivity).
  destruct (Hcounters Inputs.shop_catalog Inputs.shop_metrics)
    as (_ & Hviewed & Hadded & _);
    try reflexivity; try (intros n; exists 200; split; reflexivity).
  { repeat constructor; eexists; reflexivity. }
  assert (Forall (λ m, nullish m = false) Inputs.shop_metrics) as Hnonnull
    by (repeat constructor).
  destruct (Hdetails Inputs.shop_catalog Inputs.shop_metrics
              (λ n, ex_intro _ 200 (conj eq_refl eq_refl)) eq_refl
              ltac:(discriminate) Hnonnull) as (details & -> & _).
  do 7 (split; [reflexivity|]). split; [|split; [|split; reflexivity]].
  - apply (proj2 Hviewed
             (Inputs.aggregate_response_of
                [VObj [("measurements", VObj [("count", VInt 7)])]])).
    + reflexivity.
    + intros n dateFilters. exists 200. split; reflexivity.
    + reflexivity.
  - apply (proj1 Hadded). reflexivity.
Defined.

(** With the flows endpoint down the snapshot has empty flows, and its
    other fields hold what the other endpoints answered. *)
Example flows_down_snapshot :
  ∃ snapshot,
    fst (getDashboardMetrics Cases.shop_without_flows Inputs.service Inputs.start)
    = Return snapshot
    ∧ account snapshot = Cases.account_body
    ∧ metrics snapshot = Inputs.shop_catalog
    ∧ campaigns snapshot
      = VObj [("data", VArr [Cases.campaign "E1"; Cases.campaign "S1";
                             Cases.campaign "S2"])]
    ∧ lists snapshot = Cases.two_lists
    ∧ flows snapshot = empty_list_envelope
    ∧ campaignCount snapshot = VInt 3
    ∧ flowCount snapshot = VInt 0
    ∧ eventMetrics snapshot
      = {| placedOrder := 0 + 1; viewedProduct := 0 + 7;
           addedToCart := 0; activeOnSite := 0 |}
    ∧ rm_totalRevenue (revenueMetrics snapshot) = 0%Q.
Proof. eexists. split; [vm_compute; reflexivity|]. repeat split. Qed.

